(** * wolfAI data access layer: a shallow embedding of
      [backend/services/data_access_layer.py] and the properties of its
      query executor and repositories.

    The Python module talks to three collaborators: the operating system
    (directories), SQLite through [aiosqlite] (two store files) and the
    [logging] module.  They are modelled by one [World] value that every
    method threads through a state-and-exception monad [M].  Python
    exceptions are the [Raise] outcome; [try ... except] is [try_except].

    What the model fixes about the collaborators:
    - a Python [str] is the string of its UTF-8 bytes;
    - the rows of the two tables are typed by their [CREATE TABLE]
      statements, and SQLite is given a meaning on the statements the
      module issues, with values of the types its methods pass; on any
      other statement or value SQLite's answer is a parameter of the world;
    - CURRENT_TIMESTAMP is the clock of the world in whole seconds; a
      method reads the clock and does not move it, time passes between
      calls;
    - ORDER BY keeps rows of equal key in rowid order;
    - which directories cannot be created is a parameter of the world. *)

From Stdlib Require Import String Ascii List ZArith Bool Arith Lia.
From Stdlib Require Import Sorting.Permutation Sorting.Sorted.
From Stdlib Require Import DecimalString.
From Stdlib Require DecimalFacts DecimalPos DecimalN.
Import ListNotations.
Local Open Scope string_scope.
Local Open Scope Z_scope.

(** ** Python strings *)

Module PyStr.

(** [str.isspace] on the ASCII range: TAB..CR, FS..US and the blank. *)
Definition isspace (c : ascii) : bool :=
  let n := nat_of_ascii c in
  (Nat.leb 9 n && Nat.leb n 13) || (Nat.leb 28 n && Nat.leb n 32).

Fixpoint lstrip (s : string) : string :=
  match s with
  | EmptyString => EmptyString
  | String c r => if isspace c then lstrip r else s
  end.

(** [s.rstrip()]: a character goes when it is white space and nothing
    is left after it. *)
Fixpoint rstrip (s : string) : string :=
  match s with
  | EmptyString => EmptyString
  | String c r =>
      let r' := rstrip r in
      if isspace c then
        match r' with EmptyString => EmptyString | _ => String c r' end
      else String c r'
  end.

(** [s.strip()] *)
Definition strip (s : string) : string := rstrip (lstrip s).

Definition upper_char (c : ascii) : ascii :=
  let n := nat_of_ascii c in
  if Nat.leb 97 n && Nat.leb n 122 then ascii_of_nat (n - 32) else c.

(** [s.upper()]; letters outside ASCII are left as they are. *)
Fixpoint upper (s : string) : string :=
  match s with
  | EmptyString => EmptyString
  | String c r => String (upper_char c) (upper r)
  end.

(** [s.startswith(p)] *)
Definition startswith (s p : string) : bool := String.prefix p s.

(** [sep.join(parts)] *)
Definition join (sep : string) (parts : list string) : string :=
  String.concat sep parts.

(** [s[:n]] *)
Definition take (n : nat) (s : string) : string := String.substring 0 n s.

Definition is_empty (s : string) : bool :=
  match s with EmptyString => true | _ => false end.

End PyStr.

(** ** [os.path] *)

Module OsPath.

Definition slash : ascii := "/"%char.

Fixpoint drop_while (p : ascii -> bool) (l : list ascii) : list ascii :=
  match l with
  | [] => []
  | c :: r => if p c then drop_while p r else l
  end.

Definition is_slash (c : ascii) : bool := Ascii.eqb c slash.

(** [posixpath.dirname]: everything up to and including the last slash,
    then without its trailing slashes unless it consists of slashes only. *)
Definition dirname (p : string) : string :=
  let head := List.rev (drop_while (fun c => negb (is_slash c))
                                   (List.rev (list_ascii_of_string p))) in
  if forallb is_slash head then string_of_list_ascii head
  else string_of_list_ascii
         (List.rev (drop_while is_slash (List.rev head))).

(** The directory itself and the directories above it, nearest first. *)
Fixpoint ancestors (fuel : nat) (d : string) : list string :=
  match fuel with
  | O => []
  | S f =>
      if PyStr.is_empty d then []
      else d :: (if String.eqb (dirname d) d then [] else ancestors f (dirname d))
  end.

Definition chain (d : string) : list string := ancestors (S (String.length d)) d.

End OsPath.

(** ** Python values, exceptions, log records *)

Inductive exn_class :=
| OSError | OperationalError | IntegrityError | ProgrammingError
| JSONDecodeError | AttributeError | TypeError | OtherError.

Record exn := mk_exn { exc_class : exn_class; exc_msg : string }.

Definition is_JSONDecodeError (e : exn) : bool :=
  match exc_class e with JSONDecodeError => true | _ => false end.

(** The values that cross the SQLite boundary: [None], [int] and [str].
    [PyTimestamp t] is the text that SQLite's CURRENT_TIMESTAMP yields at
    the instant [t] (whole seconds): these texts all have one layout, so
    they compare as their instants do. *)
Inductive pyval :=
| PyNone
| PyInt (n : Z)
| PyStr (s : string)
| PyTimestamp (t : Z).

(** What the executor hands back: a single value ([Val PyNone] is
    Python's [None]), one row, or a list of rows. *)
Inductive pyresult :=
| Val (v : pyval)
| Row (cells : list pyval)
| RowList (rows : list (list pyval)).

(** A [dict] keeps insertion order; keys are unique. *)
Definition pydict (V : Type) := list (string * V).

Module Dict.
Section Ops.
Context {V : Type}.

Fixpoint get (k : string) (d : pydict V) : option V :=
  match d with
  | [] => None
  | (k', v) :: r => if String.eqb k k' then Some v else get k r
  end.

(** [d[k] = v]: an existing key keeps its place, a new one goes last. *)
Fixpoint set (k : string) (v : V) (d : pydict V) : pydict V :=
  match d with
  | [] => [(k, v)]
  | (k', v') :: r =>
      if String.eqb k k' then (k', v) :: r else (k', v') :: set k v r
  end.

(** [d.update(other)] *)
Definition update (d other : pydict V) : pydict V :=
  fold_left (fun acc kv => set (fst kv) (snd kv) acc) other d.

Definition keys (d : pydict V) : list string := map fst d.
Definition values (d : pydict V) : list V := map snd d.

(** [dict(pairs)] *)
Definition of_pairs (l : list (string * V)) : pydict V := update [] l.

Definition truthy (d : pydict V) : bool :=
  match d with [] => false | _ => true end.
End Ops.
End Dict.

Inductive level := INFO | ERROR.

(** One call of [logger.info] / [logger.error]: who logged, the
    string-valued entries of [extra["props"]] that the model keeps, the
    exception reported (its text is what [str(e)] puts in the props) and
    the [exc_info] flag.  The message text itself is not kept. *)
Record LogRecord := mk_log {
  lg_level : level;
  lg_origin : string;
  lg_props : pydict string;
  lg_exc : option exn;
  lg_exc_info : bool
}.

Inductive outcome (A : Type) :=
| Return (a : A)
| Raise (e : exn).
Arguments Return {A} a.
Arguments Raise {A} e.

(** ** The two stores *)

(** Rows are typed by the [CREATE TABLE] statements of the module. *)
Record report := mk_report {
  r_id : Z;
  r_original_filename : string;
  r_content : option string;
  r_source_path : option string;
  r_processed_at : Z;
  r_status : option string;
  r_metadata : option string;
  r_analysis_json : option string
}.

Record prompt_template := mk_prompt {
  p_id : Z;
  p_name : string;
  p_template_text : string;
  p_category : option string;
  p_created_at : Z;
  p_updated_at : Z
}.

(** A table with an AUTOINCREMENT key: its rows in rowid order and the
    largest rowid ever handed out. *)
Record table (A : Type) := mk_table { rows : list A; seq : Z }.
Arguments mk_table {A} rows seq.
Arguments rows {A} t.
Arguments seq {A} t.

(** One store file; a table that was never created is [None]. *)
Record Store := mk_store {
  reports : option (table report);
  prompt_templates : option (table prompt_template)
}.

Definition empty_store : Store := mk_store None None.

(** The result set of a statement. *)
Record Cursor := mk_cursor {
  description : list string;
  result_rows : list (list pyval)
}.

Definition no_rows : Cursor := mk_cursor [] [].

(** [cursor.fetchone()] and [cursor.fetchall()] on a fresh cursor. *)
Definition fetchone (c : Cursor) : option (list pyval) := hd_error (result_rows c).
Definition fetchall (c : Cursor) : list (list pyval) := result_rows c.

(** Under [row_factory = aiosqlite.Row] a row carries its column names. *)
Definition sqlite_row := list (string * pyval).

Definition fetchone_row (c : Cursor) : option sqlite_row :=
  option_map (combine (description c)) (fetchone c).
Definition fetchall_rows (c : Cursor) : list sqlite_row :=
  map (combine (description c)) (fetchall c).

(** [dict(row)] *)
Definition dict_of_row (r : sqlite_row) : pydict pyval := Dict.of_pairs r.

(** An open connection: the file it is on, the state of the transaction
    in progress (if any) and the connection's [last_insert_rowid()]. *)
Record Conn := mk_conn {
  c_path : string;
  c_txn : option Store;
  c_last_rowid : Z
}.

(** ** The world *)

(** [mkdir_denied] and [foreign_sql] are the parts of the environment
    that the module does not determine: which directory creations the
    operating system refuses (with the text of its [OSError]), and what
    SQLite does with a statement other
    than the ones the repositories issue (given the statement, the bound
    values, the clock, the visible store and the connection's last rowid:
    the store it writes, if it writes, the new last rowid and the rows). *)
Record World := mk_world {
  dirs : list string;
  files : list (string * Store);
  now : Z;
  log : list LogRecord;
  mkdir_denied : string -> option string;
  foreign_sql : string -> list pyval -> Z -> Store -> Z ->
                outcome (option Store * Z * Cursor)
}.

Definition with_dirs (w : World) (d : list string) : World :=
  mk_world d (files w) (now w) (log w) (mkdir_denied w) (foreign_sql w).
Definition with_files (w : World) (f : list (string * Store)) : World :=
  mk_world (dirs w) f (now w) (log w) (mkdir_denied w) (foreign_sql w).
Definition with_log (w : World) (l : list LogRecord) : World :=
  mk_world (dirs w) (files w) (now w) l (mkdir_denied w) (foreign_sql w).
Definition with_now (w : World) (t : Z) : World :=
  mk_world (dirs w) (files w) t (log w) (mkdir_denied w) (foreign_sql w).

Definition mem (s : string) (l : list string) : bool :=
  existsb (String.eqb s) l.

(** The content of the store file at [path]; a file that does not exist
    yet reads as a store without tables. *)
Definition disk (w : World) (path : string) : Store :=
  match Dict.get path (files w) with
  | Some s => s
  | None => empty_store
  end.

Definition write_disk (w : World) (path : string) (s : Store) : World :=
  with_files w (Dict.set path s (files w)).

(** ** The monad of the methods *)

Definition M (A : Type) : Type := World -> outcome A * World.

Definition ret {A} (a : A) : M A := fun w => (Return a, w).
Definition raise {A} (e : exn) : M A := fun w => (Raise e, w).

Definition bind {A B} (m : M A) (k : A -> M B) : M B :=
  fun w =>
    match m w with
    | (Return a, w') => k a w'
    | (Raise e, w') => (Raise e, w')
    end.

(** [try: body  except Exception as e: handler(e)] *)
Definition try_except {A} (body : M A) (handler : exn -> M A) : M A :=
  fun w =>
    match body w with
    | (Return a, w') => (Return a, w')
    | (Raise e, w') => handler e w'
    end.

Notation "x <- m ;; k" := (bind m (fun x => k))
  (at level 61, m at next level, right associativity).
Notation "' pat <- m ;; k" := (bind m (fun x => match x with pat => k end))
  (at level 61, pat pattern, m at next level, right associativity).
Notation "m ;; k" := (bind m (fun _ => k))
  (at level 61, right associativity).

Definition result_of {A} (r : outcome A * World) : outcome A := fst r.
Definition world_of {A} (r : outcome A * World) : World := snd r.

(** *** logging *)

Definition logger_info (origin : string) (props : pydict string) : M unit :=
  fun w => (Return tt, with_log w (log w ++ [mk_log INFO origin props None false])).

Definition logger_error (origin : string) (props : pydict string)
           (e : option exn) (exc_info : bool) : M unit :=
  fun w => (Return tt, with_log w (log w ++ [mk_log ERROR origin props e exc_info])).

(** *** os *)

(** [os.path.exists]: a directory or a store file of that name. *)
Definition os_path_exists (p : string) : M bool :=
  fun w => (Return (mem p (dirs w) || mem p (Dict.keys (files w))), w).

(** [os.makedirs(d, exist_ok=True)]: the directory and every missing
    directory above it, unless the operating system refuses. *)
Definition os_makedirs (d : string) : M unit :=
  fun w =>
    match mkdir_denied w d with
    | Some msg => (Raise (mk_exn OSError msg), w)
    | None =>
        (Return tt,
         with_dirs w (filter (fun a => negb (mem a (dirs w))) (OsPath.chain d) ++ dirs w))
    end.

(** ** SQLite on the statements of the module *)

Module Sql.

(** The statement texts, as the methods write them. *)
Definition create_reports : string :=
"
        CREATE TABLE IF NOT EXISTS reports (
            id INTEGER PRIMARY KEY AUTOINCREMENT,
            original_filename TEXT NOT NULL,
            content TEXT,
            source_path TEXT,
            processed_at TIMESTAMP DEFAULT CURRENT_TIMESTAMP,
            status TEXT DEFAULT 'pending',
            metadata TEXT,
            analysis_json TEXT
        );
        ".

Definition create_prompts : string :=
"
        CREATE TABLE IF NOT EXISTS prompt_templates (
            id INTEGER PRIMARY KEY AUTOINCREMENT,
            name TEXT UNIQUE NOT NULL,
            template_text TEXT NOT NULL,
            category TEXT,
            created_at TIMESTAMP DEFAULT CURRENT_TIMESTAMP,
            updated_at TIMESTAMP DEFAULT CURRENT_TIMESTAMP
        );
        ".

Definition insert_report : string :=
  "INSERT INTO reports (original_filename, content, source_path, metadata, status) VALUES (?, ?, ?, ?, ?)".
Definition select_report : string :=
  "SELECT id, original_filename, content, source_path, processed_at, status, metadata, analysis_json FROM reports WHERE id = ?".
Definition update_status : string :=
  "UPDATE reports SET status = ?, processed_at = CURRENT_TIMESTAMP WHERE id = ?".
Definition update_status_content : string :=
  "UPDATE reports SET status = ?, content = ?, processed_at = CURRENT_TIMESTAMP WHERE id = ?".
Definition update_analysis : string :=
  "UPDATE reports SET analysis_json = ?, status = ?, processed_at = CURRENT_TIMESTAMP WHERE id = ?".
Definition update_metadata : string :=
  "UPDATE reports SET metadata = ?, processed_at = CURRENT_TIMESTAMP WHERE id = ?".
Definition exists_source : string :=
  "SELECT 1 FROM reports WHERE source_path = ? LIMIT 1".
Definition insert_prompt : string :=
  "INSERT INTO prompt_templates (name, template_text, category) VALUES (?, ?, ?)".
Definition select_prompt : string :=
  "SELECT id, name, template_text, category, created_at, updated_at FROM prompt_templates WHERE name = ?".
Definition list_prompts : string :=
  "SELECT id, name, category, updated_at FROM prompt_templates ORDER BY updated_at DESC LIMIT ? OFFSET ?".
Definition last_insert_rowid : string := "SELECT last_insert_rowid()".

(** The statements with their bound values. *)
Inductive stmt :=
| CreateReports
| CreatePrompts
| InsertReport (filename content source_path metadata status : option string)
| SelectReport (id : Z)
| UpdateStatus (status : option string) (id : Z)
| UpdateStatusContent (status content : option string) (id : Z)
| UpdateAnalysis (analysis status : option string) (id : Z)
| UpdateMetadata (metadata : option string) (id : Z)
| ExistsSource (source_path : option string)
| InsertPrompt (name template_text category : option string)
| SelectPrompt (name : option string)
| ListPrompts (limit offset : Z)
| LastInsertRowid.

(** A statement text with its bound values is one of the statements
    above, or one of their texts with the wrong number of values, or
    something the module never issues (another text, or a value of a type
    its methods do not pass). *)
Inductive decoded :=
| Known (s : stmt)
| BadArity
| Unmodelled.

(** A value bound to a TEXT column or compared with one. *)
Definition text (v : pyval) : option (option string) :=
  match v with
  | PyNone => Some None
  | PyStr s => Some (Some s)
  | _ => None
  end.

Definition int (v : pyval) : option Z :=
  match v with PyInt n => Some n | _ => None end.

Definition known (s : option stmt) : decoded :=
  match s with Some s => Known s | None => Unmodelled end.

Definition opt_bind {A B} (o : option A) (k : A -> option B) : option B :=
  match o with Some a => k a | None => None end.

Definition decode (q : string) (params : list pyval) : decoded :=
  if String.eqb q create_reports then
    match params with [] => Known CreateReports | _ => BadArity end
  else if String.eqb q create_prompts then
    match params with [] => Known CreatePrompts | _ => BadArity end
  else if String.eqb q insert_report then
    match params with
    | [a; b; c; d; e] =>
        known (opt_bind (text a) (fun a => opt_bind (text b) (fun b =>
               opt_bind (text c) (fun c => opt_bind (text d) (fun d =>
               opt_bind (text e) (fun e => Some (InsertReport a b c d e)))))))
    | _ => BadArity
    end
  else if String.eqb q select_report then
    match params with
    | [a] => known (opt_bind (int a) (fun a => Some (SelectReport a)))
    | _ => BadArity
    end
  else if String.eqb q update_status then
    match params with
    | [a; b] => known (opt_bind (text a) (fun a => opt_bind (int b) (fun b =>
                       Some (UpdateStatus a b))))
    | _ => BadArity
    end
  else if String.eqb q update_status_content then
    match params with
    | [a; b; c] => known (opt_bind (text a) (fun a => opt_bind (text b) (fun b =>
                          opt_bind (int c) (fun c => Some (UpdateStatusContent a b c)))))
    | _ => BadArity
    end
  else if String.eqb q update_analysis then
    match params with
    | [a; b; c] => known (opt_bind (text a) (fun a => opt_bind (text b) (fun b =>
                          opt_bind (int c) (fun c => Some (UpdateAnalysis a b c)))))
    | _ => BadArity
    end
  else if String.eqb q update_metadata then
    match params with
    | [a; b] => known (opt_bind (text a) (fun a => opt_bind (int b) (fun b =>
                       Some (UpdateMetadata a b))))
    | _ => BadArity
    end
  else if String.eqb q exists_source then
    match params with
    | [a] => known (opt_bind (text a) (fun a => Some (ExistsSource a)))
    | _ => BadArity
    end
  else if String.eqb q insert_prompt then
    match params with
    | [a; b; c] => known (opt_bind (text a) (fun a => opt_bind (text b) (fun b =>
                          opt_bind (text c) (fun c => Some (InsertPrompt a b c)))))
    | _ => BadArity
    end
  else if String.eqb q select_prompt then
    match params with
    | [a] => known (opt_bind (text a) (fun a => Some (SelectPrompt a)))
    | _ => BadArity
    end
  else if String.eqb q list_prompts then
    match params with
    | [a; b] => known (opt_bind (int a) (fun a => opt_bind (int b) (fun b =>
                       Some (ListPrompts a b))))
    | _ => BadArity
    end
  else if String.eqb q last_insert_rowid then
    match params with [] => Known LastInsertRowid | _ => BadArity end
  else Unmodelled.

(** *** Rows *)

Definition of_text (o : option string) : pyval :=
  match o with Some s => PyStr s | None => PyNone end.

Definition report_columns : list string :=
  ["id"; "original_filename"; "content"; "source_path"; "processed_at";
   "status"; "metadata"; "analysis_json"].

Definition report_cells (r : report) : list pyval :=
  [PyInt (r_id r); PyStr (r_original_filename r); of_text (r_content r);
   of_text (r_source_path r); PyTimestamp (r_processed_at r);
   of_text (r_status r); of_text (r_metadata r); of_text (r_analysis_json r)].

Definition prompt_columns : list string :=
  ["id"; "name"; "template_text"; "category"; "created_at"; "updated_at"].

Definition prompt_cells (p : prompt_template) : list pyval :=
  [PyInt (p_id p); PyStr (p_name p); PyStr (p_template_text p);
   of_text (p_category p); PyTimestamp (p_created_at p);
   PyTimestamp (p_updated_at p)].

Definition listing_columns : list string := ["id"; "name"; "category"; "updated_at"].

Definition listing_cells (p : prompt_template) : list pyval :=
  [PyInt (p_id p); PyStr (p_name p); of_text (p_category p);
   PyTimestamp (p_updated_at p)].

Definition opt_eqb (a b : option string) : bool :=
  match a, b with
  | Some x, Some y => String.eqb x y
  | _, _ => false          (* a comparison with NULL is never true *)
  end.

(** The next AUTOINCREMENT key: one more than every rowid in use or
    handed out before. *)
Definition max_key {A} (key : A -> Z) (l : list A) : Z :=
  fold_right (fun r m => Z.max (key r) m) 0 l.

Definition next_key {A} (key : A -> Z) (t : table A) : Z :=
  Z.max (seq t) (max_key key (rows t)) + 1.

(** [SET ... , processed_at = CURRENT_TIMESTAMP WHERE id = ?] *)
Definition update_where_id (id : Z) (f : report -> report) (t : table report)
  : table report :=
  mk_table (map (fun r => if r_id r =? id then f r else r) (rows t)) (seq t).

Definition set_status (s : option string) (t : Z) (r : report) : report :=
  mk_report (r_id r) (r_original_filename r) (r_content r) (r_source_path r)
            t s (r_metadata r) (r_analysis_json r).
Definition set_status_content (s c : option string) (t : Z) (r : report) : report :=
  mk_report (r_id r) (r_original_filename r) c (r_source_path r)
            t s (r_metadata r) (r_analysis_json r).
Definition set_analysis (a s : option string) (t : Z) (r : report) : report :=
  mk_report (r_id r) (r_original_filename r) (r_content r) (r_source_path r)
            t s (r_metadata r) a.
Definition set_metadata (m : option string) (t : Z) (r : report) : report :=
  mk_report (r_id r) (r_original_filename r) (r_content r) (r_source_path r)
            t (r_status r) m (r_analysis_json r).

(** [ORDER BY updated_at DESC]: rows of equal [updated_at] stay in rowid
    order. *)
Fixpoint insert_desc (x : prompt_template) (l : list prompt_template)
  : list prompt_template :=
  match l with
  | [] => [x]
  | y :: r => if p_updated_at y <=? p_updated_at x then x :: l
              else y :: insert_desc x r
  end.

Definition order_by_updated_desc (l : list prompt_template) : list prompt_template :=
  fold_right insert_desc [] l.

(** [LIMIT limit OFFSET offset]: a negative limit is no limit, a negative
    offset is no offset. *)
Definition limit_offset {A} (limit offset : Z) (l : list A) : list A :=
  let rest := skipn (Z.to_nat offset) l in
  if limit <? 0 then rest else firstn (Z.to_nat limit) rest.

Definition operational (msg : string) : exn := mk_exn OperationalError msg.
Definition integrity (msg : string) : exn := mk_exn IntegrityError msg.

Definition on_reports (s : Store)
           (k : table report -> outcome (option Store * Z * Cursor))
  : outcome (option Store * Z * Cursor) :=
  match reports s with
  | Some t => k t
  | None => Raise (operational "no such table: reports")
  end.

Definition on_prompts (s : Store)
           (k : table prompt_template -> outcome (option Store * Z * Cursor))
  : outcome (option Store * Z * Cursor) :=
  match prompt_templates s with
  | Some t => k t
  | None => Raise (operational "no such table: prompt_templates")
  end.

Definition put_reports (s : Store) (t : table report) : Store :=
  mk_store (Some t) (prompt_templates s).
Definition put_prompts (s : Store) (t : table prompt_template) : Store :=
  mk_store (reports s) (Some t).

(** One statement on the visible store [s] at clock [t], on a connection
    whose last rowid is [last]: the store it writes (if it writes), the
    new last rowid and the result set, or the error SQLite reports. *)
Definition run (st : stmt) (t : Z) (s : Store) (last : Z)
  : outcome (option Store * Z * Cursor) :=
  match st with
  | CreateReports =>
      Return (match reports s with
              | Some _ => None
              | None => Some (put_reports s (mk_table [] 0))
              end, last, no_rows)
  | CreatePrompts =>
      Return (match prompt_templates s with
              | Some _ => None
              | None => Some (put_prompts s (mk_table [] 0))
              end, last, no_rows)
  | InsertReport filename content source_path metadata status =>
      on_reports s (fun tb =>
        match filename with
        | None => Raise (integrity "NOT NULL constraint failed: reports.original_filename")
        | Some fn =>
            let id := next_key r_id tb in
            Return (Some (put_reports s
                      (mk_table (rows tb ++ [mk_report id fn content source_path t
                                                       status metadata None]) id)),
                    id, no_rows)
        end)
  | SelectReport id =>
      on_reports s (fun tb =>
        Return (None, last,
                mk_cursor report_columns
                  (map report_cells (filter (fun r => r_id r =? id) (rows tb)))))
  | UpdateStatus status id =>
      on_reports s (fun tb =>
        Return (Some (put_reports s (update_where_id id (set_status status t) tb)),
                last, no_rows))
  | UpdateStatusContent status content id =>
      on_reports s (fun tb =>
        Return (Some (put_reports s (update_where_id id (set_status_content status content t) tb)),
                last, no_rows))
  | UpdateAnalysis analysis status id =>
      on_reports s (fun tb =>
        Return (Some (put_reports s (update_where_id id (set_analysis analysis status t) tb)),
                last, no_rows))
  | UpdateMetadata metadata id =>
      on_reports s (fun tb =>
        Return (Some (put_reports s (update_where_id id (set_metadata metadata t) tb)),
                last, no_rows))
  | ExistsSource source_path =>
      on_reports s (fun tb =>
        Return (None, last,
                mk_cursor ["1"]
                  (map (fun _ => [PyInt 1])
                       (firstn 1 (filter (fun r => opt_eqb (r_source_path r) source_path)
                                         (rows tb))))))
  | InsertPrompt name template_text category =>
      on_prompts s (fun tb =>
        match name, template_text with
        | None, _ => Raise (integrity "NOT NULL constraint failed: prompt_templates.name")
        | _, None => Raise (integrity "NOT NULL constraint failed: prompt_templates.template_text")
        | Some n, Some tx =>
            if existsb (fun p => String.eqb (p_name p) n) (rows tb)
            then Raise (integrity "UNIQUE constraint failed: prompt_templates.name")
            else
              let id := next_key p_id tb in
              Return (Some (put_prompts s
                        (mk_table (rows tb ++ [mk_prompt id n tx category t t]) id)),
                      id, no_rows)
        end)
  | SelectPrompt name =>
      on_prompts s (fun tb =>
        Return (None, last,
                mk_cursor prompt_columns
                  (map prompt_cells
                       (filter (fun p => opt_eqb (Some (p_name p)) name) (rows tb)))))
  | ListPrompts limit offset =>
      on_prompts s (fun tb =>
        Return (None, last,
                mk_cursor listing_columns
                  (map listing_cells
                       (limit_offset limit offset (order_by_updated_desc (rows tb))))))
  | LastInsertRowid =>
      Return (None, last, mk_cursor ["last_insert_rowid()"] [[PyInt last]])
  end.

(** The test the [sqlite3] module applies to a statement text to decide
    whether to open a transaction first: blanks are skipped, then the
    keyword is compared without regard to case. *)
Fixpoint skip_blanks (s : string) : string :=
  match s with
  | String c r =>
      if (Ascii.eqb c " " || Ascii.eqb c "009" || Ascii.eqb c "010" || Ascii.eqb c "013")%char
      then skip_blanks r else s
  | EmptyString => EmptyString
  end.

Definition is_dml (q : string) : bool :=
  let k := PyStr.upper (skip_blanks q) in
  String.prefix "INSERT" k || String.prefix "UPDATE" k ||
  String.prefix "DELETE" k || String.prefix "REPLACE" k.

End Sql.

(** ** The [json] module *)

(** JSON documents.  A number with a fraction or an exponent (and NaN,
    Infinity) is kept as the text [json.dumps] prints for it. *)
#[local] Unset Elimination Schemes.
Inductive json :=
| JNull
| JBool (b : bool)
| JInt (n : Z)
| JFloat (repr : string)
| JStr (s : string)
| JArr (items : list json)
| JObj (members : pydict json).
#[local] Set Elimination Schemes.

Module Json.
Local Open Scope nat_scope.

Definition dq : ascii := "034"%char.
Definition backslash : ascii := "092"%char.
Definition str1 (c : ascii) : string := String c EmptyString.

Definition int_repr (n : Z) : string := NilZero.string_of_int (Z.to_int n).

Definition hex_digit (n : nat) : ascii :=
  if Nat.ltb n 10 then ascii_of_nat (48 + n) else ascii_of_nat (87 + n).

(** What [json.dumps(..., ensure_ascii=False)] writes for one character
    of a string. *)
Definition escape_char (c : ascii) : string :=
  let n := nat_of_ascii c in
  if Ascii.eqb c dq then String backslash (str1 dq)
  else if Ascii.eqb c backslash then String backslash (str1 backslash)
  else if Nat.eqb n 10 then String backslash "n"
  else if Nat.eqb n 13 then String backslash "r"
  else if Nat.eqb n 9 then String backslash "t"
  else if Nat.eqb n 8 then String backslash "b"
  else if Nat.eqb n 12 then String backslash "f"
  else if Nat.ltb n 32
       then String backslash
              ("u00" ++ String (hex_digit (n / 16)) (str1 (hex_digit (n mod 16))))
       else str1 c.

Fixpoint escape (s : string) : string :=
  match s with
  | EmptyString => EmptyString
  | String c r => escape_char c ++ escape r
  end.

Definition quote (s : string) : string := String dq (escape s ++ str1 dq).

(** [json.dumps(j, ensure_ascii=False)] *)
Fixpoint dumps (j : json) : string :=
  match j with
  | JNull => "null"
  | JBool true => "true"
  | JBool false => "false"
  | JInt n => int_repr n
  | JFloat r => r
  | JStr s => quote s
  | JArr xs =>
      "[" ++ PyStr.join ", " ((fix items (l : list json) : list string :=
                                match l with
                                | [] => []
                                | x :: r => dumps x :: items r
                                end) xs) ++ "]"
  | JObj ms =>
      "{" ++ PyStr.join ", " ((fix members (l : pydict json) : list string :=
                                match l with
                                | [] => []
                                | (k, v) :: r => (quote k ++ ": " ++ dumps v) :: members r
                                end) ms) ++ "}"
  end.

(** *** The decoder *)

Definition is_ws (c : ascii) : bool :=
  (Ascii.eqb c " " || Ascii.eqb c "009" || Ascii.eqb c "010" || Ascii.eqb c "013")%char.

Fixpoint skip_ws (s : string) : string :=
  match s with
  | String c r => if is_ws c then skip_ws r else s
  | EmptyString => EmptyString
  end.

Definition is_digit (c : ascii) : bool :=
  let n := nat_of_ascii c in Nat.leb 48 n && Nat.leb n 57.

Fixpoint take_digits (s : string) : string * string :=
  match s with
  | String c r =>
      if is_digit c then let '(d, rest) := take_digits r in (String c d, rest)
      else (EmptyString, s)
  | EmptyString => (EmptyString, EmptyString)
  end.

Definition digits_value (d : string) : Z :=
  fold_left (fun acc c => (10 * acc + Z.of_nat (nat_of_ascii c - 48))%Z)
            (list_ascii_of_string d) 0%Z.

Definition hex_value (c : ascii) : option N :=
  let n := N_of_ascii c in
  (if N.leb 48 n && N.leb n 57 then Some (n - 48)
   else if N.leb 97 n && N.leb n 102 then Some (n - 87)
   else if N.leb 65 n && N.leb n 70 then Some (n - 55)
   else None)%N.

Definition hex4 (a b c d : ascii) : option N :=
  match hex_value a, hex_value b, hex_value c, hex_value d with
  | Some x, Some y, Some z, Some u => Some (((x * 16 + y) * 16 + z) * 16 + u)%N
  | _, _, _, _ => None
  end.

(** The UTF-8 bytes of a code point. *)
Definition utf8 (cp : N) : list ascii :=
  (if N.ltb cp 128 then [ascii_of_N cp]
  else if N.ltb cp 2048 then
    [ascii_of_N (192 + cp / 64); ascii_of_N (128 + cp mod 64)]
  else if N.ltb cp 65536 then
    [ascii_of_N (224 + cp / 4096); ascii_of_N (128 + (cp / 64) mod 64);
     ascii_of_N (128 + cp mod 64)]
  else
    [ascii_of_N (240 + cp / 262144); ascii_of_N (128 + (cp / 4096) mod 64);
     ascii_of_N (128 + (cp / 64) mod 64); ascii_of_N (128 + cp mod 64)])%N.

Definition is_high_surrogate (cp : N) : bool := (N.leb 55296 cp && N.leb cp 56319)%N.
Definition is_low_surrogate (cp : N) : bool := (N.leb 56320 cp && N.leb cp 57343)%N.

Definition unescape (c : ascii) : option ascii :=
  if Ascii.eqb c dq then Some dq
  else if Ascii.eqb c backslash then Some backslash
  else if Ascii.eqb c "/" then Some "/"%char
  else if Ascii.eqb c "b" then Some "008"%char
  else if Ascii.eqb c "f" then Some "012"%char
  else if Ascii.eqb c "n" then Some "010"%char
  else if Ascii.eqb c "r" then Some "013"%char
  else if Ascii.eqb c "t" then Some "009"%char
  else None.

(** The second half of a surrogate pair, when the text goes on with one. *)
Definition low_surrogate (s : string) : option (N * string) :=
  match s with
  | String b0 (String u (String a (String b (String c (String d rest))))) =>
      if Ascii.eqb b0 backslash && Ascii.eqb u "u" then
        match hex4 a b c d with
        | Some lo => if is_low_surrogate lo then Some (lo, rest) else None
        | None => None
        end
      else None
  | _ => None
  end.

(** The body of a string, after its opening quote: the decoded text and
    what follows the closing quote.  A control character must be escaped;
    a surrogate escape that is not half of a pair has no UTF-8 form and is
    refused. *)
Fixpoint scan_string (s : string) (acc : list ascii) : option (string * string) :=
  match s with
  | EmptyString => None
  | String c r =>
      if Ascii.eqb c dq then Some (string_of_list_ascii (List.rev acc), r)
      else if Ascii.eqb c backslash then
        match r with
        | EmptyString => None
        | String e r1 =>
            if Ascii.eqb e "u" then
              match r1 with
              | String a (String b (String c' (String d r2))) =>
                  match hex4 a b c' d with
                  | None => None
                  | Some cp =>
                      if is_high_surrogate cp then
                        match r2 with
                        | String b0 (String u (String a2 (String b2 (String c2 (String d2 r3))))) =>
                            match low_surrogate r2 with
                            | Some (lo, _) =>
                                scan_string r3
                                  (List.rev (utf8 (65536 + (cp - 55296) * 1024 + (lo - 56320))%N) ++ acc)
                            | None => None
                            end
                        | _ => None
                        end
                      else if is_low_surrogate cp then None
                      else scan_string r2 (List.rev (utf8 cp) ++ acc)
                  end
              | _ => None
              end
            else
              match unescape e with
              | Some x => scan_string r1 (x :: acc)
              | None => None
              end
        end
      else if Nat.ltb (nat_of_ascii c) 32 then None
      else scan_string r (c :: acc)
  end.

Definition drop (n : nat) (s : string) : string :=
  String.substring n (String.length s - n) s.

(** A number: an optional minus, then a zero or digits that do not start
    with a zero, then an optional fraction (a dot and digits), then an
    optional exponent (e or E, an optional sign, digits). *)
Definition scan_number (s : string) : option (json * string) :=
  let '(sign, s1) :=
    match s with
    | String c r => if Ascii.eqb c "-" then ("-", r) else (EmptyString, s)
    | EmptyString => (EmptyString, s)
    end in
  let int_part :=
    match s1 with
    | String c r =>
        if Ascii.eqb c "0" then Some ("0", r)
        else if is_digit c then Some (take_digits s1)
        else None
    | EmptyString => None
    end in
  match int_part with
  | None => None
  | Some (ds, r1) =>
      let '(frac, r2) :=
        match r1 with
        | String c r =>
            if Ascii.eqb c "." then
              let '(fd, rest) := take_digits r in
              if PyStr.is_empty fd then (EmptyString, r1) else (String c fd, rest)
            else (EmptyString, r1)
        | EmptyString => (EmptyString, r1)
        end in
      let '(exp, r3) :=
        match r2 with
        | String c r =>
            if Ascii.eqb c "e" || Ascii.eqb c "E" then
              let '(sg, r') :=
                match r with
                | String c' r'' =>
                    if Ascii.eqb c' "-" || Ascii.eqb c' "+" then (str1 c', r'')
                    else (EmptyString, r)
                | EmptyString => (EmptyString, r)
                end in
              let '(ed, rest) := take_digits r' in
              if PyStr.is_empty ed then (EmptyString, r2) else (String c (sg ++ ed), rest)
            else (EmptyString, r2)
        | EmptyString => (EmptyString, r2)
        end in
      if PyStr.is_empty frac && PyStr.is_empty exp
      then Some (JInt (if PyStr.is_empty sign then digits_value ds
                       else (- digits_value ds)%Z), r3)
      else Some (JFloat (sign ++ ds ++ frac ++ exp), r3)
  end.

Definition scan_constant (s : string) : option (json * string) :=
  if String.prefix "null" s then Some (JNull, drop 4 s)
  else if String.prefix "true" s then Some (JBool true, drop 4 s)
  else if String.prefix "false" s then Some (JBool false, drop 5 s)
  else match scan_number s with
       | Some r => Some r
       | None =>
           if String.prefix "NaN" s then Some (JFloat "NaN", drop 3 s)
           else if String.prefix "Infinity" s then Some (JFloat "Infinity", drop 8 s)
           else if String.prefix "-Infinity" s then Some (JFloat "-Infinity", drop 9 s)
           else None
       end.

(** One value at the head of [s]; the elements of an array after its
    bracket; the members of an object from the quote of a key on.  Each
    call uses one unit of [fuel], and no text needs more than two units
    per character. *)
Fixpoint scan_value (fuel : nat) (s : string) : option (json * string) :=
  match fuel with
  | O => None
  | S f =>
      match s with
      | EmptyString => None
      | String c r =>
          if Ascii.eqb c dq then
            match scan_string r [] with
            | Some (t, rest) => Some (JStr t, rest)
            | None => None
            end
          else if Ascii.eqb c "{" then
            match skip_ws r with
            | String c' r' =>
                if Ascii.eqb c' "}" then Some (JObj [], r')
                else scan_members f (skip_ws r) []
            | EmptyString => None
            end
          else if Ascii.eqb c "[" then
            match skip_ws r with
            | String c' r' =>
                if Ascii.eqb c' "]" then Some (JArr [], r')
                else scan_items f (skip_ws r) []
            | EmptyString => None
            end
          else scan_constant s
      end
  end
with scan_items (fuel : nat) (s : string) (acc : list json) : option (json * string) :=
  match fuel with
  | O => None
  | S f =>
      match scan_value f s with
      | None => None
      | Some (v, rest) =>
          match skip_ws rest with
          | String c r =>
              if Ascii.eqb c "]" then Some (JArr (List.rev (v :: acc)), r)
              else if Ascii.eqb c "," then scan_items f (skip_ws r) (v :: acc)
              else None
          | EmptyString => None
          end
      end
  end
with scan_members (fuel : nat) (s : string) (acc : list (string * json))
  : option (json * string) :=
  match fuel with
  | O => None
  | S f =>
      match s with
      | String q r =>
          if Ascii.eqb q dq then
            match scan_string r [] with
            | None => None
            | Some (k, r1) =>
                match skip_ws r1 with
                | String c r2 =>
                    if Ascii.eqb c ":" then
                      match scan_value f (skip_ws r2) with
                      | None => None
                      | Some (v, r3) =>
                          match skip_ws r3 with
                          | String c' r4 =>
                              if Ascii.eqb c' "}"
                              then Some (JObj (Dict.of_pairs (List.rev ((k, v) :: acc))), r4)
                              else if Ascii.eqb c' ","
                              then scan_members f (skip_ws r4) ((k, v) :: acc)
                              else None
                          | EmptyString => None
                          end
                      end
                    else None
                | EmptyString => None
                end
            end
          else None
      | EmptyString => None
      end
  end.

Definition decode_error : exn := mk_exn JSONDecodeError "Expecting value".

(** [json.loads(s)] *)
Definition loads (s : string) : outcome json :=
  match scan_value (2 * String.length s + 2) (skip_ws s) with
  | Some (j, rest) =>
      if PyStr.is_empty (skip_ws rest) then Return j else Raise decode_error
  | None => Raise decode_error
  end.

End Json.

(** ** [aiosqlite] connections *)

(** [aiosqlite.connect(path)]: SQLite opens (or creates) the file when
    the directory that holds it exists and the name is not a directory. *)
Definition aiosqlite_connect (path : string) : M Conn :=
  fun w =>
    let d := OsPath.dirname path in
    if (PyStr.is_empty d || mem d (dirs w)) && negb (mem path (dirs w))
    then (Return (mk_conn path None 0), w)
    else (Raise (Sql.operational "unable to open database file"), w).

(** The store a connection sees: its open transaction, else the file. *)
Definition visible (w : World) (db : Conn) : Store :=
  match c_txn db with
  | Some s => s
  | None => disk w (c_path db)
  end.

Definition sqlite_step (w : World) (q : string) (params : list pyval)
           (s : Store) (last : Z) : outcome (option Store * Z * Cursor) :=
  match Sql.decode q params with
  | Sql.Known st => Sql.run st (now w) s last
  | Sql.BadArity =>
      Raise (mk_exn ProgrammingError "Incorrect number of bindings supplied")
  | Sql.Unmodelled => foreign_sql w q params (now w) s last
  end.

(** [await db.execute(q, params)].  What an INSERT, UPDATE, DELETE or
    REPLACE writes stays in the connection's transaction until a commit;
    what another statement writes outside a transaction goes to the file
    at once. *)
Definition db_execute (db : Conn) (q : string) (params : list pyval)
  : M (Conn * Cursor) :=
  fun w =>
    match sqlite_step w q params (visible w db) (c_last_rowid db) with
    | Raise e => (Raise e, w)
    | Return (written, last, cur) =>
        match written with
        | None => (Return (mk_conn (c_path db) (c_txn db) last, cur), w)
        | Some s' =>
            match c_txn db with
            | Some _ => (Return (mk_conn (c_path db) (Some s') last, cur), w)
            | None =>
                if Sql.is_dml q
                then (Return (mk_conn (c_path db) (Some s') last, cur), w)
                else (Return (mk_conn (c_path db) None last, cur),
                      write_disk w (c_path db) s')
            end
        end
    end.

(** [await db.commit()] *)
Definition db_commit (db : Conn) : M Conn :=
  fun w =>
    match c_txn db with
    | Some s => (Return (mk_conn (c_path db) None (c_last_rowid db)),
                 write_disk w (c_path db) s)
    | None => (Return db, w)
    end.

(** [await cursor.close()] *)
Definition cursor_close (c : Cursor) : M unit := ret tt.

(** [async with aiosqlite.connect(path) as db: body].  Leaving the block,
    by a return or by an exception, closes the connection; a transaction
    that was not committed is dropped with it. *)
Definition async_with_connect {A} (path : string) (body : Conn -> M A) : M A :=
  db <- aiosqlite_connect path ;; body db.

(** ** The data access layer *)

Record DataAccessLayer := mk_dal {
  reports_db_path : string;
  prompts_db_path : string
}.

(** [DataAccessLayer.__init__] *)
Definition __init__ (reports_db_path prompts_db_path : string) : M DataAccessLayer :=
  logger_info "__init__"
    [("service_name", "DataAccessLayer"); ("status", "configured");
     ("reports_db", reports_db_path); ("prompts_db", prompts_db_path)] ;;
  ret (mk_dal reports_db_path prompts_db_path).

(** *** The query executor *)

(** [query.strip().upper().startswith("INSERT")] *)
Definition is_insert (query : string) : bool :=
  PyStr.startswith (PyStr.upper (PyStr.strip query)) "INSERT".

(** Lines 56-63: the directory of the store is created when it is named
    and missing; a failure is logged and raised again. *)
Definition provision_directory (db_path : string) : M unit :=
  let db_dir := OsPath.dirname db_path in
  if PyStr.is_empty db_dir then ret tt
  else
    present <- os_path_exists db_dir ;;
    if present then ret tt
    else
      try_except
        (os_makedirs db_dir ;;
         logger_info "_execute_query"
           [("db_path", db_path); ("action", "create_directory")])
        (fun e_mkdir =>
           logger_error "_execute_query" [("db_path", db_path)] (Some e_mkdir) true ;;
           raise e_mkdir).

(** Lines 66-86: the body of the [try]. *)
Definition run_query (db_path query : string) (params : list pyval)
           (fetch_one fetch_all commit : bool) : M pyresult :=
  async_with_connect db_path (fun db =>
    '(db, cursor) <- db_execute db query params ;;
    if commit then
      db <- db_commit db ;;
      if is_insert query then
        '(db, id_cursor) <- db_execute db "SELECT last_insert_rowid()" [] ;;
        let last_id_row := fetchone id_cursor in
        cursor_close id_cursor ;;
        ret (match last_id_row with
             | Some (v :: _) => Val v
             | _ => Val PyNone
             end)
      else ret (Val PyNone)
    else if fetch_one then
      let result := fetchone cursor in
      cursor_close cursor ;;
      ret (match result with Some r => Row r | None => Val PyNone end)
    else if fetch_all then
      let result := fetchall cursor in
      cursor_close cursor ;;
      ret (RowList result)
    else
      cursor_close cursor ;;
      ret (Val PyNone)).

(** Lines 87-94: the handler of the [try]. *)
Definition query_failed (db_path query : string) (e_query : exn) : M pyresult :=
  logger_error "_execute_query"
    [("db_path", db_path); ("query_snippet", PyStr.take 100 query)]
    (Some e_query) true ;;
  raise e_query.

Definition _execute_query (self : DataAccessLayer) (db_path query : string)
           (params : list pyval) (fetch_one fetch_all commit : bool) : M pyresult :=
  provision_directory db_path ;;
  try_except (run_query db_path query params fetch_one fetch_all commit)
             (query_failed db_path query).

(** *** The schema *)

Definition _create_reports_table (self : DataAccessLayer) : M unit :=
  let query := Sql.create_reports in
  _execute_query self (reports_db_path self) query [] false false true ;;
  logger_info "_create_reports_table"
    [("db_table", "reports"); ("db_path", reports_db_path self)].

Definition _create_prompts_table (self : DataAccessLayer) : M unit :=
  let query := Sql.create_prompts in
  _execute_query self (prompts_db_path self) query [] false false true ;;
  logger_info "_create_prompts_table"
    [("db_table", "prompt_templates"); ("db_path", prompts_db_path self)].

Definition initialize_databases (self : DataAccessLayer) : M unit :=
  _create_reports_table self ;;
  _create_prompts_table self ;;
  logger_info "initialize_databases"
    [("operation", "initialize_databases"); ("status", "completed")].

(** *** The report repository *)

(** Line 159: [json.dumps(metadata, ensure_ascii=False) if metadata else None];
    an absent map and an empty map are both false. *)
Definition metadata_text (metadata : option (pydict json)) : option string :=
  match metadata with
  | Some ((_ :: _) as m) => Some (Json.dumps (JObj m))
  | _ => None
  end.

Definition insert_report_data (self : DataAccessLayer) (original_filename : string)
           (content : option string) (source_path : string)
           (metadata : option (pydict json)) (status : string) : M pyresult :=
  let metadata_str := metadata_text metadata in
  let query := Sql.insert_report in
  let log_props := [("original_filename", original_filename);
                    ("source_path", source_path); ("status", status);
                    ("operation", "insert_report")] in
  try_except
    (last_row_id <- _execute_query self (reports_db_path self) query
                      [PyStr original_filename; Sql.of_text content;
                       PyStr source_path; Sql.of_text metadata_str; PyStr status]
                      false false true ;;
     logger_info "insert_report_data"
       (log_props ++ [("db_operation_status", "success")])%list ;;
     ret last_row_id)
    (fun e =>
       logger_error "insert_report_data"
         (log_props ++ [("db_operation_status", "failure")])%list (Some e) false ;;
       ret (Val PyNone)).

Definition get_report_by_id (self : DataAccessLayer) (report_id : Z)
  : M (option (pydict pyval)) :=
  let query := Sql.select_report in
  try_except
    (row <- async_with_connect (reports_db_path self) (fun db =>
              '(db, cursor) <- db_execute db query [PyInt report_id] ;;
              let row := fetchone_row cursor in
              cursor_close cursor ;;
              ret row) ;;
     match row with
     | Some ((_ :: _) as row) =>
         let report_data := dict_of_row row in
         ret (Some report_data)
     | _ => ret None
     end)
    (fun e =>
       logger_error "get_report_by_id" [("operation", "get_report_by_id")]
                    (Some e) true ;;
       ret None).

(** Lines 219-225: the statement and the values of [update_report_status]. *)
Definition status_fields (status : string) (processed_content : option string)
  : pydict pyval :=
  let fields_to_update := [("status", PyStr status)] in
  match processed_content with
  | Some c => Dict.set "content" (PyStr c) fields_to_update
  | None => fields_to_update
  end.

Definition status_query (status : string) (processed_content : option string) : string :=
  let query_set_parts :=
    map (fun field => field ++ " = ?")
        (Dict.keys (status_fields status processed_content)) in
  "UPDATE reports SET " ++ PyStr.join ", " query_set_parts
  ++ ", processed_at = CURRENT_TIMESTAMP WHERE id = ?".

Definition status_params (report_id : Z) (status : string)
           (processed_content : option string) : list pyval :=
  (Dict.values (status_fields status processed_content) ++ [PyInt report_id])%list.

Definition update_report_status (self : DataAccessLayer) (report_id : Z)
           (status : string) (processed_content : option string) : M bool :=
  let query_params := status_params report_id status processed_content in
  let query := status_query status processed_content in
  let log_props := [("new_status", status); ("operation", "update_report_status")] in
  try_except
    (_execute_query self (reports_db_path self) query query_params false false true ;;
     logger_info "update_report_status"
       (log_props ++ [("db_operation_status", "success")])%list ;;
     ret true)
    (fun e =>
       logger_error "update_report_status"
         (log_props ++ [("db_operation_status", "failure")])%list (Some e) false ;;
       ret false).

Definition update_report_analysis (self : DataAccessLayer) (report_id : Z)
           (analysis_data status : string) : M bool :=
  let query := Sql.update_analysis in
  let log_props := [("new_status", status); ("operation", "update_report_analysis")] in
  try_except
    (_execute_query self (reports_db_path self) query
       [PyStr analysis_data; PyStr status; PyInt report_id] false false true ;;
     logger_info "update_report_analysis"
       (log_props ++ [("db_operation_status", "success")])%list ;;
     ret true)
    (fun e =>
       logger_error "update_report_analysis"
         (log_props ++ [("db_operation_status", "failure")])%list (Some e) false ;;
       ret false).

(** [bool(v)] for a value read from a row. *)
Definition truthy (v : pyval) : bool :=
  match v with
  | PyNone => false
  | PyInt n => negb (n =? 0)
  | PyStr s => negb (PyStr.is_empty s)
  | PyTimestamp _ => true
  end.

(** [json.loads(v)] for a value read from a row: a text is decoded, a
    timestamp text is never a JSON document, an integer is not accepted. *)
Definition json_loads (v : pyval) : M json :=
  match v with
  | PyStr s =>
      match Json.loads s with
      | Return j => ret j
      | Raise e => raise e
      end
  | PyTimestamp _ => raise Json.decode_error
  | _ => raise (mk_exn TypeError "the JSON object must be str, bytes or bytearray")
  end.

(** [current_metadata.update(metadata_update)]: only a dict has the method. *)
Definition metadata_merge (current_metadata : json) (metadata_update : pydict json)
  : M json :=
  match current_metadata with
  | JObj d => ret (JObj (Dict.update d metadata_update))
  | _ => raise (mk_exn AttributeError "object has no attribute 'update'")
  end.

Definition update_report_metadata (self : DataAccessLayer) (report_id : Z)
           (metadata_update : pydict json) : M bool :=
  let log_props := [("operation", "update_report_metadata")] in
  current_report <- get_report_by_id self report_id ;;
  match current_report with
  | Some ((_ :: _) as current_report) =>
      try_except
        (let current_metadata_str :=
           match Dict.get "metadata" current_report with
           | Some v => v
           | None => PyNone
           end in
         current_metadata <-
           (if truthy current_metadata_str then json_loads current_metadata_str
            else ret (JObj [])) ;;
         current_metadata <- metadata_merge current_metadata metadata_update ;;
         let new_metadata_str := Json.dumps current_metadata in
         let query := Sql.update_metadata in
         _execute_query self (reports_db_path self) query
           [PyStr new_metadata_str; PyInt report_id] false false true ;;
         logger_info "update_report_metadata"
           (log_props ++ [("db_operation_status", "success")])%list ;;
         ret true)
        (fun e =>
           if is_JSONDecodeError e then
             logger_error "update_report_metadata"
               (log_props ++ [("error", "json_decode_error")])%list (Some e) true ;;
             ret false
           else
             logger_error "update_report_metadata"
               (log_props ++ [("db_operation_status", "failure")])%list (Some e) false ;;
             ret false)
  | _ =>
      logger_error "update_report_metadata"
        (log_props ++ [("error", "report_not_found")])%list None false ;;
      ret false
  end.

Definition check_report_exists_by_source_path (self : DataAccessLayer)
           (source_path : string) : M bool :=
  let query := Sql.exists_source in
  try_except
    (result <- _execute_query self (reports_db_path self) query
                 [PyStr source_path] true false false ;;
     ret (match result with Val PyNone => false | _ => true end))
    (fun e =>
       logger_error "check_report_exists_by_source_path"
         [("source_path", source_path); ("operation", "check_report_exists")]
         (Some e) true ;;
       ret false).

(** *** The prompt repository *)

Definition insert_prompt_template (self : DataAccessLayer) (name template_text : string)
           (category : option string) : M pyresult :=
  let query := Sql.insert_prompt in
  let log_props := [("prompt_name", name); ("operation", "insert_prompt_template")] in
  try_except
    (last_row_id <- _execute_query self (prompts_db_path self) query
                      [PyStr name; PyStr template_text; Sql.of_text category]
                      false false true ;;
     logger_info "insert_prompt_template"
       (log_props ++ [("db_operation_status", "success")])%list ;;
     ret last_row_id)
    (fun e =>
       logger_error "insert_prompt_template"
         (log_props ++ [("db_operation_status", "failure")])%list (Some e) false ;;
       ret (Val PyNone)).

Definition get_prompt_template_by_name (self : DataAccessLayer) (name : string)
  : M (option (pydict pyval)) :=
  let query := Sql.select_prompt in
  try_except
    (row <- async_with_connect (prompts_db_path self) (fun db =>
              '(db, cursor) <- db_execute db query [PyStr name] ;;
              let row := fetchone_row cursor in
              cursor_close cursor ;;
              ret row) ;;
     match row with
     | Some ((_ :: _) as row) => ret (Some (dict_of_row row))
     | _ => ret None
     end)
    (fun e =>
       logger_error "get_prompt_template_by_name"
         [("prompt_name", name); ("operation", "get_prompt_by_name")] (Some e) true ;;
       ret None).

Definition get_all_prompt_templates (self : DataAccessLayer) (limit offset : Z)
  : M (list (pydict pyval)) :=
  let query := Sql.list_prompts in
  try_except
    (rows <- async_with_connect (prompts_db_path self) (fun db =>
               '(db, cursor) <- db_execute db query [PyInt limit; PyInt offset] ;;
               let rows := fetchall_rows cursor in
               cursor_close cursor ;;
               ret rows) ;;
     match rows with
     | _ :: _ => ret (map dict_of_row rows)
     | [] => ret []
     end)
    (fun e =>
       logger_error "get_all_prompt_templates" [("operation", "get_all_prompts")]
                    (Some e) true ;;
       ret []).

(** ** Vocabulary of the statements below *)

(** The store file at [path] can be opened as things are: the directory
    that holds it exists (or the path names none) and the path is not
    itself a directory. *)
Definition connectable (w : World) (path : string) : bool :=
  (PyStr.is_empty (OsPath.dirname path) || mem (OsPath.dirname path) (dirs w))
  && negb (mem path (dirs w)).

(** The record the executor logs for a failed query. *)
Definition query_error_record (db_path query : string) (e : exn) : LogRecord :=
  mk_log ERROR "_execute_query"
         [("db_path", db_path); ("query_snippet", PyStr.take 100 query)]
         (Some e) true.

Definition logged (w : World) (r : LogRecord) : World := with_log w (log w ++ [r]).

(** [r] is an error record of the method [origin] that reports [e]. *)
Definition failure_record (r : LogRecord) (origin : string) (e : exn) : Prop :=
  lg_level r = ERROR /\ lg_origin r = origin /\ lg_exc r = Some e.

(** The mapping [get_report_by_id] returns for a row. *)
Definition report_dict (r : report) : pydict pyval :=
  [("id", PyInt (r_id r));
   ("original_filename", PyStr (r_original_filename r));
   ("content", Sql.of_text (r_content r));
   ("source_path", Sql.of_text (r_source_path r));
   ("processed_at", PyTimestamp (r_processed_at r));
   ("status", Sql.of_text (r_status r));
   ("metadata", Sql.of_text (r_metadata r));
   ("analysis_json", Sql.of_text (r_analysis_json r))].

(** The mapping [get_all_prompt_templates] returns for a row. *)
Definition listing_dict (p : prompt_template) : pydict pyval :=
  [("id", PyInt (p_id p)); ("name", PyStr (p_name p));
   ("category", Sql.of_text (p_category p));
   ("updated_at", PyTimestamp (p_updated_at p))].

(** The row a [WHERE id = ?] read returns: the first with that key. *)
Definition find_report (id : Z) (tb : table report) : option report :=
  find (fun r => r_id r =? id) (rows tb).

(** The success record of a write method. *)
Definition success_record (origin : string) (props : pydict string) : LogRecord :=
  mk_log INFO origin (props ++ [("db_operation_status", "success")])%list None false.

(** What [update_report_metadata] makes of the stored metadata column:
    NULL and the empty text stand for the empty map, any other text is
    decoded. *)
Definition stored_metadata (m : option string) : outcome json :=
  match m with
  | None => Return (JObj [])
  | Some s => if PyStr.is_empty s then Return (JObj []) else Json.loads s
  end.

(** "Most recently updated first". *)
Definition newer_first (p q : prompt_template) : Prop :=
  p_updated_at q <= p_updated_at p.

(** The order of two timestamps read from rows. *)
Definition timestamp_lt (a b : pyval) : Prop :=
  match a, b with
  | PyTimestamp x, PyTimestamp y => x < y
  | _, _ => False
  end.

(** ** A small installation, for the worked examples *)

Module Scenario.

Definition dal : DataAccessLayer :=
  mk_dal "data/reports.sqlite" "data/prompts.sqlite".

(** Nothing on disk yet, the clock at second 100; directories can be
    created, and SQLite knows no statement but the module's own. *)
Definition blank : World :=
  mk_world [] [] 100 [] (fun _ => None)
           (fun _ _ _ _ _ => Raise (Sql.operational "syntax error")).

(** The same, where no directory can be created. *)
Definition locked : World :=
  mk_world [] [] 100 [] (fun _ => Some "Permission denied")
           (fun _ _ _ _ _ => Raise (Sql.operational "syntax error")).

(** After [initialize_databases]. *)
Definition fresh : World := world_of (initialize_databases dal blank).

(** After one report went in, still within second 100. *)
Definition stocked : World :=
  world_of (insert_report_data dal "a.docx" (Some "text") "/in/a.docx" None "new" fresh).

(** After a report with metadata went into the fresh installation;
    [tagged_report] is its row. *)
Definition tagged : World :=
  world_of (insert_report_data dal "b.pdf" None "/in/b.pdf"
              (Some [("a", JInt 1); ("b", JInt 2)]) "new" fresh).
Definition tagged_report : report :=
  mk_report 1 "b.pdf" None (Some "/in/b.pdf") 100 (Some "new")
            (Some (Json.dumps (JObj [("a", JInt 1); ("b", JInt 2)]))) None.

(** Five prompt templates, inserted while the clock runs from second 101
    to second 105 (two of them within second 103). *)
Definition add_prompt (name : string) (t : Z) (w : World) : World :=
  world_of (insert_prompt_template dal name "text" None (with_now w t)).
Definition five : World :=
  add_prompt "p5" 105 (add_prompt "p4" 103 (add_prompt "p3" 103
    (add_prompt "p2" 102 (add_prompt "p1" 101 fresh)))).
Definition five_prompts : table prompt_template :=
  mk_table [mk_prompt 1 "p1" "text" None 101 101;
            mk_prompt 2 "p2" "text" None 102 102;
            mk_prompt 3 "p3" "text" None 103 103;
            mk_prompt 4 "p4" "text" None 103 103;
            mk_prompt 5 "p5" "text" None 105 105] 5.

(** The table of reports of [stocked]. *)
Definition first_report : report :=
  mk_report 1 "a.docx" (Some "text") (Some "/in/a.docx") 100 (Some "new") None None.
Definition stocked_reports : table report := mk_table [first_report] 1.

End Scenario.

(** ** Vocabulary of the further properties *)

(** The row a [WHERE name = ?] read returns: the first with that name. *)
Definition find_prompt (name : string) (tb : table prompt_template)
  : option prompt_template :=
  find (fun p => String.eqb (p_name p) name) (rows tb).

(** The mapping [get_prompt_template_by_name] returns for a row. *)
Definition prompt_dict (p : prompt_template) : pydict pyval :=
  [("id", PyInt (p_id p)); ("name", PyStr (p_name p));
   ("template_text", PyStr (p_template_text p));
   ("category", Sql.of_text (p_category p));
   ("created_at", PyTimestamp (p_created_at p));
   ("updated_at", PyTimestamp (p_updated_at p))].

(** The table a [CREATE TABLE IF NOT EXISTS] leaves: the one that was
    there, else an empty one. *)
Definition ensured {A} (t : option (table A)) : table A :=
  match t with
  | Some tb => tb
  | None => mk_table [] 0
  end.

(** A step from [w] to [w'] that leaves alone everything but the log,
    the store files at [paths] and directories it may have added: the
    clock and the environment are the same, every directory is still
    there, and every other file is what it was (or still missing). *)
Definition touches_only (paths : list string) (w w' : World) : Prop :=
  now w' = now w /\
  mkdir_denied w' = mkdir_denied w /\
  foreign_sql w' = foreign_sql w /\
  (forall d, mem d (dirs w) = true -> mem d (dirs w') = true) /\
  (forall p, ~ In p paths -> Dict.get p (files w') = Dict.get p (files w)).

(** A computation all of whose runs are such steps. *)
Definition frames {A} (paths : list string) (m : M A) : Prop :=
  forall w, touches_only paths w (world_of (m w)).

(** A statement that never writes: it fails or returns rows only. *)
Definition reads_only (st : Sql.stmt) : Prop :=
  forall t s last,
    match Sql.run st t s last with
    | Return (Some _, _, _) => False
    | _ => True
    end.

(** A change of a row that keeps its key, its file name and its source
    path. *)
Definition keeps_identity (f : report -> report) : Prop :=
  forall r,
    r_id (f r) = r_id r /\
    r_original_filename (f r) = r_original_filename r /\
    r_source_path (f r) = r_source_path r.

(** Where the three updates leave a store that could be opened: it can
    still be opened, and its table is the old one with a change of the
    rows of that key that keeps their identity. *)
Definition updated_by (self : DataAccessLayer) (id : Z) (tb : table report)
           (w w' : World) : Prop :=
  exists f, keeps_identity f /\
            connectable w' (reports_db_path self) = true /\
            reports (disk w' (reports_db_path self)) =
              Some (Sql.update_where_id id f tb).

(** ** Documents that survive the codec *)

Module Codec.

(** No string twice. *)
Fixpoint distinct (l : list string) : bool :=
  match l with
  | [] => true
  | k :: r => negb (mem k r) && distinct r
  end.

(** A document without floats, in which no integer has more than 4300
    digits (the most that Python converts between [int] and [str], as the
    codec must) and no map has a key twice (as in every [dict]). *)
Fixpoint plain (j : json) : bool :=
  match j with
  | JNull | JBool _ | JStr _ => true
  | JInt n => Nat.leb (String.length (Json.int_repr (Z.abs n))) 4300
  | JFloat _ => false
  | JArr xs =>
      (fix all (l : list json) : bool :=
         match l with
         | [] => true
         | x :: r => plain x && all r
         end) xs
  | JObj ms =>
      distinct (Dict.keys ms) &&
      (fix all (l : pydict json) : bool :=
         match l with
         | [] => true
         | (_, v) :: r => plain v && all r
         end) ms
  end.

(** The number of values in a document, each element and member counted
    once more: a bound on the calls of the decoder. *)
Fixpoint size (j : json) : nat :=
  match j with
  | JArr xs =>
      S ((fix items (l : list json) : nat :=
            match l with
            | [] => O
            | x :: r => (S (size x) + items r)%nat
            end) xs)
  | JObj ms =>
      S ((fix members (l : pydict json) : nat :=
            match l with
            | [] => O
            | (_, v) :: r => (S (size v) + members r)%nat
            end) ms)
  | _ => 1%nat
  end.

Definition items_size (xs : list json) : nat :=
  fold_right (fun x n => (S (size x) + n)%nat) O xs.

Definition members_size (ms : pydict json) : nat :=
  fold_right (fun kv n => (S (size (snd kv)) + n)%nat) O ms.

Definition member_text (kv : string * json) : string :=
  Json.quote (fst kv) ++ ": " ++ Json.dumps (snd kv).

(** What may follow a value in a text: nothing, a comma or a closing
    bracket. *)
Definition ends_token (rest : string) : bool :=
  match rest with
  | EmptyString => true
  | String c _ => (Ascii.eqb c "," || Ascii.eqb c "]" || Ascii.eqb c "}")%char
  end.

(** One more decimal digit. *)
Definition digit_next (acc : Z) (c : ascii) : Z :=
  10 * acc + Z.of_nat (nat_of_ascii c - 48).

(** The text does not go on with a digit. *)
Definition no_digit (rest : string) : bool :=
  match rest with
  | EmptyString => true
  | String c _ => negb (Json.is_digit c)
  end.

End Codec.

(** ** Clients of the layer *)

Module Client.

(** One step of a client: a call of one method with its arguments, whose
    result the client takes as it comes (a value or an exception), or the
    clock moving on to [t] between two calls. *)
Inductive call :=
| Initialize
| InsertReport (original_filename : string) (content : option string)
               (source_path : string) (metadata : option (pydict json))
               (status : string)
| GetReport (report_id : Z)
| UpdateStatus (report_id : Z) (status : string) (processed_content : option string)
| UpdateAnalysis (report_id : Z) (analysis_data status : string)
| UpdateMetadata (report_id : Z) (metadata_update : pydict json)
| CheckExists (source_path : string)
| InsertPrompt (name template_text : string) (category : option string)
| GetPrompt (name : string)
| ListPrompts (limit offset : Z)
| Wait (t : Z).

Definition perform (self : DataAccessLayer) (c : call) (w : World) : World :=
  match c with
  | Initialize => world_of (initialize_databases self w)
  | InsertReport fn ct sp md st => world_of (insert_report_data self fn ct sp md st w)
  | GetReport id => world_of (get_report_by_id self id w)
  | UpdateStatus id st pc => world_of (update_report_status self id st pc w)
  | UpdateAnalysis id an st => world_of (update_report_analysis self id an st w)
  | UpdateMetadata id upd => world_of (update_report_metadata self id upd w)
  | CheckExists sp => world_of (check_report_exists_by_source_path self sp w)
  | InsertPrompt nm tx cat => world_of (insert_prompt_template self nm tx cat w)
  | GetPrompt nm => world_of (get_prompt_template_by_name self nm w)
  | ListPrompts limit offset => world_of (get_all_prompt_templates self limit offset w)
  | Wait t => with_now w t
  end.

(** A session: the calls of a client, one after the other. *)
Definition session (self : DataAccessLayer) (calls : list call) (w : World) : World :=
  fold_left (fun w c => perform self c w) calls w.

End Client.

(** [tb'] has every row of [tb], in the same order and with the same key,
    file name and source path, and possibly more rows after them. *)
Definition reports_kept (tb tb' : table report) : Prop :=
  exists f new, keeps_identity f /\ rows tb' = (map f (rows tb) ++ new)%list.

(** [tb'] starts with the rows of [tb], unchanged. *)
Definition prompts_kept (tb tb' : table prompt_template) : Prop :=
  exists new, rows tb' = (rows tb ++ new)%list.

Definition store_kept (s s' : Store) : Prop :=
  (forall tb, reports s = Some tb ->
     exists tb', reports s' = Some tb' /\ reports_kept tb tb') /\
  (forall tb, prompt_templates s = Some tb ->
     exists tb', prompt_templates s' = Some tb' /\ prompts_kept tb tb').

(** Keys are positive and no two rows share one; no two prompt templates
    share a name. *)
Definition well_keyed (s : Store) : Prop :=
  (forall tb, reports s = Some tb ->
     NoDup (map r_id (rows tb)) /\ Forall (fun r => 0 < r_id r) (rows tb)) /\
  (forall tb, prompt_templates s = Some tb ->
     NoDup (map p_id (rows tb)) /\ Forall (fun p => 0 < p_id p) (rows tb) /\
     NoDup (map p_name (rows tb))).

(** The files of [w'] are those of [w], or those of [w] after one
    statement of the module, one that [P] holds of, has written to one
    store. *)
Definition one_write (P : Sql.stmt -> Prop) (w w' : World) : Prop :=
  files w' = files w \/
  exists path st t s' last cur,
    P st /\
    Sql.run st t (disk w path) 0 = Return (Some s', last, cur) /\
    files w' = Dict.set path s' (files w).

(** [R] relates every store of [w] to what it is in [w']. *)
Definition carried (R : Store -> Store -> Prop) (w w' : World) : Prop :=
  forall p, R (disk w p) (disk w' p).

(** What the layer writes into the metadata column: NULL, or the text of
    a plain map. *)
Definition written_metadata (md : option string) : Prop :=
  md = None \/
  exists m, Codec.plain (JObj m) = true /\ md = Some (Json.dumps (JObj m)).

(** Every report of the store has such a metadata column. *)
Definition decodable (s : Store) : Prop :=
  forall tb r, reports s = Some tb -> In r (rows tb) -> written_metadata (r_metadata r).

(** The statements that put such a text into the column, and those that
    leave the column alone. *)
Definition writes_decodable (st : Sql.stmt) : Prop :=
  match st with
  | Sql.InsertReport _ _ _ md _ => written_metadata md
  | Sql.UpdateMetadata md _ => written_metadata md
  | _ => True
  end.

(** A call whose metadata argument, if it has one, is a plain map. *)
Definition plain_call (c : Client.call) : bool :=
  match c with
  | Client.InsertReport _ _ _ (Some m) _ => Codec.plain (JObj m)
  | Client.UpdateMetadata _ upd => Codec.plain (JObj upd)
  | _ => true
  end.

(** * Properties *)

Local Open Scope list_scope.

(** ** The monad *)

Section MonadFacts.
Context {A B : Type}.

Lemma bind_return (m : M A) (k : A -> M B) w a w' :
  m w = (Return a, w') -> bind m k w = k a w'.
Proof. unfold bind; intros ->; reflexivity. Qed.

Lemma bind_raise (m : M A) (k : A -> M B) w e w' :
  m w = (Raise e, w') -> bind m k w = (Raise e, w').
Proof. unfold bind; intros ->; reflexivity. Qed.

Lemma try_return (m : M A) (h : exn -> M A) w a w' :
  m w = (Return a, w') -> try_except m h w = (Return a, w').
Proof. unfold try_except; intros ->; reflexivity. Qed.

Lemma try_raise (m : M A) (h : exn -> M A) w e w' :
  m w = (Raise e, w') -> try_except m h w = h e w'.
Proof. unfold try_except; intros ->; reflexivity. Qed.
End MonadFacts.

(** A handler that logs and returns a value turns every outcome of the
    body into a return. *)
Lemma try_total {A} (m : M A) (h : exn -> M A) w :
  (forall e w', exists a, result_of (h e w') = Return a) ->
  exists a, result_of (try_except m h w) = Return a.
Proof.
  intros Hh. unfold try_except.
  destruct (m w) as [[a | e] w'].
  - exists a; reflexivity.
  - apply Hh.
Qed.

(** ** Dictionaries *)

Section DictFacts.
Context {V : Type}.

Lemma get_set_same (k : string) (v : V) d : Dict.get k (Dict.set k v d) = Some v.
Proof.
  induction d as [| [k' v'] d IH]; simpl.
  - now rewrite String.eqb_refl.
  - destruct (String.eqb k k') eqn:E; simpl; rewrite E; auto.
Qed.

Lemma get_set_other (k k' : string) (v : V) d :
  k <> k' -> Dict.get k (Dict.set k' v d) = Dict.get k d.
Proof.
  intros Hne. apply String.eqb_neq in Hne.
  induction d as [| [k2 v2] d IH]; simpl.
  - now rewrite Hne.
  - destruct (String.eqb k' k2) eqn:E; simpl.
    + apply String.eqb_eq in E; subst k2. now rewrite Hne.
    + destruct (String.eqb k k2); auto.
Qed.

(** [d.update(other)]: a key of [other] takes its (last) value there,
    every other key keeps the value it had. *)
Lemma get_update (k : string) (other d : pydict V) :
  Dict.get k (Dict.update d other) =
  match Dict.get k (List.rev other) with
  | Some v => Some v
  | None => Dict.get k d
  end.
Proof.
  unfold Dict.update. revert d.
  induction other as [| [k' v'] other IH]; intros d; simpl.
  - reflexivity.
  - rewrite IH.
    assert (Hrev : Dict.get k (List.rev other ++ [(k', v')]) =
                   match Dict.get k (List.rev other) with
                   | Some v => Some v
                   | None => if String.eqb k k' then Some v' else None
                   end).
    { generalize (List.rev other) as l.
      induction l as [| [a b] l IHl]; simpl; auto.
      destruct (String.eqb k a); auto. }
    rewrite Hrev.
    destruct (Dict.get k (List.rev other)); auto.
    destruct (String.eqb k k') eqn:E.
    + apply String.eqb_eq in E; subst. apply get_set_same.
    + apply get_set_other. now apply String.eqb_neq.
Qed.

Lemma keys_set (k : string) (v : V) d :
  Dict.keys (Dict.set k v d) =
  if mem k (Dict.keys d) then Dict.keys d else (Dict.keys d ++ [k])%list.
Proof.
  unfold mem, Dict.keys.
  induction d as [| [k' v'] d IH]; simpl; auto.
  destruct (String.eqb k k') eqn:E; simpl; auto.
  rewrite IH. destruct (existsb (String.eqb k) (map fst d)); reflexivity.
Qed.
End DictFacts.

(** ** Files *)

Lemma disk_write w path s : disk (write_disk w path s) path = s.
Proof. unfold disk, write_disk; simpl. now rewrite get_set_same. Qed.

Lemma disk_write_other w path path' s :
  path' <> path -> disk (write_disk w path s) path' = disk w path'.
Proof. intros H. unfold disk, write_disk; simpl. now rewrite get_set_other. Qed.

Lemma disk_with_log w l path : disk (with_log w l) path = disk w path.
Proof. reflexivity. Qed.

(** ** The primitives *)

Lemma connect_world path w r w' : aiosqlite_connect path w = (r, w') -> w' = w.
Proof.
  unfold aiosqlite_connect.
  destruct ((PyStr.is_empty _ || _) && _); intros H; inversion H; reflexivity.
Qed.

Lemma connect_fresh path w db w' :
  aiosqlite_connect path w = (Return db, w') -> db = mk_conn path None 0.
Proof.
  unfold aiosqlite_connect.
  destruct ((PyStr.is_empty _ || _) && _); intros H; inversion H; reflexivity.
Qed.

Lemma decode_last_insert_rowid :
  Sql.decode "SELECT last_insert_rowid()" [] = Sql.Known Sql.LastInsertRowid.
Proof. reflexivity. Qed.

(** Asking a connection without a transaction for its last rowid. *)
Lemma execute_last_insert_rowid path last w :
  db_execute (mk_conn path None last) "SELECT last_insert_rowid()" [] w =
  (Return (mk_conn path None last,
           mk_cursor ["last_insert_rowid()"] [[PyInt last]]), w).
Proof.
  unfold db_execute, sqlite_step. rewrite decode_last_insert_rowid. reflexivity.
Qed.

Lemma commit_conn db w :
  result_of (db_commit db w) = Return (mk_conn (c_path db) None (c_last_rowid db)).
Proof. unfold db_commit. destruct db as [p [s |] l]; reflexivity. Qed.

(** After a commit the file holds what the connection saw. *)
Lemma commit_disk db w :
  disk (world_of (db_commit db w)) (c_path db) = visible w db.
Proof.
  unfold db_commit, visible. destruct (c_txn db); simpl; auto.
  apply disk_write.
Qed.

Lemma execute_path db q params w db' cur w' :
  db_execute db q params w = (Return (db', cur), w') -> c_path db' = c_path db.
Proof.
  unfold db_execute.
  destruct (sqlite_step _ _ _ _ _) as [[[[s' |] last] c] | e]; try discriminate.
  - destruct (c_txn db); [| destruct (Sql.is_dml q)];
      intros H; inversion H; reflexivity.
  - intros H; inversion H; reflexivity.
Qed.

(** What [run_query] does once the connection is open and the statement
    has run. *)
Lemma run_query_after_execute db_path query params fetch_one fetch_all commit
      w db db' cursor w2 :
  aiosqlite_connect db_path w = (Return db, w) ->
  db_execute db query params w = (Return (db', cursor), w2) ->
  run_query db_path query params fetch_one fetch_all commit w =
  if commit then
    (Return (if is_insert query then Val (PyInt (c_last_rowid db')) else Val PyNone),
     world_of (db_commit db' w2))
  else if fetch_one then
    (Return (match fetchone cursor with Some r => Row r | None => Val PyNone end), w2)
  else if fetch_all then (Return (RowList (fetchall cursor)), w2)
  else (Return (Val PyNone), w2).
Proof.
  intros Hc He. unfold run_query, async_with_connect.
  rewrite (bind_return _ _ _ _ _ Hc).
  rewrite (bind_return _ _ _ _ _ He).
  destruct commit.
  - pose proof (commit_conn db' w2) as Hcm.
    destruct (db_commit db' w2) as [r w3] eqn:Ecm. simpl in Hcm. subst r.
    rewrite (bind_return _ _ _ _ _ Ecm).
    destruct (is_insert query); [| reflexivity].
    rewrite (bind_return _ _ _ _ _ (execute_last_insert_rowid _ _ _)).
    reflexivity.
  - destruct fetch_one; [reflexivity |].
    destruct fetch_all; reflexivity.
Qed.

Lemma prefix_cons a p b s :
  String.prefix (String a p) (String b s) = true ->
  a = b /\ String.prefix p s = true.
Proof.
  change (String.prefix (String a p) (String b s))
    with (if ascii_dec a b then String.prefix p s else false).
  destruct (ascii_dec a b); [auto | discriminate].
Qed.

(** A statement whose text starts with INSERT passes the executor's test. *)
Lemma insert_prefix_is_insert q :
  String.prefix "INSERT" q = true -> is_insert q = true.
Proof.
  intros H.
  do 6 (destruct q as [| ?c q]; [discriminate H |];
        apply prefix_cons in H; destruct H as [<- H]).
  unfold is_insert, PyStr.startswith, PyStr.strip.
  change (String.prefix EmptyString (PyStr.upper (PyStr.rstrip q)) = true).
  now destruct (PyStr.upper (PyStr.rstrip q)).
Qed.



(** ** Directory provisioning *)

Lemma mem_true_iff s l : mem s l = true <-> In s l.
Proof.
  unfold mem. rewrite existsb_exists. split.
  - intros [x [Hin Heq]]. apply String.eqb_eq in Heq. now subst.
  - intros Hin. exists s. split; [assumption | apply String.eqb_refl].
Qed.

Lemma mem_app s l1 l2 : mem s (l1 ++ l2) = mem s l1 || mem s l2.
Proof. apply existsb_app. Qed.

Lemma chain_head d : PyStr.is_empty d = false -> In d (OsPath.chain d).
Proof. unfold OsPath.chain; simpl. intros ->. now left. Qed.

(** After [os.makedirs] every directory of the chain is there. *)
Lemma makedirs_creates d w :
  mkdir_denied w d = None ->
  exists w1,
    os_makedirs d w = (Return tt, w1) /\
    (forall a, In a (OsPath.chain d) -> mem a (dirs w1) = true) /\
    (forall a, mem a (dirs w) = true -> mem a (dirs w1) = true) /\
    files w1 = files w /\ log w1 = log w /\ now w1 = now w.
Proof.
  intros Hok. unfold os_makedirs. rewrite Hok.
  eexists; split; [reflexivity |]. simpl.
  split; [| split; [| auto]].
  - intros a Ha. rewrite mem_app.
    destruct (mem a (dirs w)) eqn:E; [apply orb_true_r |].
    rewrite orb_false_r. apply mem_true_iff, filter_In.
    split; [assumption | now rewrite E].
  - intros a Ha. rewrite mem_app, Ha. apply orb_true_r.
Qed.

(** Lines 57-63 for a directory that is named and missing. *)
Lemma provision_missing db_path w :
  PyStr.is_empty (OsPath.dirname db_path) = false ->
  os_path_exists (OsPath.dirname db_path) w = (Return false, w) ->
  provision_directory db_path w =
  try_except
    (os_makedirs (OsPath.dirname db_path) ;;
     logger_info "_execute_query"
       [("db_path", db_path); ("action", "create_directory")])
    (fun e_mkdir =>
       logger_error "_execute_query" [("db_path", db_path)] (Some e_mkdir) true ;;
       raise e_mkdir) w.
Proof.
  intros Hname Hmissing. unfold provision_directory. rewrite Hname.
  now rewrite (bind_return _ _ _ _ _ Hmissing).
Qed.

Lemma provision_denied db_path w msg :
  PyStr.is_empty (OsPath.dirname db_path) = false ->
  os_path_exists (OsPath.dirname db_path) w = (Return false, w) ->
  mkdir_denied w (OsPath.dirname db_path) = Some msg ->
  provision_directory db_path w =
  (Raise (mk_exn OSError msg),
   logged w (mk_log ERROR "_execute_query" [("db_path", db_path)]
                    (Some (mk_exn OSError msg)) true)).
Proof.
  intros Hname Hmissing Hdenied.
  rewrite (provision_missing _ _ Hname Hmissing).
  unfold try_except, bind, os_makedirs. rewrite Hdenied. reflexivity.
Qed.

(** C3.  When the store path names a directory that does not exist, the
    executor creates it, with the directories above it, before it opens
    the store: the query runs in a world that has them.  When the creation
    fails, the executor raises that very error at once: no file and no
    directory has changed, and only the failure was logged. *)
Theorem directory_provisioned_first self db_path query params
        fetch_one fetch_all commit w :
  let db_dir := OsPath.dirname db_path in
  let call := _execute_query self db_path query params fetch_one fetch_all commit w in
  PyStr.is_empty db_dir = false ->
  os_path_exists db_dir w = (Return false, w) ->
  (forall msg, mkdir_denied w db_dir = Some msg ->
     call = (Raise (mk_exn OSError msg),
             with_log w (log w ++ [mk_log ERROR "_execute_query" [("db_path", db_path)]
                                          (Some (mk_exn OSError msg)) true]))) /\
  (mkdir_denied w db_dir = None ->
     exists w1,
       (forall a, In a (OsPath.chain db_dir) -> mem a (dirs w1) = true) /\
       mem db_dir (dirs w1) = true /\
       files w1 = files w /\
       log w1 = log w ++ [mk_log INFO "_execute_query"
                                 [("db_path", db_path); ("action", "create_directory")]
                                 None false] /\
       call = try_except (run_query db_path query params fetch_one fetch_all commit)
                         (query_failed db_path query) w1).
Proof.
  intros db_dir call Hname Hmissing.
  pose proof (provision_missing db_path w Hname Hmissing) as Hprov.
  fold db_dir in Hprov.
  split.
  - intros msg Hdenied.
    unfold call, _execute_query.
    erewrite bind_raise; [reflexivity |].
    now apply provision_denied.
  - intros Hok.
    destruct (makedirs_creates db_dir w Hok)
      as [w1 [Hmk [Hchain [_ [Hfiles [Hlog _]]]]]].
    exists (with_log w1 (log w1 ++ [mk_log INFO "_execute_query"
                                  [("db_path", db_path); ("action", "create_directory")]
                                  None false])).
    split; [exact Hchain |].
    split; [apply Hchain, chain_head, Hname |].
    split; [exact Hfiles |].
    split; [simpl; now rewrite Hlog |].
    unfold call, _execute_query.
    erewrite bind_return; [reflexivity |].
    rewrite Hprov.
    unfold try_except, bind. rewrite Hmk. reflexivity.
Qed.

(** In an empty world the first query creates [data]; where directories
    cannot be created it raises the operating system's error. *)
Lemma directory_provisioned_first_witness :
  (exists w1,
     mem "data" (dirs w1) = true /\
     _execute_query Scenario.dal "data/reports.sqlite" Sql.create_reports []
                    false false true Scenario.blank =
     try_except (run_query "data/reports.sqlite" Sql.create_reports [] false false true)
                (query_failed "data/reports.sqlite" Sql.create_reports) w1) /\
  result_of (_execute_query Scenario.dal "data/reports.sqlite" Sql.create_reports []
                            false false true Scenario.locked)
  = Raise (mk_exn OSError "Permission denied").
Proof.
  split.
  - destruct (directory_provisioned_first Scenario.dal "data/reports.sqlite"
                Sql.create_reports [] false false true Scenario.blank
                eq_refl eq_refl) as [_ H].
    destruct (H eq_refl) as [w1 [_ [Hd [_ [_ Hcall]]]]].
    exists w1. split; [exact Hd | exact Hcall].
  - destruct (directory_provisioned_first Scenario.dal "data/reports.sqlite"
                Sql.create_reports [] false false true Scenario.locked
                eq_refl eq_refl) as [H _].
    now rewrite (H "Permission denied" eq_refl).
Defined.

(** ** The executor on a store that can be opened *)

Lemma provision_connectable w path :
  connectable w path = true -> provision_directory path w = (Return tt, w).
Proof.
  unfold connectable, provision_directory. intros H.
  apply andb_true_iff in H as [H _].
  destruct (PyStr.is_empty (OsPath.dirname path)); [reflexivity |].
  simpl in H. unfold bind, os_path_exists. now rewrite H.
Qed.

Lemma connect_connectable w path :
  connectable w path = true ->
  aiosqlite_connect path w = (Return (mk_conn path None 0), w).
Proof. unfold connectable, aiosqlite_connect. now intros ->. Qed.

Lemma connect_refused w path :
  connectable w path = false ->
  aiosqlite_connect path w =
  (Raise (Sql.operational "unable to open database file"), w).
Proof. unfold connectable, aiosqlite_connect. now intros ->. Qed.

Lemma query_failed_eq db_path query e w :
  query_failed db_path query e w =
  (Raise e, logged w (query_error_record db_path query e)).
Proof. reflexivity. Qed.

(** A modelled statement that writes, with [commit]: the file gets what
    the statement wrote, whether SQLite held it in a transaction or not. *)
Lemma executor_writes self path q params st w s' last cur fo fa :
  connectable w path = true ->
  Sql.decode q params = Sql.Known st ->
  Sql.run st (now w) (disk w path) 0 = Return (Some s', last, cur) ->
  _execute_query self path q params fo fa true w =
  (Return (if is_insert q then Val (PyInt last) else Val PyNone),
   write_disk w path s').
Proof.
  intros Hc Hd Hr.
  unfold _execute_query.
  rewrite (bind_return _ _ _ _ _ (provision_connectable _ _ Hc)).
  unfold try_except.
  destruct (Sql.is_dml q) eqn:Edml.
  - rewrite (run_query_after_execute path q params fo fa true w
               (mk_conn path None 0) (mk_conn path (Some s') last) cur w
               (connect_connectable _ _ Hc)).
    + reflexivity.
    + unfold db_execute, sqlite_step, visible; simpl. now rewrite Hd, Hr, Edml.
  - rewrite (run_query_after_execute path q params fo fa true w
               (mk_conn path None 0) (mk_conn path None last) cur
               (write_disk w path s')
               (connect_connectable _ _ Hc)).
    + reflexivity.
    + unfold db_execute, sqlite_step, visible; simpl. now rewrite Hd, Hr, Edml.
Qed.

(** A modelled statement that only reads. *)
Lemma executor_reads self path q params st w last cur fo fa :
  connectable w path = true ->
  Sql.decode q params = Sql.Known st ->
  Sql.run st (now w) (disk w path) 0 = Return (None, last, cur) ->
  _execute_query self path q params fo fa false w =
  (Return (if fo then match fetchone cur with Some r => Row r | None => Val PyNone end
           else if fa then RowList (fetchall cur) else Val PyNone), w).
Proof.
  intros Hc Hd Hr.
  unfold _execute_query.
  rewrite (bind_return _ _ _ _ _ (provision_connectable _ _ Hc)).
  unfold try_except.
  rewrite (run_query_after_execute path q params fo fa false w
             (mk_conn path None 0) (mk_conn path None last) cur w
             (connect_connectable _ _ Hc)).
  - destruct fo; [reflexivity |]. destruct fa; reflexivity.
  - unfold db_execute, sqlite_step, visible; simpl. now rewrite Hd, Hr.
Qed.

(** A modelled statement that SQLite refuses. *)
Lemma executor_refused self path q params st w e fo fa c :
  connectable w path = true ->
  Sql.decode q params = Sql.Known st ->
  Sql.run st (now w) (disk w path) 0 = Raise e ->
  _execute_query self path q params fo fa c w =
  (Raise e, logged w (query_error_record path q e)).
Proof.
  intros Hc Hd Hr.
  unfold _execute_query.
  rewrite (bind_return _ _ _ _ _ (provision_connectable _ _ Hc)).
  unfold try_except, run_query, async_with_connect.
  rewrite (bind_return _ _ _ _ _ (connect_connectable _ _ Hc)).
  erewrite bind_raise; [apply query_failed_eq |].
  unfold db_execute, sqlite_step, visible; simpl. now rewrite Hd, Hr.
Qed.

(** The general rule of lines 87-94: whatever the body of the [try]
    raises is logged and raised again. *)
Lemma executor_reraises self path q params fo fa c w w1 e w2 :
  provision_directory path w = (Return tt, w1) ->
  run_query path q params fo fa c w1 = (Raise e, w2) ->
  _execute_query self path q params fo fa c w =
  (Raise e, logged w2 (query_error_record path q e)).
Proof.
  intros Hp Hr. unfold _execute_query.
  rewrite (bind_return _ _ _ _ _ Hp).
  rewrite (try_raise _ _ _ _ _ Hr). apply query_failed_eq.
Qed.

(** ** Errors: raised by the executor, returned by the repositories *)

Lemma bind_total {A B} (m : M A) (k : A -> M B) w :
  (exists a, result_of (m w) = Return a) ->
  (forall a w', exists b, result_of (k a w') = Return b) ->
  exists b, result_of (bind m k w) = Return b.
Proof.
  intros [a Ha] Hk. unfold bind.
  destruct (m w) as [[a' | e] w']; simpl in Ha; [apply Hk | discriminate].
Qed.

(** A method of the shape
    [try: x = call; ...  except Exception as e: log; return v]. *)
Lemma guarded_returns {A B} (call : M B) (k : B -> M A)
      origin props exc_info (v : A) w :
  (exists a, result_of
               (try_except (bind call k)
                  (fun e => logger_error origin props (Some e) exc_info ;; ret v) w)
             = Return a) /\
  (forall e w', call w = (Raise e, w') ->
     exists r, failure_record r origin e /\
               try_except (bind call k)
                 (fun e => logger_error origin props (Some e) exc_info ;; ret v) w
               = (Return v, logged w' r)).
Proof.
  split.
  - apply try_total. intros e w'. now exists v.
  - intros e w' Hb.
    rewrite (try_raise _ _ _ _ _ (bind_raise _ _ _ _ _ Hb)).
    eexists. split; [| reflexivity]. now repeat split.
Qed.

Lemma get_report_by_id_returns self report_id w :
  exists r, result_of (get_report_by_id self report_id w) = Return r.
Proof.
  unfold get_report_by_id. apply try_total. intros e w'. now exists None.
Qed.

Lemma get_report_by_id_refused self report_id w :
  connectable w (reports_db_path self) = false ->
  result_of (get_report_by_id self report_id w) = Return None.
Proof.
  intros Hc. unfold get_report_by_id, async_with_connect.
  erewrite try_raise; [reflexivity |].
  erewrite bind_raise; [reflexivity |].
  erewrite bind_raise; [reflexivity |].
  now apply connect_refused.
Qed.

Lemma update_report_metadata_returns self report_id metadata_update w :
  exists v, result_of (update_report_metadata self report_id metadata_update w) = Return v.
Proof.
  unfold update_report_metadata.
  apply bind_total; [apply get_report_by_id_returns |].
  intros [[| kv d] |] w'; try (now exists false).
  apply try_total. intros e w2. exists false.
  now destruct (is_JSONDecodeError e).
Qed.

Lemma missing_not_connectable w path :
  PyStr.is_empty (OsPath.dirname path) = false ->
  os_path_exists (OsPath.dirname path) w = (Return false, w) ->
  connectable w path = false.
Proof.
  unfold os_path_exists, connectable. intros -> H. injection H as H1.
  apply orb_false_iff in H1 as [-> _]. reflexivity.
Qed.

(** A directory that is missing and cannot be created: the executor
    raises before it looks at the statement. *)
Lemma executor_unprovisioned self path q params fo fa c w msg :
  PyStr.is_empty (OsPath.dirname path) = false ->
  os_path_exists (OsPath.dirname path) w = (Return false, w) ->
  mkdir_denied w (OsPath.dirname path) = Some msg ->
  exists w', _execute_query self path q params fo fa c w =
             (Raise (mk_exn OSError msg), w').
Proof.
  intros Hn Hm Hd. eexists.
  unfold _execute_query.
  erewrite bind_raise; [reflexivity |].
  now apply provision_denied.
Qed.




(** ** The statements of the report repository *)

Lemma decode_insert_report fn ct sp md st :
  Sql.decode Sql.insert_report
    [PyStr fn; Sql.of_text ct; PyStr sp; Sql.of_text md; PyStr st] =
  Sql.Known (Sql.InsertReport (Some fn) ct (Some sp) md (Some st)).
Proof. destruct ct, md; reflexivity. Qed.

Lemma decode_select_report id :
  Sql.decode Sql.select_report [PyInt id] = Sql.Known (Sql.SelectReport id).
Proof. reflexivity. Qed.

Lemma decode_status id st pc :
  Sql.decode (status_query st pc) (status_params id st pc) =
  Sql.Known (match pc with
             | Some c => Sql.UpdateStatusContent (Some st) (Some c) id
             | None => Sql.UpdateStatus (Some st) id
             end).
Proof. destruct pc; reflexivity. Qed.

Lemma decode_update_analysis an st id :
  Sql.decode Sql.update_analysis [PyStr an; PyStr st; PyInt id] =
  Sql.Known (Sql.UpdateAnalysis (Some an) (Some st) id).
Proof. reflexivity. Qed.

Lemma decode_update_metadata md id :
  Sql.decode Sql.update_metadata [PyStr md; PyInt id] =
  Sql.Known (Sql.UpdateMetadata (Some md) id).
Proof. reflexivity. Qed.

Lemma decode_exists_source sp :
  Sql.decode Sql.exists_source [PyStr sp] = Sql.Known (Sql.ExistsSource (Some sp)).
Proof. reflexivity. Qed.

Lemma status_query_not_insert st pc : is_insert (status_query st pc) = false.
Proof. destruct pc; reflexivity. Qed.

Lemma hd_error_filter {A} (f : A -> bool) l : hd_error (filter f l) = find f l.
Proof.
  induction l as [| a l IH]; simpl; auto. now destruct (f a).
Qed.

Lemma hd_error_map {A B} (g : A -> B) l :
  hd_error (map g l) = option_map g (hd_error l).
Proof. now destruct l. Qed.

Lemma report_row_dict r :
  dict_of_row (combine Sql.report_columns (Sql.report_cells r)) = report_dict r.
Proof. reflexivity. Qed.

(** Writing a store changes no directory. *)
Lemma connectable_written w path path' s r :
  connectable (logged (write_disk w path s) r) path' = connectable w path'.
Proof. reflexivity. Qed.

Lemma disk_logged_written w path s r : disk (logged (write_disk w path s) r) path = s.
Proof. unfold logged. rewrite disk_with_log. apply disk_write. Qed.

(** A modelled statement on a connection that was just opened. *)
Lemma execute_known path q params st w :
  Sql.decode q params = Sql.Known st ->
  db_execute (mk_conn path None 0) q params w =
  match Sql.run st (now w) (disk w path) 0 with
  | Raise e => (Raise e, w)
  | Return (None, last, cur) => (Return (mk_conn path None last, cur), w)
  | Return (Some s', last, cur) =>
      if Sql.is_dml q then (Return (mk_conn path (Some s') last, cur), w)
      else (Return (mk_conn path None last, cur), write_disk w path s')
  end.
Proof.
  intros H. unfold db_execute, sqlite_step, visible.
  cbn [c_txn c_path c_last_rowid]. rewrite H.
  destruct (Sql.run st (now w) (disk w path) 0) as [[[[s' |] last] cur] | e];
    reflexivity.
Qed.

Section ReportsTable.
Variables (self : DataAccessLayer) (w : World) (tb : table report).
Hypothesis Hopen : connectable w (reports_db_path self) = true.
Hypothesis Htable : reports (disk w (reports_db_path self)) = Some tb.

Let path := reports_db_path self.
Let store := disk w (reports_db_path self).

(** A read by key returns the first row with that key, as a mapping, and
    changes nothing. *)
Lemma get_report_by_id_reads report_id :
  get_report_by_id self report_id w =
  (Return (option_map report_dict (find_report report_id tb)), w).
Proof.
  unfold get_report_by_id, async_with_connect.
  erewrite try_return; [reflexivity |].
  unfold bind.
  rewrite (connect_connectable _ _ Hopen).
  rewrite (execute_known _ _ _ _ _ (decode_select_report report_id)).
  cbn [Sql.run]. unfold Sql.on_reports. rewrite Htable.
  unfold fetchone_row, fetchone, cursor_close, ret.
  cbn [result_rows description option_map].
  rewrite hd_error_map, hd_error_filter.
  unfold find_report.
  destruct (find _ (rows tb)) as [r |]; [| reflexivity].
  cbn [option_map]. now rewrite <- report_row_dict.
Qed.

(** An update by key rewrites the rows with that key and stamps them with
    the current time. *)
Lemma update_report_status_writes report_id status processed_content :
  update_report_status self report_id status processed_content w =
  (Return true,
   logged (write_disk w path
             (Sql.put_reports store
                (Sql.update_where_id report_id
                   (match processed_content with
                    | Some c => Sql.set_status_content (Some status) (Some c) (now w)
                    | None => Sql.set_status (Some status) (now w)
                    end) tb)))
          (success_record "update_report_status"
             [("new_status", status); ("operation", "update_report_status")])).
Proof.
  unfold update_report_status.
  erewrite try_return; [reflexivity |].
  erewrite bind_return; [reflexivity |].
  erewrite executor_writes; [| exact Hopen | apply decode_status |].
  - now rewrite status_query_not_insert.
  - destruct processed_content; simpl; unfold Sql.on_reports; now rewrite Htable.
Qed.

Lemma update_report_analysis_writes report_id analysis_data status :
  update_report_analysis self report_id analysis_data status w =
  (Return true,
   logged (write_disk w path
             (Sql.put_reports store
                (Sql.update_where_id report_id
                   (Sql.set_analysis (Some analysis_data) (Some status) (now w)) tb)))
          (success_record "update_report_analysis"
             [("new_status", status); ("operation", "update_report_analysis")])).
Proof.
  unfold update_report_analysis.
  erewrite try_return; [reflexivity |].
  erewrite bind_return; [reflexivity |].
  erewrite executor_writes; [| exact Hopen | apply decode_update_analysis |].
  - reflexivity.
  - simpl; unfold Sql.on_reports; now rewrite Htable.
Qed.

(** An insert appends a row under the next key and returns that key. *)
Lemma insert_report_data_writes fn ct sp md st :
  insert_report_data self fn ct sp md st w =
  (Return (Val (PyInt (Sql.next_key r_id tb))),
   logged (write_disk w path
             (Sql.put_reports store
                (mk_table (rows tb ++ [mk_report (Sql.next_key r_id tb) fn ct (Some sp)
                                                 (now w) (Some st) (metadata_text md) None])
                          (Sql.next_key r_id tb))))
          (success_record "insert_report_data"
             [("original_filename", fn); ("source_path", sp); ("status", st);
              ("operation", "insert_report")])).
Proof.
  unfold insert_report_data.
  erewrite try_return; [reflexivity |].
  erewrite bind_return; [reflexivity |].
  erewrite executor_writes; [| exact Hopen | apply decode_insert_report |].
  - reflexivity.
  - simpl; unfold Sql.on_reports; now rewrite Htable.
Qed.

(** The existence check answers by the rows. *)
Lemma check_report_exists_reads sp :
  check_report_exists_by_source_path self sp w =
  (Return (existsb (fun r => Sql.opt_eqb (r_source_path r) (Some sp)) (rows tb)), w).
Proof.
  unfold check_report_exists_by_source_path.
  erewrite try_return; [reflexivity |].
  erewrite bind_return;
    [| eapply executor_reads;
       [exact Hopen | apply decode_exists_source
        | cbn [Sql.run]; unfold Sql.on_reports; rewrite Htable; reflexivity]].
  unfold ret, fetchone. cbn [result_rows].
  induction (rows tb) as [| r l IH]; [reflexivity |].
  cbn [filter existsb].
  destruct (Sql.opt_eqb (r_source_path r) (Some sp)); [reflexivity | exact IH].
Qed.

End ReportsTable.

(** ** Rows and keys *)

Lemma update_where_id_absent id f (tb : table report) :
  (forall r, In r (rows tb) -> r_id r <> id) ->
  Sql.update_where_id id f tb = tb.
Proof.
  destruct tb as [l sq]. unfold Sql.update_where_id; simpl. intros H. f_equal.
  induction l as [| r l IH]; simpl; auto.
  rewrite IH by (intros; apply H; now right).
  destruct (Z.eqb_spec (r_id r) id) as [E | E]; [| reflexivity].
  exfalso. apply (H r); [now left | exact E].
Qed.

Lemma find_report_updated id f (tb : table report) :
  (forall r, r_id (f r) = r_id r) ->
  find_report id (Sql.update_where_id id f tb) = option_map f (find_report id tb).
Proof.
  intros Hf. unfold find_report, Sql.update_where_id; simpl.
  induction (rows tb) as [| r l IH]; simpl; auto.
  destruct (r_id r =? id) eqn:E.
  - now rewrite Hf, E.
  - now rewrite E.
Qed.

Lemma max_key_bound {A} (key : A -> Z) l r : In r l -> key r <= Sql.max_key key l.
Proof.
  induction l as [| a l IH]; simpl; [tauto |].
  intros [-> | H]; [lia |]. specialize (IH H). lia.
Qed.

(** The key an insert hands out is in use by no row. *)
Lemma next_key_fresh {A} (key : A -> Z) (tb : table A) r :
  In r (rows tb) -> key r <> Sql.next_key key tb.
Proof.
  intros H. pose proof (max_key_bound key _ _ H). unfold Sql.next_key. lia.
Qed.

Lemma find_appended id (l : list report) r :
  (forall x, In x l -> r_id x <> id) -> r_id r = id ->
  find (fun x => r_id x =? id) (l ++ [r]) = Some r.
Proof.
  intros Hl Hr.
  induction l as [| a l IH]; simpl.
  - now rewrite Hr, Z.eqb_refl.
  - destruct (Z.eqb_spec (r_id a) id) as [E | E].
    + exfalso. apply (Hl a); [now left | exact E].
    + apply IH. intros; apply Hl; now right.
Qed.

Lemma find_report_none id tb :
  find_report id tb = None <-> (forall r, In r (rows tb) -> r_id r <> id).
Proof.
  unfold find_report. split.
  - intros H r Hin E. apply (find_none _ _ H) in Hin. simpl in Hin.
    rewrite E, Z.eqb_refl in Hin. discriminate.
  - intros H. destruct (find _ (rows tb)) as [r |] eqn:E; [| reflexivity].
    apply find_some in E as [Hin E]. apply Z.eqb_eq in E.
    exfalso. now apply (H r).
Qed.

(** ** Updates that match no row *)



(** ** Reading back what was written *)

(** After a write the store can still be opened, whatever the clock. *)
Lemma written_world_reads self w s rec t tb' report_id :
  connectable w (reports_db_path self) = true ->
  reports s = Some tb' ->
  let w' := with_now (logged (write_disk w (reports_db_path self) s) rec) t in
  get_report_by_id self report_id w' =
  (Return (option_map report_dict (find_report report_id tb')), w').
Proof.
  intros Hopen Hs w'.
  apply get_report_by_id_reads.
  - exact Hopen.
  - unfold w'. change (reports (disk (logged (write_disk w (reports_db_path self) s) rec)
                                     (reports_db_path self)) = Some tb').
    now rewrite disk_logged_written.
Qed.

(** C9.  [insert_report_data] with the empty map does exactly what it
    does without a map.  On a store that can be opened it stores NULL in
    the metadata column of the new row, and a read of the new key, then or
    later, has [None] under "metadata". *)
Theorem empty_metadata_is_stored_as_null self fn ct sp st w :
  insert_report_data self fn ct sp (Some []) st w =
  insert_report_data self fn ct sp None st w /\
  forall tb,
  connectable w (reports_db_path self) = true ->
  reports (disk w (reports_db_path self)) = Some tb ->
  exists id w' tb' r,
    insert_report_data self fn ct sp (Some []) st w = (Return (Val (PyInt id)), w') /\
    reports (disk w' (reports_db_path self)) = Some tb' /\
    find_report id tb' = Some r /\
    r_metadata r = None /\
    forall t, exists d,
      get_report_by_id self id (with_now w' t) = (Return (Some d), with_now w' t) /\
      Dict.get "metadata" d = Some PyNone.
Proof.
  split; [reflexivity |]. intros tb Hopen Htable.
  rewrite (insert_report_data_writes self w tb Hopen Htable).
  set (id := Sql.next_key r_id tb).
  set (r := mk_report id fn ct (Some sp) (now w) (Some st) (metadata_text (Some [])) None).
  assert (Hfind : find_report id (mk_table (rows tb ++ [r]) id) = Some r).
  { unfold find_report; simpl. apply find_appended; [| reflexivity].
    intros x Hx. now apply next_key_fresh. }
  eexists id, _, (mk_table (rows tb ++ [r]) id), r.
  split; [reflexivity |].
  split; [now rewrite disk_logged_written |].
  split; [exact Hfind |].
  split; [reflexivity |].
  intros t. exists (report_dict r). split; [| reflexivity].
  erewrite written_world_reads; [| exact Hopen | reflexivity].
  now rewrite Hfind.
Qed.

(** The first report of a fresh installation, inserted with an empty map. *)
Lemma empty_metadata_is_stored_as_null_witness :
  exists d,
    result_of (get_report_by_id Scenario.dal 1
                 (world_of (insert_report_data Scenario.dal "a.docx" None "/in/a.docx"
                                               (Some []) "new" Scenario.fresh)))
    = Return (Some d) /\
    Dict.get "metadata" d = Some PyNone.
Proof.
  destruct (empty_metadata_is_stored_as_null Scenario.dal "a.docx" None "/in/a.docx"
              "new" Scenario.fresh) as [_ H].
  edestruct (H (mk_table [] 0)) as [id [w' [tb' [r [Hins [_ [_ [_ Hget]]]]]]]].
  - vm_compute. reflexivity.
  - vm_compute. reflexivity.
  - destruct (Hget 100) as [d [Hd Hm]].
    exists d. split; [| exact Hm].
    rewrite Hins. unfold world_of, snd.
    assert (Hid : id = 1).
    { assert (H1 : result_of (insert_report_data Scenario.dal "a.docx" None "/in/a.docx"
                                (Some []) "new" Scenario.fresh) = Return (Val (PyInt 1)))
        by (vm_compute; reflexivity).
      rewrite Hins in H1. now inversion H1. }
    subst id.
    assert (Hnow : with_now w' 100 = w').
    { assert (H1 : now (world_of (insert_report_data Scenario.dal "a.docx" None
                                    "/in/a.docx" (Some []) "new" Scenario.fresh)) = 100)
        by (vm_compute; reflexivity).
      rewrite Hins in H1. unfold world_of, snd in H1.
      destruct w'; simpl in *; subst; reflexivity. }
    rewrite Hnow in Hd. now rewrite Hd.
Defined.

(** ** The existence check *)

Lemma existsb_source_iff sp (l : list report) :
  existsb (fun r => Sql.opt_eqb (r_source_path r) (Some sp)) l = true <->
  exists r, In r l /\ r_source_path r = Some sp.
Proof.
  rewrite existsb_exists. split; intros [r [Hin H]]; exists r; split; auto.
  - unfold Sql.opt_eqb in H. destruct (r_source_path r); [| discriminate].
    apply String.eqb_eq in H. now subst.
  - rewrite H. simpl. apply String.eqb_refl.
Qed.

Lemma written_world_checks self w s rec t tb' sp :
  connectable w (reports_db_path self) = true ->
  reports s = Some tb' ->
  let w' := with_now (logged (write_disk w (reports_db_path self) s) rec) t in
  check_report_exists_by_source_path self sp w' =
  (Return (existsb (fun r => Sql.opt_eqb (r_source_path r) (Some sp)) (rows tb')), w').
Proof.
  intros Hopen Hs w'.
  apply check_report_exists_reads.
  - exact Hopen.
  - unfold w'. change (reports (disk (logged (write_disk w (reports_db_path self) s) rec)
                                     (reports_db_path self)) = Some tb').
    now rewrite disk_logged_written.
Qed.



(** ** Status updates and the clock *)

(** C7, as the code has it.  For a report that exists, in a store that
    can be opened, [update_report_status] returns [True]; a read of the
    key, then or later, has the new status, has the content that was
    passed (the old content when none was passed) and has as its
    [processed_at] the current timestamp of the update.  That timestamp is
    later than the one read before exactly when the clock, which counts
    whole seconds, has moved past it; within the same second it is the
    same. *)
Theorem status_update_stamps_current_time self w tb report_id r status processed_content :
  connectable w (reports_db_path self) = true ->
  reports (disk w (reports_db_path self)) = Some tb ->
  find_report report_id tb = Some r ->
  exists w',
    update_report_status self report_id status processed_content w = (Return true, w') /\
    forall t, exists d,
      get_report_by_id self report_id (with_now w' t) = (Return (Some d), with_now w' t) /\
      Dict.get "status" d = Some (PyStr status) /\
      Dict.get "content" d =
        Some (match processed_content with
              | Some c => PyStr c
              | None => Sql.of_text (r_content r)
              end) /\
      Dict.get "processed_at" d = Some (PyTimestamp (now w)) /\
      (timestamp_lt (PyTimestamp (r_processed_at r)) (PyTimestamp (now w))
       <-> r_processed_at r < now w).
Proof.
  intros Hopen Htable Hfind.
  rewrite (update_report_status_writes self w tb Hopen Htable).
  eexists. split; [reflexivity |].
  intros t.
  erewrite written_world_reads; [| exact Hopen | reflexivity].
  rewrite find_report_updated by (now destruct processed_content).
  rewrite Hfind. cbn [option_map].
  eexists. split; [reflexivity |].
  destruct processed_content; repeat split; auto.
Qed.

(** The report of the stocked installation, set to "done". *)
Lemma status_update_stamps_current_time_witness :
  exists w' d,
    update_report_status Scenario.dal 1 "done" None Scenario.stocked = (Return true, w') /\
    result_of (get_report_by_id Scenario.dal 1 (with_now w' 160)) = Return (Some d) /\
    Dict.get "status" d = Some (PyStr "done") /\
    Dict.get "content" d = Some (PyStr "text").
Proof.
  edestruct (status_update_stamps_current_time Scenario.dal Scenario.stocked
               Scenario.stocked_reports 1 Scenario.first_report "done" None)
    as [w' [Hup Hget]].
  - vm_compute. reflexivity.
  - vm_compute. reflexivity.
  - reflexivity.
  - destruct (Hget 160) as [d [Hd [Hs [Hc _]]]].
    exists w', d. split; [exact Hup |].
    split; [now rewrite Hd |]. split; [exact Hs | exact Hc].
Defined.

(** C7 as stated fails: a report inserted and set to "done" within one
    second of the clock has the same [processed_at] before and after the
    update, not a later one. *)
Lemma update_within_the_same_second :
  let before := result_of (get_report_by_id Scenario.dal 1 Scenario.stocked) in
  let updated := update_report_status Scenario.dal 1 "done" None Scenario.stocked in
  let after := result_of (get_report_by_id Scenario.dal 1 (world_of updated)) in
  result_of updated = Return true /\
  exists d0 d1 t0 t1,
    before = Return (Some d0) /\ after = Return (Some d1) /\
    Dict.get "status" d1 = Some (PyStr "done") /\
    Dict.get "processed_at" d0 = Some t0 /\
    Dict.get "processed_at" d1 = Some t1 /\
    ~ timestamp_lt t0 t1.
Proof.
  split; [vm_compute; reflexivity |].
  eexists _, _, (PyTimestamp 100), (PyTimestamp 100).
  split; [vm_compute; reflexivity |].
  split; [vm_compute; reflexivity |].
  split; [reflexivity |].
  split; [reflexivity |].
  split; [reflexivity |].
  simpl. lia.
Qed.

(** ** Metadata *)

Lemma loads_raises s e : Json.loads s = Raise e -> e = Json.decode_error.
Proof.
  unfold Json.loads.
  destruct (Json.scan_value _ _) as [[j rest] |]; [| now intros [= <-]].
  destruct (PyStr.is_empty _); [discriminate | now intros [= <-]].
Qed.

Lemma report_dict_metadata r :
  Dict.get "metadata" (report_dict r) = Some (Sql.of_text (r_metadata r)).
Proof. reflexivity. Qed.

(** The three ways [update_report_metadata] ends for a report that is
    there: the stored metadata is a map, is some other JSON value, or is
    not JSON. *)
Lemma update_report_metadata_found self w tb report_id r metadata_update :
  connectable w (reports_db_path self) = true ->
  reports (disk w (reports_db_path self)) = Some tb ->
  find_report report_id tb = Some r ->
  update_report_metadata self report_id metadata_update w =
  match stored_metadata (r_metadata r) with
  | Return (JObj current) =>
      (Return true,
       logged (write_disk w (reports_db_path self)
                 (Sql.put_reports (disk w (reports_db_path self))
                    (Sql.update_where_id report_id
                       (Sql.set_metadata
                          (Some (Json.dumps (JObj (Dict.update current metadata_update))))
                          (now w)) tb)))
              (success_record "update_report_metadata"
                 [("operation", "update_report_metadata")]))
  | Return _ =>
      (Return false,
       logged w (mk_log ERROR "update_report_metadata"
                   [("operation", "update_report_metadata");
                    ("db_operation_status", "failure")]
                   (Some (mk_exn AttributeError "object has no attribute 'update'"))
                   false))
  | Raise e =>
      (Return false,
       logged w (mk_log ERROR "update_report_metadata"
                   [("operation", "update_report_metadata");
                    ("error", "json_decode_error")]
                   (Some e) true))
  end.
Proof.
  intros Hopen Htable Hfind.
  unfold update_report_metadata.
  rewrite (bind_return _ _ _ _ _ (get_report_by_id_reads self w tb Hopen Htable report_id)).
  rewrite Hfind. cbn [option_map].
  change (report_dict r) with
    (("id", PyInt (r_id r)) :: tl (report_dict r)) at 1.
  cbv beta iota.
  change (("id", PyInt (r_id r)) :: tl (report_dict r)) with (report_dict r).
  rewrite report_dict_metadata.
  assert (Hload :
            (if truthy (Sql.of_text (r_metadata r))
             then json_loads (Sql.of_text (r_metadata r))
             else ret (JObj [])) w =
            (stored_metadata (r_metadata r), w)).
  { unfold stored_metadata. destruct (r_metadata r) as [[| c s] |]; try reflexivity.
    cbn [Sql.of_text truthy PyStr.is_empty negb json_loads].
    now destruct (Json.loads (String c s)). }
  assert (Hwrite : forall current,
             _execute_query self (reports_db_path self) Sql.update_metadata
               [PyStr (Json.dumps (JObj (Dict.update current metadata_update)));
                PyInt report_id] false false true w =
             (Return (Val PyNone),
              write_disk w (reports_db_path self)
                (Sql.put_reports (disk w (reports_db_path self))
                   (Sql.update_where_id report_id
                      (Sql.set_metadata
                         (Some (Json.dumps (JObj (Dict.update current metadata_update))))
                         (now w)) tb)))).
  { intros current.
    erewrite executor_writes;
      [reflexivity | exact Hopen | apply decode_update_metadata |].
    cbn [Sql.run]. unfold Sql.on_reports. now rewrite Htable. }
  destruct (stored_metadata (r_metadata r)) as [j | e] eqn:Es.
  - unfold try_except, bind. rewrite Hload.
    destruct j as [| b | n | x | x | xs | current]; try reflexivity.
    cbn [metadata_merge ret]. rewrite Hwrite. reflexivity.
  - unfold try_except, bind. rewrite Hload.
    unfold stored_metadata in Es.
    destruct (r_metadata r) as [s |]; [| discriminate].
    destruct (PyStr.is_empty s); [discriminate |].
    apply loads_raises in Es. subst e. reflexivity.
Qed.

Section DictOrder.
Context {V : Type}.

Lemma get_app (k : string) (l1 l2 : pydict V) :
  Dict.get k (l1 ++ l2) =
  match Dict.get k l1 with Some v => Some v | None => Dict.get k l2 end.
Proof.
  induction l1 as [| [a b] l1 IH]; simpl; auto.
  destruct (String.eqb k a); auto.
Qed.

Lemma get_absent (k : string) (l : pydict V) :
  ~ In k (Dict.keys l) -> Dict.get k l = None.
Proof.
  induction l as [| [a b] l IH]; simpl; auto.
  intros H. destruct (String.eqb_spec k a) as [-> | E].
  - exfalso. apply H. now left.
  - apply IH. intros Hin. apply H. now right.
Qed.

(** In a map (no key twice) the order of the entries does not matter to
    a lookup. *)
Lemma get_rev (k : string) (l : pydict V) :
  NoDup (Dict.keys l) -> Dict.get k (List.rev l) = Dict.get k l.
Proof.
  induction l as [| [a b] l IH]; simpl; auto.
  intros Hnd. inversion Hnd as [| x xs Hnotin Hnd']; subst.
  rewrite get_app, (IH Hnd'). simpl.
  destruct (String.eqb_spec k a) as [-> | E].
  - now rewrite (get_absent a l Hnotin).
  - now destruct (Dict.get k l).
Qed.

End DictOrder.



(** ** The listing of prompt templates *)

Lemma insert_desc_perm x l : Permutation (Sql.insert_desc x l) (x :: l).
Proof.
  induction l as [| y r IH]; simpl; auto.
  destruct (p_updated_at y <=? p_updated_at x); auto.
  rewrite IH. apply perm_swap.
Qed.

Lemma order_by_perm l : Permutation (Sql.order_by_updated_desc l) l.
Proof.
  induction l as [| x l IH]; simpl; auto.
  rewrite insert_desc_perm. now constructor.
Qed.

Lemma insert_desc_sorted x l :
  StronglySorted newer_first l -> StronglySorted newer_first (Sql.insert_desc x l).
Proof.
  induction 1 as [| y r Hs IH Hall]; simpl.
  - repeat constructor.
  - destruct (Z.leb_spec (p_updated_at y) (p_updated_at x)) as [Hle | Hlt].
    + constructor; [now constructor |].
      constructor; [exact Hle |].
      eapply Forall_impl; [| exact Hall].
      unfold newer_first. intros z Hz. lia.
    + constructor; [exact IH |].
      eapply Permutation_Forall.
      * symmetry. apply insert_desc_perm.
      * constructor; [unfold newer_first; lia | exact Hall].
Qed.

Lemma order_by_sorted l : StronglySorted newer_first (Sql.order_by_updated_desc l).
Proof.
  induction l as [| x l IH]; simpl; [constructor | now apply insert_desc_sorted].
Qed.

Lemma decode_list_prompts limit offset :
  Sql.decode Sql.list_prompts [PyInt limit; PyInt offset] =
  Sql.Known (Sql.ListPrompts limit offset).
Proof. reflexivity. Qed.

Lemma listing_row_dict p :
  dict_of_row (combine Sql.listing_columns (Sql.listing_cells p)) = listing_dict p.
Proof. reflexivity. Qed.

Lemma get_all_prompt_templates_returns self limit offset w :
  exists l, result_of (get_all_prompt_templates self limit offset w) = Return l.
Proof.
  unfold get_all_prompt_templates. apply try_total. intros e w'. now exists [].
Qed.

(** The listing on a store that can be opened and has the table. *)
Lemma get_all_prompt_templates_reads self w tb limit offset :
  connectable w (prompts_db_path self) = true ->
  prompt_templates (disk w (prompts_db_path self)) = Some tb ->
  get_all_prompt_templates self limit offset w =
  (Return (map listing_dict
               (Sql.limit_offset limit offset (Sql.order_by_updated_desc (rows tb)))), w).
Proof.
  intros Hopen Htable.
  unfold get_all_prompt_templates, async_with_connect.
  erewrite try_return; [reflexivity |].
  unfold bind.
  rewrite (connect_connectable _ _ Hopen).
  rewrite (execute_known _ _ _ _ _ (decode_list_prompts limit offset)).
  cbn [Sql.run]. unfold Sql.on_prompts. rewrite Htable.
  unfold fetchall_rows, fetchall, cursor_close, ret.
  cbn [result_rows description].
  rewrite map_map.
  assert (Hd : forall l,
             map dict_of_row
                 (map (fun p => combine Sql.listing_columns (Sql.listing_cells p)) l)
             = map listing_dict l).
  { intros l. rewrite map_map. apply map_ext. intros p. apply listing_row_dict. }
  destruct (Sql.limit_offset limit offset _) as [| p l] eqn:E; [reflexivity |].
  cbn [map]. rewrite <- listing_row_dict. now rewrite Hd.
Qed.

(** The listing when the store cannot be opened or has no table. *)
Lemma get_all_prompt_templates_refused self w limit offset :
  connectable w (prompts_db_path self) = false \/
  (connectable w (prompts_db_path self) = true /\
   prompt_templates (disk w (prompts_db_path self)) = None) ->
  exists e, get_all_prompt_templates self limit offset w =
            (Return [],
             logged w (mk_log ERROR "get_all_prompt_templates"
                         [("operation", "get_all_prompts")] (Some e) true)).
Proof.
  intros [Hc | [Hc Hn]]; unfold get_all_prompt_templates, async_with_connect.
  - eexists. erewrite try_raise; [reflexivity |].
    erewrite bind_raise; [reflexivity |].
    erewrite bind_raise; [reflexivity |].
    now apply connect_refused.
  - eexists. erewrite try_raise; [reflexivity |].
    erewrite bind_raise; [reflexivity |].
    unfold bind. rewrite (connect_connectable _ _ Hc).
    rewrite (execute_known _ _ _ _ _ (decode_list_prompts limit offset)).
    cbn [Sql.run]. unfold Sql.on_prompts. rewrite Hn. reflexivity.
Qed.

Lemma pages_of_five {A} (l : list A) :
  length l = 5%nat ->
  length (Sql.limit_offset 2 0 l) = 2%nat /\
  length (Sql.limit_offset 2 2 l) = 2%nat /\
  length (Sql.limit_offset 2 4 l) = 1%nat /\
  Sql.limit_offset 2 0 l ++ Sql.limit_offset 2 2 l ++ Sql.limit_offset 2 4 l = l.
Proof.
  intros H.
  do 5 (destruct l as [| ? l]; [discriminate H |]).
  destruct l; [| discriminate H].
  repeat split.
Qed.



(** ** The reads that open their own connection *)

Lemma execute_dirs db q params w r w' :
  db_execute db q params w = (r, w') -> dirs w' = dirs w.
Proof.
  unfold db_execute.
  destruct (sqlite_step _ _ _ _ _) as [[[[s' |] last] c] | e].
  - destruct (c_txn db); [| destruct (Sql.is_dml q)]; now intros [= _ <-].
  - now intros [= _ <-].
  - now intros [= _ <-].
Qed.

(** A method of the shape
    [try: async with connect(path) as db: cursor = execute(q); ...
     except Exception: log; return v] creates no directory. *)
Lemma direct_read_dirs {A B} path q params (k : Conn * Cursor -> M B) (k' : B -> M A)
      (h : exn -> M A) w :
  (forall x w1, world_of (k x w1) = w1) ->
  (forall x w1, world_of (k' x w1) = w1) ->
  (forall e w1, dirs (world_of (h e w1)) = dirs w1) ->
  dirs (world_of
          (try_except
             (row <- async_with_connect path (fun db => x <- db_execute db q params ;; k x) ;;
              k' row) h w)) = dirs w.
Proof.
  intros Hk Hk' Hh.
  unfold try_except, async_with_connect, bind.
  destruct (aiosqlite_connect path w) as [[db | e] w0] eqn:Ec;
    apply connect_world in Ec; subst w0; [| apply Hh].
  destruct (db_execute db q params w) as [[x | e] w1] eqn:Ee;
    apply execute_dirs in Ee; [| now rewrite Hh].
  specialize (Hk x w1). destruct (k x w1) as [[b | e] w2]; simpl in Hk; subst w2.
  - specialize (Hk' b w1). destruct (k' b w1) as [[a | e] w3]; simpl in Hk'; subst w3.
    + exact Ee.
    + now rewrite Hh.
  - now rewrite Hh.
Qed.

(** C5, where the code departs from it.  The three reads
    [get_report_by_id], [get_prompt_template_by_name] and
    [get_all_prompt_templates] open their own connection: on no world do
    they create a directory.  On an empty world they fail to open the
    store, log under their own name only and return their empty value,
    while a read that goes through the executor
    ([check_report_exists_by_source_path]) creates [data] and logs through
    [_execute_query]. *)
Theorem direct_reads_skip_the_executor :
  (forall self w,
     (forall id, dirs (world_of (get_report_by_id self id w)) = dirs w) /\
     (forall name, dirs (world_of (get_prompt_template_by_name self name w)) = dirs w) /\
     (forall limit offset,
        dirs (world_of (get_all_prompt_templates self limit offset w)) = dirs w)) /\
  (let run := get_all_prompt_templates Scenario.dal 100 0 Scenario.blank in
   result_of run = Return [] /\ dirs (world_of run) = [] /\
   map lg_origin (log (world_of run)) = ["get_all_prompt_templates"]) /\
  (let run := get_prompt_template_by_name Scenario.dal "p1" Scenario.blank in
   result_of run = Return None /\ dirs (world_of run) = [] /\
   map lg_origin (log (world_of run)) = ["get_prompt_template_by_name"]) /\
  (let run := get_report_by_id Scenario.dal 1 Scenario.blank in
   result_of run = Return None /\ dirs (world_of run) = [] /\
   map lg_origin (log (world_of run)) = ["get_report_by_id"]) /\
  (let run := check_report_exists_by_source_path Scenario.dal "/in/a.docx" Scenario.blank in
   result_of run = Return false /\ dirs (world_of run) = ["data"] /\
   map lg_origin (log (world_of run)) =
   ["_execute_query"; "_execute_query"; "check_report_exists_by_source_path"]).
Proof.
  split.
  - intros self w. repeat split; intros.
    + unfold get_report_by_id.
      apply (direct_read_dirs _ _ _
               (fun x => let '(db, cursor) := x in
                         let row := fetchone_row cursor in
                         cursor_close cursor ;; ret row)).
      * now intros [db c] w1.
      * intros [[| kv d] |] w1; reflexivity.
      * reflexivity.
    + unfold get_prompt_template_by_name.
      apply (direct_read_dirs _ _ _
               (fun x => let '(db, cursor) := x in
                         let row := fetchone_row cursor in
                         cursor_close cursor ;; ret row)).
      * now intros [db c] w1.
      * intros [[| kv d] |] w1; reflexivity.
      * reflexivity.
    + unfold get_all_prompt_templates.
      apply (direct_read_dirs _ _ _
               (fun x => let '(db, cursor) := x in
                         let rows := fetchall_rows cursor in
                         cursor_close cursor ;; ret rows)).
      * now intros [db c] w1.
      * intros [| r l] w1; reflexivity.
      * reflexivity.
  - repeat split; vm_compute; reflexivity.
Qed.

(** * Further properties of the module *)

(** ** The schema initializer *)

Lemma decode_create_reports :
  Sql.decode Sql.create_reports [] = Sql.Known Sql.CreateReports.
Proof. reflexivity. Qed.

Lemma decode_create_prompts :
  Sql.decode Sql.create_prompts [] = Sql.Known Sql.CreatePrompts.
Proof. reflexivity. Qed.

(** A modelled statement that writes nothing, with [commit]. *)
Lemma executor_commits_nothing self path q params st w last cur fo fa :
  connectable w path = true ->
  Sql.decode q params = Sql.Known st ->
  Sql.run st (now w) (disk w path) 0 = Return (None, last, cur) ->
  _execute_query self path q params fo fa true w =
  (Return (if is_insert q then Val (PyInt last) else Val PyNone), w).
Proof.
  intros Hc Hd Hr.
  unfold _execute_query.
  rewrite (bind_return _ _ _ _ _ (provision_connectable _ _ Hc)).
  unfold try_except.
  rewrite (run_query_after_execute path q params fo fa true w
             (mk_conn path None 0) (mk_conn path None last) cur w
             (connect_connectable _ _ Hc)).
  - reflexivity.
  - rewrite (execute_known _ _ _ _ _ Hd), Hr. reflexivity.
Qed.

Lemma connectable_logged w r path : connectable (logged w r) path = connectable w path.
Proof. reflexivity. Qed.

Lemma connectable_write_disk w p s path :
  connectable (write_disk w p s) path = connectable w path.
Proof. reflexivity. Qed.

Lemma disk_logged w r path : disk (logged w r) path = disk w path.
Proof. reflexivity. Qed.

(** What the file at [p] holds after the file at [path] got [s]. *)
Lemma disk_write_cases w path s p :
  disk (write_disk w path s) p = if String.eqb p path then s else disk w p.
Proof.
  destruct (String.eqb_spec p path) as [-> | Hne].
  - apply disk_write.
  - now apply disk_write_other.
Qed.

(** [_create_reports_table] on a store that can be opened. *)
Lemma create_reports_table_runs self w :
  connectable w (reports_db_path self) = true ->
  exists w1,
    _create_reports_table self w = (Return tt, w1) /\
    (forall p, connectable w1 p = connectable w p) /\
    (forall p, disk w1 p =
               if String.eqb p (reports_db_path self)
               then mk_store (Some (ensured (reports (disk w p))))
                             (prompt_templates (disk w p))
               else disk w p) /\
    (reports (disk w (reports_db_path self)) <> None -> files w1 = files w).
Proof.
  intros Hc. unfold _create_reports_table.
  set (rec := mk_log INFO "_create_reports_table"
                     [("db_table", "reports"); ("db_path", reports_db_path self)]
                     None false).
  destruct (reports (disk w (reports_db_path self))) as [tb |] eqn:Et.
  - exists (logged w rec). split.
    + erewrite bind_return; [reflexivity |].
      eapply executor_commits_nothing;
        [exact Hc | apply decode_create_reports | cbn [Sql.run]; now rewrite Et].
    + split; [reflexivity |]. split; [| reflexivity].
      intros p. rewrite disk_logged.
      destruct (String.eqb_spec p (reports_db_path self)) as [-> | Hne]; [| reflexivity].
      rewrite Et. simpl. now destruct (disk w (reports_db_path self)); simpl in *; subst.
  - exists (logged (write_disk w (reports_db_path self)
                      (Sql.put_reports (disk w (reports_db_path self)) (mk_table [] 0)))
                   rec).
    split.
    + erewrite bind_return; [reflexivity |].
      eapply executor_writes;
        [exact Hc | apply decode_create_reports | cbn [Sql.run]; now rewrite Et].
    + split; [reflexivity |]. split; [| intros H; now elim H].
      intros p. rewrite disk_logged, disk_write_cases.
      destruct (String.eqb_spec p (reports_db_path self)) as [-> | Hne]; [| reflexivity].
      now rewrite Et.
Qed.

Lemma create_prompts_table_runs self w :
  connectable w (prompts_db_path self) = true ->
  exists w1,
    _create_prompts_table self w = (Return tt, w1) /\
    (forall p, connectable w1 p = connectable w p) /\
    (forall p, disk w1 p =
               if String.eqb p (prompts_db_path self)
               then mk_store (reports (disk w p))
                             (Some (ensured (prompt_templates (disk w p))))
               else disk w p) /\
    (prompt_templates (disk w (prompts_db_path self)) <> None -> files w1 = files w).
Proof.
  intros Hc. unfold _create_prompts_table.
  set (rec := mk_log INFO "_create_prompts_table"
                     [("db_table", "prompt_templates"); ("db_path", prompts_db_path self)]
                     None false).
  destruct (prompt_templates (disk w (prompts_db_path self))) as [tb |] eqn:Et.
  - exists (logged w rec). split.
    + erewrite bind_return; [reflexivity |].
      eapply executor_commits_nothing;
        [exact Hc | apply decode_create_prompts | cbn [Sql.run]; now rewrite Et].
    + split; [reflexivity |]. split; [| reflexivity].
      intros p. rewrite disk_logged.
      destruct (String.eqb_spec p (prompts_db_path self)) as [-> | Hne]; [| reflexivity].
      rewrite Et. simpl. now destruct (disk w (prompts_db_path self)); simpl in *; subst.
  - exists (logged (write_disk w (prompts_db_path self)
                      (Sql.put_prompts (disk w (prompts_db_path self)) (mk_table [] 0)))
                   rec).
    split.
    + erewrite bind_return; [reflexivity |].
      eapply executor_writes;
        [exact Hc | apply decode_create_prompts | cbn [Sql.run]; now rewrite Et].
    + split; [reflexivity |]. split; [| intros H; now elim H].
      intros p. rewrite disk_logged, disk_write_cases.
      destruct (String.eqb_spec p (prompts_db_path self)) as [-> | Hne]; [| reflexivity].
      now rewrite Et.
Qed.

Lemma initialize_databases_runs self w :
  connectable w (reports_db_path self) = true ->
  connectable w (prompts_db_path self) = true ->
  exists w1,
    initialize_databases self w = (Return tt, w1) /\
    (forall p, connectable w1 p = connectable w p) /\
    reports (disk w1 (reports_db_path self)) =
      Some (ensured (reports (disk w (reports_db_path self)))) /\
    prompt_templates (disk w1 (prompts_db_path self)) =
      Some (ensured (prompt_templates (disk w (prompts_db_path self)))) /\
    (reports (disk w (reports_db_path self)) <> None ->
     prompt_templates (disk w (prompts_db_path self)) <> None ->
     files w1 = files w).
Proof.
  intros Hr Hp.
  destruct (create_reports_table_runs self w Hr) as [wa [Ha [Hca [Hda Hfa]]]].
  assert (Hp' : connectable wa (prompts_db_path self) = true) by now rewrite Hca.
  destruct (create_prompts_table_runs self wa Hp') as [wb [Hb [Hcb [Hdb Hfb]]]].
  set (rec := mk_log INFO "initialize_databases"
                     [("operation", "initialize_databases"); ("status", "completed")]
                     None false).
  exists (logged wb rec).
  split.
  { unfold initialize_databases.
    rewrite (bind_return _ _ _ _ _ Ha), (bind_return _ _ _ _ _ Hb). reflexivity. }
  split; [intros p; rewrite connectable_logged, Hcb; apply Hca |].
  assert (Hpt : prompt_templates (disk wa (prompts_db_path self)) =
                prompt_templates (disk w (prompts_db_path self))).
  { rewrite Hda. now destruct (String.eqb _ _). }
  split; [| split].
  - rewrite disk_logged, Hdb.
    destruct (String.eqb_spec (reports_db_path self) (prompts_db_path self)) as [E | E];
      cbn [reports]; rewrite Hda, String.eqb_refl; reflexivity.
  - rewrite disk_logged, Hdb, String.eqb_refl. cbn [prompt_templates].
    now rewrite Hpt.
  - intros Hnr Hnp.
    change (files (logged wb rec)) with (files wb).
    rewrite Hfb; [now apply Hfa |]. now rewrite Hpt.
Qed.

(** X1.  On stores that can be opened, [initialize_databases] returns
    and leaves both tables there: a table that existed is kept with its
    rows, a missing one is created empty.  Run again, it returns again and
    leaves every store file as it was. *)
Theorem initialize_databases_idempotent self w :
  connectable w (reports_db_path self) = true ->
  connectable w (prompts_db_path self) = true ->
  exists w1,
    initialize_databases self w = (Return tt, w1) /\
    reports (disk w1 (reports_db_path self)) =
      Some (ensured (reports (disk w (reports_db_path self)))) /\
    prompt_templates (disk w1 (prompts_db_path self)) =
      Some (ensured (prompt_templates (disk w (prompts_db_path self)))) /\
    exists w2,
      initialize_databases self w1 = (Return tt, w2) /\
      files w2 = files w1.
Proof.
  intros Hr Hp.
  destruct (initialize_databases_runs self w Hr Hp) as [w1 [H1 [Hc [Hrt [Hpt _]]]]].
  exists w1. split; [exact H1 |]. split; [exact Hrt |]. split; [exact Hpt |].
  destruct (initialize_databases_runs self w1) as [w2 [H2 [_ [_ [_ Hf]]]]];
    try (now rewrite Hc).
  exists w2. split; [exact H2 |].
  apply Hf; [now rewrite Hrt | now rewrite Hpt].
Qed.

(** The installation with one report: initializing it again keeps the
    report. *)
Lemma initialize_databases_idempotent_witness :
  exists w1,
    initialize_databases Scenario.dal Scenario.stocked = (Return tt, w1) /\
    reports (disk w1 "data/reports.sqlite") = Some Scenario.stocked_reports.
Proof.
  destruct (initialize_databases_idempotent Scenario.dal Scenario.stocked)
    as [w1 [H1 [Hr _]]]; [vm_compute; reflexivity | vm_compute; reflexivity |].
  exists w1. split; [exact H1 |]. exact Hr.
Defined.

(** ** What a call leaves alone *)

Lemma touches_refl paths w : touches_only paths w w.
Proof. unfold touches_only. auto. Qed.

Lemma touches_trans paths w1 w2 w3 :
  touches_only paths w1 w2 -> touches_only paths w2 w3 -> touches_only paths w1 w3.
Proof.
  unfold touches_only.
  intros [Hn [Hm [Hf [Hd Hg]]]] [Hn' [Hm' [Hf' [Hd' Hg']]]].
  repeat split; try congruence; auto.
  intros p Hp. rewrite Hg', Hg; auto.
Qed.

Lemma touches_more paths paths' w w' :
  incl paths paths' -> touches_only paths w w' -> touches_only paths' w w'.
Proof.
  unfold touches_only. intros Hi [Hn [Hm [Hf [Hd Hg]]]].
  repeat split; auto.
Qed.

Lemma touches_with_log paths w l : touches_only paths w (with_log w l).
Proof. unfold touches_only. simpl. auto. Qed.

Lemma touches_write_disk path w s : touches_only [path] w (write_disk w path s).
Proof.
  unfold touches_only. simpl. repeat split; auto.
  intros p Hp. apply get_set_other. intros ->. apply Hp. now left.
Qed.

Section Frames.
Context {A B : Type}.
Variable paths : list string.

Lemma frames_ret (a : A) : frames paths (ret a).
Proof. intros w. apply touches_refl. Qed.

Lemma frames_raise (e : exn) : frames paths (@raise A e).
Proof. intros w. apply touches_refl. Qed.

Lemma frames_more paths' (m : M A) :
  incl paths' paths -> frames paths' m -> frames paths m.
Proof. intros Hi Hm w. eapply touches_more; [exact Hi | apply Hm]. Qed.

(** Sequencing, with what is known of the value handed on. *)
Lemma frames_bind (P : A -> Prop) (m : M A) (k : A -> M B) :
  frames paths m ->
  (forall w a w', m w = (Return a, w') -> P a) ->
  (forall a, P a -> frames paths (k a)) ->
  frames paths (bind m k).
Proof.
  intros Hm HP Hk w. unfold bind.
  specialize (Hm w). specialize (HP w).
  destruct (m w) as [[a | e] w1]; simpl in Hm; [| exact Hm].
  eapply touches_trans; [exact Hm |]. apply Hk. eapply HP. reflexivity.
Qed.

Lemma frames_try (body : M A) (h : exn -> M A) :
  frames paths body -> (forall e, frames paths (h e)) ->
  frames paths (try_except body h).
Proof.
  intros Hb Hh w. unfold try_except.
  specialize (Hb w).
  destruct (body w) as [[a | e] w1]; simpl in Hb; [exact Hb |].
  eapply touches_trans; [exact Hb | apply Hh].
Qed.

End Frames.

Lemma frames_seq {A B} paths (m : M A) (k : A -> M B) :
  frames paths m -> (forall a, frames paths (k a)) -> frames paths (bind m k).
Proof.
  intros Hm Hk. apply (frames_bind paths (fun _ => True)); auto.
Qed.

Lemma frames_logger_info paths origin props : frames paths (logger_info origin props).
Proof. intros w. apply touches_with_log. Qed.

Lemma frames_logger_error paths origin props e b :
  frames paths (logger_error origin props e b).
Proof. intros w. apply touches_with_log. Qed.

Lemma frames_os_path_exists paths d : frames paths (os_path_exists d).
Proof. intros w. apply touches_refl. Qed.

Lemma frames_os_makedirs paths d : frames paths (os_makedirs d).
Proof.
  intros w. unfold os_makedirs.
  destruct (mkdir_denied w d); [apply touches_refl |].
  unfold touches_only; simpl. repeat split; auto.
  intros a Ha. rewrite mem_app, Ha. apply orb_true_r.
Qed.

Lemma frames_connect paths p : frames paths (aiosqlite_connect p).
Proof.
  intros w. unfold aiosqlite_connect.
  destruct (_ && _); apply touches_refl.
Qed.

Lemma frames_db_execute db q params : frames [c_path db] (db_execute db q params).
Proof.
  intros w. unfold db_execute.
  destruct (sqlite_step _ _ _ _ _) as [[[[s' |] last] c] | e];
    try apply touches_refl.
  destruct (c_txn db); [apply touches_refl |].
  destruct (Sql.is_dml q); [apply touches_refl | apply touches_write_disk].
Qed.

Lemma frames_db_commit db : frames [c_path db] (db_commit db).
Proof.
  intros w. unfold db_commit.
  destruct (c_txn db); [apply touches_write_disk | apply touches_refl].
Qed.

Lemma frames_cursor_close paths c : frames paths (cursor_close c).
Proof. apply frames_ret. Qed.

Lemma connect_path p w db w' :
  aiosqlite_connect p w = (Return db, w') -> c_path db = p.
Proof. intros H. now rewrite (connect_fresh _ _ _ _ H). Qed.

Lemma commit_path db w db' w' :
  db_commit db w = (Return db', w') -> c_path db' = c_path db.
Proof.
  unfold db_commit. destruct (c_txn db); intros [= <- _]; reflexivity.
Qed.

Create HintDb frames.
#[local] Hint Resolve frames_ret frames_raise frames_logger_info frames_logger_error
  frames_os_path_exists frames_os_makedirs frames_connect frames_cursor_close
  : frames.

Lemma frames_provision_directory paths db_path :
  frames paths (provision_directory db_path).
Proof.
  unfold provision_directory.
  destruct (PyStr.is_empty _); [auto with frames |].
  apply frames_seq; [auto with frames |].
  intros [|]; [auto with frames |].
  apply frames_try.
  - apply frames_seq; auto with frames.
  - intros e. apply frames_seq; auto with frames.
Qed.

(** A connection on [db_path], opened, used for one statement and
    whatever follows it. *)
Lemma frames_connection {A B} db_path q params (k : Conn * Cursor -> M A)
      (k' : A -> M B) :
  (forall x, c_path (fst x) = db_path -> frames [db_path] (k x)) ->
  (forall a, frames [db_path] (k' a)) ->
  frames [db_path]
    (a <- async_with_connect db_path (fun db => x <- db_execute db q params ;; k x) ;;
     k' a).
Proof.
  intros Hk Hk'. unfold async_with_connect.
  apply frames_seq; [| exact Hk'].
  apply (frames_bind [db_path] (fun db => c_path db = db_path));
    [apply frames_connect | intros; eapply connect_path; eassumption |].
  intros db Hdb.
  apply (frames_bind [db_path] (fun x => c_path (fst x) = db_path)).
  - rewrite <- Hdb. apply frames_db_execute.
  - intros w [db' cur] w' He. simpl. rewrite <- Hdb. eapply execute_path; eassumption.
  - exact Hk.
Qed.

Lemma frames_run_query db_path query params fo fa c :
  frames [db_path] (run_query db_path query params fo fa c).
Proof.
  unfold run_query, async_with_connect.
  apply (frames_bind [db_path] (fun db => c_path db = db_path));
    [apply frames_connect | intros; eapply connect_path; eassumption |].
  intros db Hdb.
  apply (frames_bind [db_path] (fun x => c_path (fst x) = db_path)).
  - rewrite <- Hdb. apply frames_db_execute.
  - intros w [db' cur] w' He. simpl. rewrite <- Hdb. eapply execute_path; eassumption.
  - intros [db' cur] Hdb'. simpl in Hdb'.
    destruct c.
    + apply (frames_bind [db_path] (fun db2 => c_path db2 = db_path)).
      * rewrite <- Hdb'. apply frames_db_commit.
      * intros w db2 w' Hc. rewrite <- Hdb'. eapply commit_path; eassumption.
      * intros db2 Hdb2.
        destruct (is_insert query); [| auto with frames].
        apply frames_seq.
        -- rewrite <- Hdb2. apply frames_db_execute.
        -- intros [db3 cur3]. apply frames_seq; auto with frames.
    + destruct fo; [apply frames_seq; auto with frames |].
      destruct fa; apply frames_seq; auto with frames.
Qed.

Lemma frames_execute_query self db_path query params fo fa c :
  frames [db_path] (_execute_query self db_path query params fo fa c).
Proof.
  unfold _execute_query.
  apply frames_seq; [apply frames_provision_directory |].
  intros _. apply frames_try; [apply frames_run_query |].
  intros e. unfold query_failed. apply frames_seq; auto with frames.
Qed.

#[local] Hint Resolve frames_execute_query : frames.

(** A method of the shape [try: x = call; ...log...  except: log; return]. *)
Lemma frames_guarded {A B} paths (call : M B) (k : B -> M A) (h : exn -> M A) :
  frames paths call -> (forall b, frames paths (k b)) -> (forall e, frames paths (h e)) ->
  frames paths (try_except (bind call k) h).
Proof. intros. apply frames_try; [apply frames_seq |]; auto. Qed.

Lemma frames_insert_report_data self fn ct sp md st :
  frames [reports_db_path self] (insert_report_data self fn ct sp md st).
Proof.
  unfold insert_report_data. apply frames_guarded; auto with frames;
    intros; apply frames_seq; auto with frames.
Qed.

Lemma frames_update_report_status self id st pc :
  frames [reports_db_path self] (update_report_status self id st pc).
Proof.
  unfold update_report_status. apply frames_guarded; auto with frames;
    intros; apply frames_seq; auto with frames.
Qed.

Lemma frames_update_report_analysis self id an st :
  frames [reports_db_path self] (update_report_analysis self id an st).
Proof.
  unfold update_report_analysis. apply frames_guarded; auto with frames;
    intros; apply frames_seq; auto with frames.
Qed.

Lemma frames_check_report_exists self sp :
  frames [reports_db_path self] (check_report_exists_by_source_path self sp).
Proof.
  unfold check_report_exists_by_source_path. apply frames_guarded; auto with frames.
  intros; apply frames_seq; auto with frames.
Qed.

Lemma frames_insert_prompt_template self nm tx cat :
  frames [prompts_db_path self] (insert_prompt_template self nm tx cat).
Proof.
  unfold insert_prompt_template. apply frames_guarded; auto with frames;
    intros; apply frames_seq; auto with frames.
Qed.

Lemma frames_get_report_by_id self id :
  frames [reports_db_path self] (get_report_by_id self id).
Proof.
  unfold get_report_by_id. apply frames_try.
  - apply frames_connection.
    + intros [db cur] _. apply frames_seq; auto with frames.
    + intros [[| kv d] |]; auto with frames.
  - intros e. apply frames_seq; auto with frames.
Qed.

Lemma frames_get_prompt_template_by_name self name :
  frames [prompts_db_path self] (get_prompt_template_by_name self name).
Proof.
  unfold get_prompt_template_by_name. apply frames_try.
  - apply frames_connection.
    + intros [db cur] _. apply frames_seq; auto with frames.
    + intros [[| kv d] |]; auto with frames.
  - intros e. apply frames_seq; auto with frames.
Qed.

Lemma frames_get_all_prompt_templates self limit offset :
  frames [prompts_db_path self] (get_all_prompt_templates self limit offset).
Proof.
  unfold get_all_prompt_templates. apply frames_try.
  - apply frames_connection.
    + intros [db cur] _. apply frames_seq; auto with frames.
    + intros [| r l]; auto with frames.
  - intros e. apply frames_seq; auto with frames.
Qed.

Lemma frames_json_loads paths v : frames paths (json_loads v).
Proof.
  destruct v; simpl; auto with frames.
  destruct (Json.loads s); auto with frames.
Qed.

Lemma frames_metadata_merge paths j upd : frames paths (metadata_merge j upd).
Proof. destruct j; simpl; auto with frames. Qed.

Lemma frames_update_report_metadata self id upd :
  frames [reports_db_path self] (update_report_metadata self id upd).
Proof.
  unfold update_report_metadata.
  apply frames_seq; [apply frames_get_report_by_id |].
  intros [[| kv d] |]; try (apply frames_seq; auto with frames).
  apply frames_try.
  - apply frames_seq.
    + destruct (truthy _); [apply frames_json_loads | auto with frames].
    + intros j. apply frames_seq; [apply frames_metadata_merge |].
      intros j'. apply frames_seq; [auto with frames |].
      intros _. apply frames_seq; auto with frames.
  - intros e. destruct (is_JSONDecodeError e); apply frames_seq; auto with frames.
Qed.

Lemma frames_initialize_databases self :
  frames [reports_db_path self; prompts_db_path self] (initialize_databases self).
Proof.
  unfold initialize_databases, _create_reports_table, _create_prompts_table.
  apply frames_seq.
  - apply frames_seq; [| auto with frames].
    apply (frames_more _ [reports_db_path self]); [| auto with frames].
    intros p [<- | []]. now left.
  - intros _. apply frames_seq; [| auto with frames].
    apply frames_seq; [| auto with frames].
    apply (frames_more _ [prompts_db_path self]); [| auto with frames].
    intros p [<- | []]. right. now left.
Qed.

Lemma touches_disk paths w w' p :
  touches_only paths w w' -> ~ In p paths -> disk w' p = disk w p.
Proof.
  intros [_ [_ [_ [_ H]]]] Hp. unfold disk. now rewrite (H p Hp).
Qed.

Lemma not_in_one (p q : string) : p <> q -> ~ In p [q].
Proof. intros H [E | []]. now apply H. Qed.



(** X3.  Every method of the report repository touches at most the
    reports store, every method of the prompt repository at most the
    prompts store, and [initialize_databases] at most these two: no other
    file changes, no directory goes away, the clock is not touched.  So
    with two different paths a report method never changes the prompts
    store and a prompt method never changes the reports store. *)
Theorem repositories_keep_to_their_store self :
  (forall fn ct sp md st,
     frames [reports_db_path self] (insert_report_data self fn ct sp md st)) /\
  (forall id, frames [reports_db_path self] (get_report_by_id self id)) /\
  (forall id st pc,
     frames [reports_db_path self] (update_report_status self id st pc)) /\
  (forall id an st,
     frames [reports_db_path self] (update_report_analysis self id an st)) /\
  (forall id upd,
     frames [reports_db_path self] (update_report_metadata self id upd)) /\
  (forall sp,
     frames [reports_db_path self] (check_report_exists_by_source_path self sp)) /\
  (forall nm tx cat,
     frames [prompts_db_path self] (insert_prompt_template self nm tx cat)) /\
  (forall nm, frames [prompts_db_path self] (get_prompt_template_by_name self nm)) /\
  (forall limit offset,
     frames [prompts_db_path self] (get_all_prompt_templates self limit offset)) /\
  frames [reports_db_path self; prompts_db_path self] (initialize_databases self) /\
  (reports_db_path self <> prompts_db_path self ->
   forall w,
     (forall fn ct sp md st,
        disk (world_of (insert_report_data self fn ct sp md st w)) (prompts_db_path self)
        = disk w (prompts_db_path self)) /\
     (forall id upd,
        disk (world_of (update_report_metadata self id upd w)) (prompts_db_path self)
        = disk w (prompts_db_path self)) /\
     (forall nm tx cat,
        disk (world_of (insert_prompt_template self nm tx cat w)) (reports_db_path self)
        = disk w (reports_db_path self))).
Proof.
  split; [intros; apply frames_insert_report_data |].
  split; [intros; apply frames_get_report_by_id |].
  split; [intros; apply frames_update_report_status |].
  split; [intros; apply frames_update_report_analysis |].
  split; [intros; apply frames_update_report_metadata |].
  split; [intros; apply frames_check_report_exists |].
  split; [intros; apply frames_insert_prompt_template |].
  split; [intros; apply frames_get_prompt_template_by_name |].
  split; [intros; apply frames_get_all_prompt_templates |].
  split; [apply frames_initialize_databases |].
  intros Hne w. split; [| split]; intros.
  - eapply touches_disk; [apply frames_insert_report_data |].
    apply not_in_one. congruence.
  - eapply touches_disk; [apply frames_update_report_metadata |].
    apply not_in_one. congruence.
  - eapply touches_disk; [apply frames_insert_prompt_template |].
    now apply not_in_one.
Qed.

(** Inserting a prompt template into the stocked installation leaves the
    stored report where it is. *)
Lemma repositories_keep_to_their_store_witness :
  reports (disk (world_of (insert_prompt_template Scenario.dal "p" "text" None
                             Scenario.stocked)) "data/reports.sqlite")
  = Some Scenario.stocked_reports.
Proof.
  destruct (repositories_keep_to_their_store Scenario.dal)
    as [_ [_ [_ [_ [_ [_ [_ [_ [_ [_ H]]]]]]]]]].
  destruct (H ltac:(discriminate) Scenario.stocked) as [_ [_ Hp]].
  change "data/reports.sqlite" with (reports_db_path Scenario.dal).
  rewrite Hp. vm_compute. reflexivity.
Defined.

(** ** Reads write nothing *)

Lemma select_report_reads_only id : reads_only (Sql.SelectReport id).
Proof. intros t s l. simpl. unfold Sql.on_reports. now destruct (reports s). Qed.

Lemma exists_source_reads_only sp : reads_only (Sql.ExistsSource sp).
Proof. intros t s l. simpl. unfold Sql.on_reports. now destruct (reports s). Qed.

Lemma select_prompt_reads_only nm : reads_only (Sql.SelectPrompt nm).
Proof. intros t s l. simpl. unfold Sql.on_prompts. now destruct (prompt_templates s). Qed.

Lemma list_prompts_reads_only limit offset : reads_only (Sql.ListPrompts limit offset).
Proof. intros t s l. simpl. unfold Sql.on_prompts. now destruct (prompt_templates s). Qed.

Lemma decode_select_prompt nm :
  Sql.decode Sql.select_prompt [PyStr nm] = Sql.Known (Sql.SelectPrompt (Some nm)).
Proof. reflexivity. Qed.

Lemma execute_read_only db q params st w :
  Sql.decode q params = Sql.Known st -> reads_only st ->
  world_of (db_execute db q params w) = w.
Proof.
  intros Hd Hr. unfold db_execute, sqlite_step. rewrite Hd.
  specialize (Hr (now w) (visible w db) (c_last_rowid db)).
  destruct (Sql.run st _ _ _) as [[[[s' |] last] c] | e]; [elim Hr | |]; reflexivity.
Qed.

(** A read that opens its own connection changes nothing but the log. *)
Lemma direct_read_files {A B} path q params st (k : Conn * Cursor -> M B)
      (k' : B -> M A) (h : exn -> M A) w :
  Sql.decode q params = Sql.Known st -> reads_only st ->
  (forall x w1, world_of (k x w1) = w1) ->
  (forall x w1, world_of (k' x w1) = w1) ->
  (forall e w1, files (world_of (h e w1)) = files w1) ->
  files (world_of
           (try_except
              (row <- async_with_connect path
                        (fun db => x <- db_execute db q params ;; k x) ;;
               k' row) h w)) = files w.
Proof.
  intros Hd Hr Hk Hk' Hh.
  unfold try_except, async_with_connect, bind.
  destruct (aiosqlite_connect path w) as [[db | e] w0] eqn:Ec;
    apply connect_world in Ec; subst w0; [| apply Hh].
  pose proof (execute_read_only db q params st w Hd Hr) as He.
  destruct (db_execute db q params w) as [[x | e] w1]; simpl in He; subst w1;
    [| apply Hh].
  specialize (Hk x w). destruct (k x w) as [[b | e] w2]; simpl in Hk; subst w2;
    [| apply Hh].
  specialize (Hk' b w). destruct (k' b w) as [[a | e] w3]; simpl in Hk'; subst w3;
    [reflexivity | apply Hh].
Qed.

Lemma provision_files db_path w :
  files (world_of (provision_directory db_path w)) = files w.
Proof.
  unfold provision_directory.
  destruct (PyStr.is_empty _); [reflexivity |].
  unfold bind, os_path_exists, try_except, os_makedirs.
  destruct (_ || _); [reflexivity |].
  destruct (mkdir_denied w _); reflexivity.
Qed.


(** ** Failures of the schema initializer *)

Lemma mem_keys_set {V} (d k : string) (v : V) (f : pydict V) :
  d <> k -> mem d (Dict.keys (Dict.set k v f)) = mem d (Dict.keys f).
Proof.
  intros Hne. rewrite keys_set.
  destruct (mem k (Dict.keys f)); [reflexivity |].
  rewrite mem_app. simpl. apply String.eqb_neq in Hne. rewrite Hne.
  now rewrite !orb_false_r.
Qed.

(** [_create_reports_table] leaves the directories and the environment
    alone, and the names of the other files. *)
Lemma create_reports_table_env self w w1 :
  connectable w (reports_db_path self) = true ->
  _create_reports_table self w = (Return tt, w1) ->
  dirs w1 = dirs w /\ mkdir_denied w1 = mkdir_denied w /\
  (forall d, d <> reports_db_path self ->
             mem d (Dict.keys (files w1)) = mem d (Dict.keys (files w))).
Proof.
  intros Hc. unfold _create_reports_table.
  destruct (reports (disk w (reports_db_path self))) as [tb |] eqn:Et.
  - erewrite bind_return;
      [| eapply executor_commits_nothing;
         [exact Hc | apply decode_create_reports | cbn [Sql.run]; now rewrite Et]].
    intros [= <-]. auto.
  - erewrite bind_return;
      [| eapply executor_writes;
         [exact Hc | apply decode_create_reports | cbn [Sql.run]; now rewrite Et]].
    intros [= <-]. repeat split.
    intros d Hd. simpl. now apply mem_keys_set.
Qed.

(** X5.  [initialize_databases] does not catch what the executor raises.
    When the directory of the reports store is missing and cannot be
    created it raises the operating system's error, having logged it once
    and done nothing else.  When only the directory of the prompts store
    is the one that cannot be created, it raises as well, after the
    reports table has been created. *)
Theorem initialize_databases_raises self w msg :
  (PyStr.is_empty (OsPath.dirname (reports_db_path self)) = false ->
   os_path_exists (OsPath.dirname (reports_db_path self)) w = (Return false, w) ->
   mkdir_denied w (OsPath.dirname (reports_db_path self)) = Some msg ->
   initialize_databases self w =
   (Raise (mk_exn OSError msg),
    logged w (mk_log ERROR "_execute_query" [("db_path", reports_db_path self)]
                     (Some (mk_exn OSError msg)) true))) /\
  (connectable w (reports_db_path self) = true ->
   PyStr.is_empty (OsPath.dirname (prompts_db_path self)) = false ->
   os_path_exists (OsPath.dirname (prompts_db_path self)) w = (Return false, w) ->
   OsPath.dirname (prompts_db_path self) <> reports_db_path self ->
   mkdir_denied w (OsPath.dirname (prompts_db_path self)) = Some msg ->
   exists w',
     initialize_databases self w = (Raise (mk_exn OSError msg), w') /\
     reports (disk w' (reports_db_path self)) =
       Some (ensured (reports (disk w (reports_db_path self)))) /\
     prompt_templates (disk w' (prompts_db_path self)) =
       prompt_templates (disk w (prompts_db_path self))).
Proof.
  split.
  - intros Hn Hm Hd.
    unfold initialize_databases, _create_reports_table, _execute_query.
    erewrite bind_raise; [reflexivity |].
    erewrite bind_raise; [reflexivity |].
    erewrite bind_raise; [reflexivity |].
    now apply provision_denied.
  - intros Hc Hn Hm Hne Hd.
    destruct (create_reports_table_runs self w Hc) as [wa [Ha [_ [Hda _]]]].
    destruct (create_reports_table_env self w wa Hc Ha) as [Hdirs [Hden Hkeys]].
    assert (Hm' : os_path_exists (OsPath.dirname (prompts_db_path self)) wa
                  = (Return false, wa)).
    { unfold os_path_exists in *. injection Hm as Hm.
      now rewrite Hdirs, (Hkeys _ Hne), Hm. }
    eexists. split.
    + unfold initialize_databases.
      rewrite (bind_return _ _ _ _ _ Ha).
      unfold _create_prompts_table, _execute_query.
      erewrite bind_raise; [reflexivity |].
      erewrite bind_raise; [reflexivity |].
      erewrite bind_raise; [reflexivity |].
      apply provision_denied; [exact Hn | exact Hm' | now rewrite Hden].
    + rewrite !disk_logged, !Hda, String.eqb_refl. split; [reflexivity |].
      now destruct (String.eqb _ _).
Qed.

(** Where no directory can be created: the usual installation cannot be
    initialized at all; one whose reports store sits in the working
    directory gets its reports table and then fails. *)
Lemma initialize_databases_raises_witness :
  result_of (initialize_databases Scenario.dal Scenario.locked)
  = Raise (mk_exn OSError "Permission denied") /\
  exists w',
    initialize_databases (mk_dal "reports.sqlite" "data/prompts.sqlite") Scenario.locked
    = (Raise (mk_exn OSError "Permission denied"), w') /\
    reports (disk w' "reports.sqlite") = Some (mk_table [] 0).
Proof.
  split.
  - destruct (initialize_databases_raises Scenario.dal Scenario.locked
                "Permission denied") as [H _].
    now rewrite (H eq_refl eq_refl eq_refl).
  - destruct (initialize_databases_raises
                (mk_dal "reports.sqlite" "data/prompts.sqlite") Scenario.locked
                "Permission denied") as [_ H].
    destruct H as [w' [Hi [Hr _]]];
      [reflexivity | reflexivity | reflexivity | discriminate | reflexivity |].
    exists w'. split; [exact Hi | exact Hr].
Defined.

(** ** Reports: insert, read, update *)

Lemma max_key_nonneg {A} (key : A -> Z) l : 0 <= Sql.max_key key l.
Proof. induction l as [| a l IH]; simpl; lia. Qed.

Lemma next_key_positive {A} (key : A -> Z) (tb : table A) : 0 < Sql.next_key key tb.
Proof. pose proof (max_key_nonneg key (rows tb)). unfold Sql.next_key. lia. Qed.

Lemma next_key_above {A} (key : A -> Z) (tb : table A) r :
  In r (rows tb) -> key r < Sql.next_key key tb.
Proof.
  intros H. pose proof (max_key_bound key _ _ H). unfold Sql.next_key. lia.
Qed.

Lemma find_report_appended_other id' (l : list report) r sq sq' :
  r_id r <> id' ->
  find_report id' (mk_table (l ++ [r]) sq) = find_report id' (mk_table l sq').
Proof.
  intros Hne. unfold find_report; simpl.
  induction l as [| a l IH]; simpl.
  - apply Z.eqb_neq in Hne. now rewrite Hne.
  - now destruct (r_id a =? id').
Qed.



Lemma find_report_updated_other id id' f (tb : table report) :
  keeps_identity f -> id' <> id ->
  find_report id' (Sql.update_where_id id f tb) = find_report id' tb.
Proof.
  intros Hf Hne. unfold find_report, Sql.update_where_id; simpl.
  induction (rows tb) as [| r l IH]; simpl; auto.
  destruct (Z.eqb_spec (r_id r) id) as [E | E].
  - destruct (Hf r) as [-> _]. rewrite E.
    assert (Hid : (id =? id') = false) by (apply Z.eqb_neq; congruence).
    rewrite Hid. exact IH.
  - destruct (r_id r =? id'); auto.
Qed.

Lemma exists_source_updated id f sp (tb : table report) :
  keeps_identity f ->
  existsb (fun r => Sql.opt_eqb (r_source_path r) (Some sp))
          (rows (Sql.update_where_id id f tb)) =
  existsb (fun r => Sql.opt_eqb (r_source_path r) (Some sp)) (rows tb).
Proof.
  intros Hf. unfold Sql.update_where_id; simpl.
  induction (rows tb) as [| r l IH]; simpl; auto.
  rewrite IH. f_equal.
  destruct (r_id r =? id); [| reflexivity].
  now destruct (Hf r) as [_ [_ ->]].
Qed.

Lemma update_where_id_same id (tb : table report) :
  Sql.update_where_id id (fun r => r) tb = tb.
Proof.
  destruct tb as [l sq]. unfold Sql.update_where_id; simpl. f_equal.
  induction l as [| r l IH]; simpl; [reflexivity |].
  rewrite IH. now destruct (r_id r =? id).
Qed.

Lemma keeps_identity_id : keeps_identity (fun r => r).
Proof. intros r. auto. Qed.

Lemma keeps_identity_status s t : keeps_identity (Sql.set_status s t).
Proof. intros r. auto. Qed.

Lemma keeps_identity_status_content s c t :
  keeps_identity (Sql.set_status_content s c t).
Proof. intros r. auto. Qed.

Lemma keeps_identity_analysis a s t : keeps_identity (Sql.set_analysis a s t).
Proof. intros r. auto. Qed.

Lemma keeps_identity_metadata m t : keeps_identity (Sql.set_metadata m t).
Proof. intros r. auto. Qed.

Section Updates.
Variables (self : DataAccessLayer) (w : World) (tb : table report).
Hypothesis Hopen : connectable w (reports_db_path self) = true.
Hypothesis Htable : reports (disk w (reports_db_path self)) = Some tb.

Lemma status_updated_by id st pc :
  updated_by self id tb w (world_of (update_report_status self id st pc w)).
Proof.
  rewrite (update_report_status_writes self w tb Hopen Htable).
  eexists. split; [| split; [exact Hopen |]].
  2: { unfold world_of, snd. rewrite disk_logged_written. reflexivity. }
  destruct pc; [apply keeps_identity_status_content | apply keeps_identity_status].
Qed.

Lemma analysis_updated_by id an st :
  updated_by self id tb w (world_of (update_report_analysis self id an st w)).
Proof.
  rewrite (update_report_analysis_writes self w tb Hopen Htable).
  eexists. split; [| split; [exact Hopen |]].
  2: { unfold world_of, snd. rewrite disk_logged_written. reflexivity. }
  apply keeps_identity_analysis.
Qed.

Lemma unchanged_updated_by id rec :
  updated_by self id tb w (logged w rec).
Proof.
  exists (fun r => r). split; [apply keeps_identity_id |].
  split; [exact Hopen |].
  rewrite disk_logged, update_where_id_same. exact Htable.
Qed.

Lemma metadata_updated_by id upd :
  updated_by self id tb w (world_of (update_report_metadata self id upd w)).
Proof.
  destruct (find_report id tb) as [r |] eqn:Ef.
  - rewrite (update_report_metadata_found self w tb id r upd Hopen Htable Ef).
    destruct (stored_metadata (r_metadata r)) as [[| b | n | x | x | xs | cur] | e];
      try apply unchanged_updated_by.
    eexists. split; [apply keeps_identity_metadata |]. split; [exact Hopen |].
    unfold world_of, snd. rewrite disk_logged_written. reflexivity.
  - unfold update_report_metadata.
    rewrite (bind_return _ _ _ _ _ (get_report_by_id_reads self w tb Hopen Htable id)).
    rewrite Ef. apply unchanged_updated_by.
Qed.

(** After such an update the other reports read as before, and so does
    the existence check. *)
Lemma updated_by_frame id w' :
  updated_by self id tb w w' ->
  (forall id' t, id' <> id ->
     result_of (get_report_by_id self id' (with_now w' t)) =
     result_of (get_report_by_id self id' w)) /\
  (forall sp t,
     result_of (check_report_exists_by_source_path self sp (with_now w' t)) =
     result_of (check_report_exists_by_source_path self sp w)).
Proof.
  intros [f [Hf [Hc Hd]]]. split.
  - intros id' t Hne.
    rewrite (get_report_by_id_reads self (with_now w' t) _ Hc Hd).
    rewrite (get_report_by_id_reads self w tb Hopen Htable).
    unfold result_of, fst. now rewrite find_report_updated_other.
  - intros sp t.
    rewrite (check_report_exists_reads self (with_now w' t) _ Hc Hd).
    rewrite (check_report_exists_reads self w tb Hopen Htable).
    unfold result_of, fst. now rewrite exists_source_updated.
Qed.

End Updates.

(** X7.  On a store that can be opened and has the table, each of the
    three updates of a report ([update_report_status],
    [update_report_analysis], [update_report_metadata]), whether it changes
    rows or not, leaves every report of another key reading as before, then
    or later, and leaves the existence check by source path answering as
    before for every path. *)
Theorem updates_leave_other_reports self w tb id :
  connectable w (reports_db_path self) = true ->
  reports (disk w (reports_db_path self)) = Some tb ->
  forall w',
    (exists st pc, w' = world_of (update_report_status self id st pc w)) \/
    (exists an st, w' = world_of (update_report_analysis self id an st w)) \/
    (exists upd, w' = world_of (update_report_metadata self id upd w)) ->
    (forall id' t, id' <> id ->
       result_of (get_report_by_id self id' (with_now w' t)) =
       result_of (get_report_by_id self id' w)) /\
    (forall sp t,
       result_of (check_report_exists_by_source_path self sp (with_now w' t)) =
       result_of (check_report_exists_by_source_path self sp w)).
Proof.
  intros Hopen Htable w' H.
  apply (updated_by_frame self w tb Hopen Htable id).
  destruct H as [[st [pc ->]] | [[an [st ->]] | [upd ->]]].
  - now apply status_updated_by.
  - now apply analysis_updated_by.
  - now apply metadata_updated_by.
Qed.

(** With two reports stored, an update of the second leaves the first. *)
Lemma updates_leave_other_reports_witness :
  let w := world_of (insert_report_data Scenario.dal "c.txt" None "/in/c.txt" None "new"
                                        Scenario.stocked) in
  result_of (get_report_by_id Scenario.dal 1
               (with_now (world_of (update_report_analysis Scenario.dal 2 "{}" "done" w))
                         160))
  = Return (Some (report_dict Scenario.first_report)).
Proof.
  intros w.
  edestruct (updates_leave_other_reports Scenario.dal w
               (mk_table [Scenario.first_report;
                          mk_report 2 "c.txt" None (Some "/in/c.txt") 100 (Some "new")
                                    None None] 2) 2) as [H _].
  - vm_compute. reflexivity.
  - vm_compute. reflexivity.
  - right. left. exists "{}", "done". reflexivity.
  - rewrite (H 1 160) by discriminate. vm_compute. reflexivity.
Defined.

(** X8.  For a report that exists, in a store that can be opened:
    [update_report_analysis] returns [True] and a read of the key, then or
    later, has the analysis text and the status that were passed and the
    time of the update, with file name, content, source path and metadata
    as they were; [update_report_status] returns [True] and the read has
    file name, source path, metadata and analysis as they were. *)
Theorem updates_rewrite_named_columns self w tb id r :
  connectable w (reports_db_path self) = true ->
  reports (disk w (reports_db_path self)) = Some tb ->
  find_report id tb = Some r ->
  (forall an st,
     exists w',
       update_report_analysis self id an st w = (Return true, w') /\
       forall t,
         get_report_by_id self id (with_now w' t) =
         (Return (Some [("id", PyInt (r_id r));
                        ("original_filename", PyStr (r_original_filename r));
                        ("content", Sql.of_text (r_content r));
                        ("source_path", Sql.of_text (r_source_path r));
                        ("processed_at", PyTimestamp (now w));
                        ("status", PyStr st);
                        ("metadata", Sql.of_text (r_metadata r));
                        ("analysis_json", PyStr an)]),
          with_now w' t)) /\
  (forall st pc,
     exists w',
       update_report_status self id st pc w = (Return true, w') /\
       forall t,
         get_report_by_id self id (with_now w' t) =
         (Return (Some [("id", PyInt (r_id r));
                        ("original_filename", PyStr (r_original_filename r));
                        ("content", match pc with
                                    | Some c => PyStr c
                                    | None => Sql.of_text (r_content r)
                                    end);
                        ("source_path", Sql.of_text (r_source_path r));
                        ("processed_at", PyTimestamp (now w));
                        ("status", PyStr st);
                        ("metadata", Sql.of_text (r_metadata r));
                        ("analysis_json", Sql.of_text (r_analysis_json r))]),
          with_now w' t)).
Proof.
  intros Hopen Htable Hfind. split.
  - intros an st.
    rewrite (update_report_analysis_writes self w tb Hopen Htable).
    eexists. split; [reflexivity |]. intros t.
    erewrite written_world_reads; [| exact Hopen | reflexivity].
    rewrite find_report_updated by reflexivity.
    now rewrite Hfind.
  - intros st pc.
    rewrite (update_report_status_writes self w tb Hopen Htable).
    eexists. split; [reflexivity |]. intros t.
    erewrite written_world_reads; [| exact Hopen | reflexivity].
    rewrite find_report_updated by (now destruct pc).
    rewrite Hfind. now destruct pc.
Qed.

(** The report of the stocked installation gets its analysis. *)
Lemma updates_rewrite_named_columns_witness :
  exists w' d,
    update_report_analysis Scenario.dal 1 "{}" "analysed" Scenario.stocked
    = (Return true, w') /\
    result_of (get_report_by_id Scenario.dal 1 (with_now w' 160)) = Return (Some d) /\
    Dict.get "analysis_json" d = Some (PyStr "{}") /\
    Dict.get "content" d = Some (PyStr "text").
Proof.
  destruct (updates_rewrite_named_columns Scenario.dal Scenario.stocked
              Scenario.stocked_reports 1 Scenario.first_report) as [H _];
    [vm_compute; reflexivity | vm_compute; reflexivity | reflexivity |].
  destruct (H "{}" "analysed") as [w' [Hu Hg]].
  exists w'. eexists. split; [exact Hu |].
  rewrite (Hg 160). repeat split.
Defined.

(** ** Prompt templates: insert and read *)

Lemma decode_insert_prompt nm tx cat :
  Sql.decode Sql.insert_prompt [PyStr nm; PyStr tx; Sql.of_text cat] =
  Sql.Known (Sql.InsertPrompt (Some nm) (Some tx) cat).
Proof. destruct cat; reflexivity. Qed.

Lemma prompt_row_dict p :
  dict_of_row (combine Sql.prompt_columns (Sql.prompt_cells p)) = prompt_dict p.
Proof. reflexivity. Qed.

Lemma existsb_name_find nm (tb : table prompt_template) :
  existsb (fun p => String.eqb (p_name p) nm) (rows tb) =
  match find_prompt nm tb with Some _ => true | None => false end.
Proof.
  unfold find_prompt. induction (rows tb) as [| p l IH]; simpl; auto.
  now destruct (String.eqb (p_name p) nm).
Qed.

Section PromptsTable.
Variables (self : DataAccessLayer) (w : World) (tb : table prompt_template).
Hypothesis Hopen : connectable w (prompts_db_path self) = true.
Hypothesis Htable : prompt_templates (disk w (prompts_db_path self)) = Some tb.

Lemma get_prompt_template_by_name_reads nm :
  get_prompt_template_by_name self nm w =
  (Return (option_map prompt_dict (find_prompt nm tb)), w).
Proof.
  unfold get_prompt_template_by_name, async_with_connect.
  erewrite try_return; [reflexivity |].
  unfold bind.
  rewrite (connect_connectable _ _ Hopen).
  rewrite (execute_known _ _ _ _ _ (decode_select_prompt nm)).
  cbn [Sql.run]. unfold Sql.on_prompts. rewrite Htable.
  unfold fetchone_row, fetchone, cursor_close, ret.
  cbn [result_rows description option_map].
  rewrite hd_error_map, hd_error_filter.
  unfold find_prompt. cbn [Sql.opt_eqb].
  destruct (find _ (rows tb)) as [p |]; [| reflexivity].
  cbn [option_map]. now rewrite <- prompt_row_dict.
Qed.

Lemma insert_prompt_template_writes nm tx cat :
  find_prompt nm tb = None ->
  insert_prompt_template self nm tx cat w =
  (Return (Val (PyInt (Sql.next_key p_id tb))),
   logged (write_disk w (prompts_db_path self)
             (Sql.put_prompts (disk w (prompts_db_path self))
                (mk_table (rows tb ++ [mk_prompt (Sql.next_key p_id tb) nm tx cat
                                                 (now w) (now w)])
                          (Sql.next_key p_id tb))))
          (success_record "insert_prompt_template"
             [("prompt_name", nm); ("operation", "insert_prompt_template")])).
Proof.
  intros Hnone. unfold insert_prompt_template.
  erewrite try_return; [reflexivity |].
  erewrite bind_return; [reflexivity |].
  erewrite executor_writes; [| exact Hopen | apply decode_insert_prompt |].
  - reflexivity.
  - cbn [Sql.run]. unfold Sql.on_prompts. rewrite Htable.
    now rewrite existsb_name_find, Hnone.
Qed.

Lemma insert_prompt_template_refused nm tx cat p :
  find_prompt nm tb = Some p ->
  let e := Sql.integrity "UNIQUE constraint failed: prompt_templates.name" in
  insert_prompt_template self nm tx cat w =
  (Return (Val PyNone),
   logged (logged w (query_error_record (prompts_db_path self) Sql.insert_prompt e))
          (mk_log ERROR "insert_prompt_template"
                  [("prompt_name", nm); ("operation", "insert_prompt_template");
                   ("db_operation_status", "failure")] (Some e) false)).
Proof.
  intros Hsome e. unfold insert_prompt_template.
  erewrite try_raise; [reflexivity |].
  erewrite bind_raise; [reflexivity |].
  eapply executor_refused; [exact Hopen | apply decode_insert_prompt |].
  cbn [Sql.run]. unfold Sql.on_prompts. rewrite Htable.
  now rewrite existsb_name_find, Hsome.
Qed.

End PromptsTable.

Lemma written_world_reads_prompt self w s rec t tb' nm :
  connectable w (prompts_db_path self) = true ->
  prompt_templates s = Some tb' ->
  let w' := with_now (logged (write_disk w (prompts_db_path self) s) rec) t in
  get_prompt_template_by_name self nm w' =
  (Return (option_map prompt_dict (find_prompt nm tb')), w').
Proof.
  intros Hopen Hs w'.
  apply get_prompt_template_by_name_reads.
  - exact Hopen.
  - unfold w'.
    change (prompt_templates (disk (logged (write_disk w (prompts_db_path self) s) rec)
                                   (prompts_db_path self)) = Some tb').
    now rewrite disk_logged_written.
Qed.

Lemma find_prompt_appended nm (l : list prompt_template) p sq :
  find (fun q => String.eqb (p_name q) nm) l = None -> p_name p = nm ->
  find_prompt nm (mk_table (l ++ [p]) sq) = Some p.
Proof.
  intros Hl Hp. unfold find_prompt; simpl.
  induction l as [| a l IH]; simpl in *.
  - now rewrite Hp, String.eqb_refl.
  - destruct (String.eqb (p_name a) nm); [discriminate | now apply IH].
Qed.

Lemma find_prompt_appended_other nm' (l : list prompt_template) p sq sq' :
  p_name p <> nm' ->
  find_prompt nm' (mk_table (l ++ [p]) sq) = find_prompt nm' (mk_table l sq').
Proof.
  intros Hne. unfold find_prompt; simpl.
  induction l as [| a l IH]; simpl.
  - apply String.eqb_neq in Hne. now rewrite Hne.
  - now destruct (String.eqb (p_name a) nm').
Qed.

(** X9.  On a store that can be opened and has the table, inserting a
    prompt template under a name no template has returns a positive key
    larger than every key in the table; [get_prompt_template_by_name] of
    that name, then or later, returns the values that were passed with the
    time of the insert as both [created_at] and [updated_at]; the read of
    any other name returns what it returned before. *)
Theorem inserted_prompt_reads_back self w tb nm tx cat :
  connectable w (prompts_db_path self) = true ->
  prompt_templates (disk w (prompts_db_path self)) = Some tb ->
  find_prompt nm tb = None ->
  exists id w',
    insert_prompt_template self nm tx cat w = (Return (Val (PyInt id)), w') /\
    0 < id /\
    (forall p, In p (rows tb) -> p_id p < id) /\
    (forall t,
       get_prompt_template_by_name self nm (with_now w' t) =
       (Return (Some [("id", PyInt id); ("name", PyStr nm);
                      ("template_text", PyStr tx);
                      ("category", Sql.of_text cat);
                      ("created_at", PyTimestamp (now w));
                      ("updated_at", PyTimestamp (now w))]),
        with_now w' t)) /\
    (forall nm' t,
       nm' <> nm ->
       result_of (get_prompt_template_by_name self nm' (with_now w' t)) =
       result_of (get_prompt_template_by_name self nm' w)).
Proof.
  intros Hopen Htable Hnone.
  rewrite (insert_prompt_template_writes self w tb Hopen Htable nm tx cat Hnone).
  set (id := Sql.next_key p_id tb).
  set (p := mk_prompt id nm tx cat (now w) (now w)).
  eexists id, _. split; [reflexivity |].
  split; [apply next_key_positive |].
  split; [intros x Hx; now apply next_key_above |].
  split.
  - intros t.
    erewrite written_world_reads_prompt; [| exact Hopen | reflexivity].
    now rewrite (find_prompt_appended nm (rows tb) p id Hnone eq_refl).
  - intros nm' t Hne.
    erewrite written_world_reads_prompt; [| exact Hopen | reflexivity].
    rewrite (get_prompt_template_by_name_reads self w tb Hopen Htable).
    unfold result_of, fst. f_equal. f_equal.
    rewrite (find_prompt_appended_other nm' (rows tb) p id (seq tb))
      by (simpl; congruence).
    now destruct tb.
Qed.

(** A sixth template goes in under key 6. *)
Lemma inserted_prompt_reads_back_witness :
  exists w' d,
    insert_prompt_template Scenario.dal "p6" "six" (Some "misc") Scenario.five
    = (Return (Val (PyInt 6)), w') /\
    result_of (get_prompt_template_by_name Scenario.dal "p6" (with_now w' 200))
    = Return (Some d) /\
    Dict.get "template_text" d = Some (PyStr "six") /\
    Dict.get "created_at" d = Some (PyTimestamp 105).
Proof.
  destruct (inserted_prompt_reads_back Scenario.dal Scenario.five Scenario.five_prompts
              "p6" "six" (Some "misc"))
    as [id [w' [Hi [_ [_ [Hg _]]]]]];
    [vm_compute; reflexivity | vm_compute; reflexivity | reflexivity |].
  assert (Hid : id = 6).
  { assert (H6 : result_of (insert_prompt_template Scenario.dal "p6" "six" (Some "misc")
                              Scenario.five) = Return (Val (PyInt 6)))
      by (vm_compute; reflexivity).
    rewrite Hi in H6. now inversion H6. }
  subst id. exists w'. eexists. split; [exact Hi |].
  rewrite (Hg 200). repeat split.
Defined.

(** X10.  Inserting a prompt template under a name that is taken returns
    [None]: SQLite refuses it for the UNIQUE constraint, the executor logs
    the error with its traceback, the method logs it once more without, no
    store file changes, and every name reads as before, the first template
    of that name included. *)
Theorem duplicate_prompt_is_refused self w tb nm tx cat p :
  connectable w (prompts_db_path self) = true ->
  prompt_templates (disk w (prompts_db_path self)) = Some tb ->
  find_prompt nm tb = Some p ->
  exists w' r1 r2 e,
    insert_prompt_template self nm tx cat w = (Return (Val PyNone), w') /\
    exc_class e = IntegrityError /\
    log w' = log w ++ [r1; r2] /\
    failure_record r1 "_execute_query" e /\ lg_exc_info r1 = true /\
    failure_record r2 "insert_prompt_template" e /\ lg_exc_info r2 = false /\
    files w' = files w /\
    (forall nm' t,
       get_prompt_template_by_name self nm' (with_now w' t) =
       (Return (option_map prompt_dict (find_prompt nm' tb)), with_now w' t)) /\
    result_of (get_prompt_template_by_name self nm w') = Return (Some (prompt_dict p)).
Proof.
  intros Hopen Htable Hsome.
  rewrite (insert_prompt_template_refused self w tb Hopen Htable nm tx cat p Hsome).
  set (e := Sql.integrity "UNIQUE constraint failed: prompt_templates.name").
  eexists _, (query_error_record (prompts_db_path self) Sql.insert_prompt e),
    (mk_log ERROR "insert_prompt_template"
            [("prompt_name", nm); ("operation", "insert_prompt_template");
             ("db_operation_status", "failure")] (Some e) false), e.
  split; [reflexivity |].
  split; [reflexivity |].
  split; [simpl; now rewrite <- app_assoc |].
  split; [now repeat split |]. split; [reflexivity |].
  split; [now repeat split |]. split; [reflexivity |].
  split; [reflexivity |].
  split.
  - intros nm' t. now apply get_prompt_template_by_name_reads.
  - rewrite (get_prompt_template_by_name_reads self _ tb); [now rewrite Hsome | |];
      assumption.
Qed.

(** A second "p3" is refused; the first is still there. *)
Lemma duplicate_prompt_is_refused_witness :
  result_of (insert_prompt_template Scenario.dal "p3" "again" None Scenario.five)
  = Return (Val PyNone) /\
  exists d,
    result_of (get_prompt_template_by_name Scenario.dal "p3"
                 (world_of (insert_prompt_template Scenario.dal "p3" "again" None
                                                   Scenario.five)))
    = Return (Some d) /\
    Dict.get "template_text" d = Some (PyStr "text").
Proof.
  destruct (duplicate_prompt_is_refused Scenario.dal Scenario.five Scenario.five_prompts
              "p3" "again" None (mk_prompt 3 "p3" "text" None 103 103))
    as [w' [r1 [r2 [e [Hi [_ [_ [_ [_ [_ [_ [_ [_ Hg]]]]]]]]]]]]];
    [vm_compute; reflexivity | vm_compute; reflexivity | reflexivity |].
  rewrite Hi. split; [reflexivity |].
  eexists. split; [exact Hg | reflexivity].
Defined.

(** ** Lookups that find nothing *)

Lemma find_prompt_none nm tb :
  find_prompt nm tb = None <-> (forall p, In p (rows tb) -> p_name p <> nm).
Proof.
  unfold find_prompt. split.
  - intros H p Hin E. apply (find_none _ _ H) in Hin. simpl in Hin.
    rewrite E, String.eqb_refl in Hin. discriminate.
  - intros H. destruct (find _ (rows tb)) as [p |] eqn:E; [| reflexivity].
    apply find_some in E as [Hin E]. apply String.eqb_eq in E.
    exfalso. now apply (H p).
Qed.



(** ** The executor without [commit] *)

(** X12.  A statement of the module that writes, run through the
    executor on a store that can be opened: with [commit=False] an INSERT
    or UPDATE returns normally and the store file is left as it was (the
    connection is closed on its open transaction); a statement SQLite runs
    outside a transaction (CREATE TABLE) is stored all the same; with
    [commit=True] either is stored. *)
Theorem uncommitted_write_is_dropped self path q params st w s' last cur fo fa :
  connectable w path = true ->
  Sql.decode q params = Sql.Known st ->
  Sql.run st (now w) (disk w path) 0 = Return (Some s', last, cur) ->
  (Sql.is_dml q = true ->
   _execute_query self path q params fo fa false w =
   (Return (if fo then match fetchone cur with Some r => Row r | None => Val PyNone end
            else if fa then RowList (fetchall cur) else Val PyNone), w)) /\
  (Sql.is_dml q = false ->
   world_of (_execute_query self path q params fo fa false w) = write_disk w path s') /\
  world_of (_execute_query self path q params fo fa true w) = write_disk w path s'.
Proof.
  intros Hc Hd Hr.
  assert (Hcall : forall db' w2,
             db_execute (mk_conn path None 0) q params w = (Return (db', cur), w2) ->
             _execute_query self path q params fo fa false w =
             (Return (if fo then match fetchone cur with
                                 | Some r => Row r
                                 | None => Val PyNone
                                 end
                      else if fa then RowList (fetchall cur) else Val PyNone), w2)).
  { intros db' w2 He. unfold _execute_query.
    rewrite (bind_return _ _ _ _ _ (provision_connectable _ _ Hc)).
    unfold try_except.
    rewrite (run_query_after_execute path q params fo fa false w
               (mk_conn path None 0) db' cur w2 (connect_connectable _ _ Hc) He).
    destruct fo; [reflexivity |]. destruct fa; reflexivity. }
  split; [| split].
  - intros Hdml. eapply Hcall.
    rewrite (execute_known _ _ _ _ _ Hd), Hr, Hdml. reflexivity.
  - intros Hdml. erewrite Hcall; [reflexivity |].
    rewrite (execute_known _ _ _ _ _ Hd), Hr, Hdml. reflexivity.
  - now rewrite (executor_writes self path q params st w s' last cur fo fa Hc Hd Hr).
Qed.

(** An INSERT of a report without [commit] leaves the stocked
    installation as it was. *)
Lemma uncommitted_write_is_dropped_witness :
  _execute_query Scenario.dal "data/reports.sqlite" Sql.insert_report
    [PyStr "c.txt"; PyNone; PyStr "/in/c.txt"; PyNone; PyStr "new"]
    false false false Scenario.stocked
  = (Return (Val PyNone), Scenario.stocked).
Proof.
  edestruct (uncommitted_write_is_dropped Scenario.dal "data/reports.sqlite"
               Sql.insert_report
               [PyStr "c.txt"; PyNone; PyStr "/in/c.txt"; PyNone; PyStr "new"]
               (Sql.InsertReport (Some "c.txt") None (Some "/in/c.txt") None (Some "new"))
               Scenario.stocked) as [H _].
  - vm_compute. reflexivity.
  - reflexivity.
  - vm_compute. reflexivity.
  - rewrite H; reflexivity.
Defined.

(** ** Pages of the prompt listing *)

Lemma firstn_add {A} a b (l : list A) :
  firstn (a + b) l = firstn a l ++ firstn b (skipn a l).
Proof.
  revert l. induction a as [| a IH]; intros l; simpl; [reflexivity |].
  destruct l as [| x l]; simpl; [now rewrite firstn_nil | now rewrite IH].
Qed.

Lemma skipn_add {A} a b (l : list A) : skipn (a + b) l = skipn b (skipn a l).
Proof.
  revert l. induction a as [| a IH]; intros l; simpl; [reflexivity |].
  destruct l as [| x l]; simpl; [now rewrite skipn_nil | apply IH].
Qed.

Lemma limit_offset_within {A} limit offset (l : list A) :
  0 <= limit -> (length (Sql.limit_offset limit offset l) <= Z.to_nat limit)%nat.
Proof.
  intros H. unfold Sql.limit_offset.
  destruct (Z.ltb_spec limit 0); [lia |]. apply firstn_le_length.
Qed.

Lemma limit_offset_beyond {A} limit offset (l : list A) :
  Z.of_nat (length l) <= offset -> Sql.limit_offset limit offset l = [].
Proof.
  intros H. unfold Sql.limit_offset.
  rewrite skipn_all2 by lia.
  destruct (limit <? 0); [reflexivity | apply firstn_nil].
Qed.

Lemma limit_offset_append {A} l1 l2 offset (l : list A) :
  0 <= l1 -> 0 <= l2 -> 0 <= offset ->
  Sql.limit_offset (l1 + l2) offset l =
  Sql.limit_offset l1 offset l ++ Sql.limit_offset l2 (offset + l1) l.
Proof.
  intros H1 H2 Ho. unfold Sql.limit_offset.
  destruct (Z.ltb_spec (l1 + l2) 0); [lia |].
  destruct (Z.ltb_spec l1 0); [lia |].
  destruct (Z.ltb_spec l2 0); [lia |].
  rewrite !Z2Nat.inj_add by lia.
  now rewrite firstn_add, skipn_add.
Qed.

Lemma limit_offset_negative {A} limit offset (l : list A) :
  (limit < 0 -> Sql.limit_offset limit offset l = skipn (Z.to_nat offset) l) /\
  (offset < 0 -> Sql.limit_offset limit offset l = Sql.limit_offset limit 0 l).
Proof.
  unfold Sql.limit_offset. split.
  - intros H. destruct (Z.ltb_spec limit 0); [reflexivity | lia].
  - intros H. destruct offset; try lia. reflexivity.
Qed.



(** ** Failed writes *)

Lemma provision_now db_path w :
  now (world_of (provision_directory db_path w)) = now w.
Proof. now destruct (frames_provision_directory [] db_path w) as [H _]. Qed.

(** What a statement of the module does to the files when it goes through
    the executor, on any world: nothing, or the one write the statement
    makes to the store as the file holds it. *)
Lemma executor_effect self path q params st fo fa c w :
  Sql.decode q params = Sql.Known st ->
  let r := _execute_query self path q params fo fa c w in
  files (world_of r) = files w \/
  exists s' last cur v,
    Sql.run st (now w) (disk w path) 0 = Return (Some s', last, cur) /\
    files (world_of r) = Dict.set path s' (files w) /\
    result_of r = Return v.
Proof.
  intros Hd r. subst r. unfold _execute_query, bind.
  pose proof (provision_files path w) as Hf.
  pose proof (provision_now path w) as Hn.
  destruct (provision_directory path w) as [[[] | e] w1]; simpl in Hf, Hn;
    [| now left].
  assert (Hdisk : disk w1 path = disk w path) by (unfold disk; now rewrite Hf).
  unfold try_except, run_query, async_with_connect, bind.
  destruct (aiosqlite_connect path w1) as [[db | e] w0] eqn:Ec;
    [| apply connect_world in Ec; subst w0; now left].
  pose proof (connect_fresh _ _ _ _ Ec) as ->.
  apply connect_world in Ec; subst w0.
  rewrite (execute_known path q params st w1 Hd), Hn, Hdisk.
  destruct (Sql.run st (now w) (disk w path) 0) as [[[[s' |] last] cur] | e] eqn:Er;
    [| | now left].
  - destruct (Sql.is_dml q).
    + destruct c.
      * right. exists s', last, cur.
        unfold db_commit; cbn [c_txn c_path c_last_rowid].
        destruct (is_insert q).
        -- rewrite execute_last_insert_rowid. eexists. rewrite <- Hf. now repeat split.
        -- eexists. rewrite <- Hf. now repeat split.
      * left. now destruct fo; [| destruct fa].
    + right. exists s', last, cur.
      destruct c.
      * unfold db_commit; cbn [c_txn c_path c_last_rowid].
        destruct (is_insert q).
        -- rewrite execute_last_insert_rowid. eexists. rewrite <- Hf. now repeat split.
        -- eexists. rewrite <- Hf. now repeat split.
      * destruct fo; [| destruct fa]; eexists; rewrite <- Hf; now repeat split.
  - left. destruct c.
    + unfold db_commit; cbn [c_txn c_path c_last_rowid].
      destruct (is_insert q); [rewrite execute_last_insert_rowid |]; exact Hf.
    + now destruct fo; [| destruct fa].
Qed.

(** Once the first statement has run, nothing in the body of the [try]
    raises. *)
Lemma after_execute_returns (query : string) (fo fa c : bool) (db : Conn) (cur : Cursor)
      (w : World) :
  exists v w',
    ((if c then
       db <- db_commit db ;;
       if is_insert query then
         '(db, id_cursor) <- db_execute db "SELECT last_insert_rowid()" [] ;;
         let last_id_row := fetchone id_cursor in
         cursor_close id_cursor ;;
         ret (match last_id_row with
              | Some (v :: _) => Val v
              | _ => Val PyNone
              end)
       else ret (Val PyNone)
     else if fo then
       let result := fetchone cur in
       cursor_close cur ;;
       ret (match result with Some r => Row r | None => Val PyNone end)
     else if fa then
       let result := fetchall cur in
       cursor_close cur ;;
       ret (RowList result)
     else
       cursor_close cur ;;
       ret (Val PyNone)) : M pyresult) w = (Return v, w').
Proof.
  destruct c.
  - destruct db as [p [s |] l]; unfold bind at 1, db_commit;
      cbn [c_txn c_path c_last_rowid]; destruct (is_insert query);
      try (unfold bind at 1; rewrite execute_last_insert_rowid); cbn;
      unfold ret; eauto.
  - destruct fo; [| destruct fa]; cbn; unfold ret; eauto.
Qed.

(** A call of the executor that raises has written to no file, whatever
    the statement. *)
Lemma executor_raise_files self path q params fo fa c w e w' :
  _execute_query self path q params fo fa c w = (Raise e, w') ->
  files w' = files w.
Proof.
  unfold _execute_query, bind.
  pose proof (provision_files path w) as Hf.
  destruct (provision_directory path w) as [[[] | e0] w1]; simpl in Hf;
    [| now intros [= _ <-]].
  unfold try_except, run_query, async_with_connect, bind.
  destruct (aiosqlite_connect path w1) as [[db | e1] w0] eqn:Ec;
    apply connect_world in Ec; subst w0; [| now intros [= _ <-]].
  destruct (db_execute db q params w1) as [[[db' cur] | e1] w2] eqn:Ee.
  - destruct (after_execute_returns q fo fa c db' cur w2) as [v [w3 H]].
    unfold bind in H. rewrite H. discriminate.
  - unfold db_execute in Ee.
    destruct (sqlite_step _ _ _ _ _) as [[[[s' |] last] cu] | e2].
    + destruct (c_txn db); [discriminate |]. destruct (Sql.is_dml q); discriminate.
    + discriminate.
    + injection Ee as _ <-. now intros [= _ <-].
Qed.

(** With [commit=True], a statement that starts with INSERT and does not
    raise gives back a row key, never [None]. *)
Lemma executor_insert_key self path q params fo fa w b w' :
  is_insert q = true ->
  _execute_query self path q params fo fa true w = (Return b, w') ->
  exists n, b = Val (PyInt n).
Proof.
  intros Hi. unfold _execute_query, bind.
  destruct (provision_directory path w) as [[[] | e0] w1]; [| discriminate].
  unfold try_except, run_query, async_with_connect, bind.
  destruct (aiosqlite_connect path w1) as [[db | e1] w0]; [| discriminate].
  destruct (db_execute db q params w0) as [[[[p t l] cur] | e1] w2]; [| discriminate].
  rewrite Hi.
  destruct t as [s |]; unfold db_commit; cbn [c_txn c_path c_last_rowid];
    rewrite execute_last_insert_rowid; cbn; intros [= <- _]; eauto.
Qed.

Lemma is_insert_insert_report : is_insert Sql.insert_report = true.
Proof. reflexivity. Qed.

Lemma is_insert_insert_prompt : is_insert Sql.insert_prompt = true.
Proof. reflexivity. Qed.

(** A method of the shape [try: x = call; log; return f(x)  except: log;
    return v]: when it returns [v] and [f(x)] is never [v], the call has
    raised. *)
Lemma guarded_failure_files {A B} (call : M B) (f : B -> A)
      origin props props' exc_info (v : A) w w' :
  (forall e w1, call w = (Raise e, w1) -> files w1 = files w) ->
  (forall b w1, call w = (Return b, w1) -> f b <> v) ->
  try_except (x <- call ;; logger_info origin props ;; ret (f x))
    (fun e => logger_error origin props' (Some e) exc_info ;; ret v) w
  = (Return v, w') ->
  files w' = files w.
Proof.
  intros Hraise Hret. unfold try_except, bind.
  destruct (call w) as [[b | e] w1] eqn:Ec.
  - cbn. intros [= Hv _]. now elim (Hret b w1 eq_refl).
  - cbn. intros [= <-]. cbn. now apply (Hraise e).
Qed.

Lemma get_report_by_id_files self id w :
  files (world_of (get_report_by_id self id w)) = files w.
Proof.
  unfold get_report_by_id.
  apply (direct_read_files _ _ _ (Sql.SelectReport id)
           (fun x => let '(db, cursor) := x in
                     let row := fetchone_row cursor in
                     cursor_close cursor ;; ret row));
    [reflexivity | apply select_report_reads_only | now intros [db c] w1
    | intros [[| kv d] |] w1; reflexivity | reflexivity].
Qed.

Lemma stored_metadata_load_world v w :
  world_of ((if truthy v then json_loads v else ret (JObj [])) w) = w.
Proof.
  destruct (truthy v); [| reflexivity].
  destruct v; try reflexivity. simpl. now destruct (Json.loads s).
Qed.

Lemma update_report_metadata_failure_files self id upd w w' :
  update_report_metadata self id upd w = (Return false, w') -> files w' = files w.
Proof.
  unfold update_report_metadata. unfold bind at 1.
  pose proof (get_report_by_id_files self id w) as Hg.
  destruct (get_report_by_id self id w) as [[[[| kv d] |] | e] w1]; simpl in Hg;
    try (now intros [= <-]).
  cbv zeta.
  set (v := match Dict.get "metadata" (kv :: d) with Some v => v | None => PyNone end).
  unfold try_except, bind.
  pose proof (stored_metadata_load_world v w1) as Hl.
  destruct ((if truthy v then json_loads v else ret (JObj [])) w1) as [[j | e] w2];
    simpl in Hl; subst w2.
  - destruct j; cbn [metadata_merge raise ret];
      try (destruct (is_JSONDecodeError _); now intros [= <-]).
    destruct (_execute_query _ _ _ _ _ _ _ w1) as [[b | e] w3] eqn:Ee.
    + cbn. discriminate.
    + apply executor_raise_files in Ee.
      destruct (is_JSONDecodeError e); cbn; intros [= <-]; cbn; congruence.
  - destruct (is_JSONDecodeError e); cbn; now intros [= <-].
Qed.



(** X15.  A report whose stored metadata is JSON but not a map (a list, a
    number, a string, null): [update_report_metadata] returns [False] and
    writes nothing.  The failure is the missing [update] method of the
    decoded value, so it is logged as a general failure of the operation,
    without traceback, and not as a decoding error; the report reads
    afterwards as it did before. *)
Theorem metadata_of_another_shape self w tb id r upd j :
  connectable w (reports_db_path self) = true ->
  reports (disk w (reports_db_path self)) = Some tb ->
  find_report id tb = Some r ->
  stored_metadata (r_metadata r) = Return j ->
  (forall m, j <> JObj m) ->
  exists rec e,
    update_report_metadata self id upd w = (Return false, logged w rec) /\
    lg_level rec = ERROR /\
    lg_origin rec = "update_report_metadata" /\
    lg_props rec = [("operation", "update_report_metadata");
                    ("db_operation_status", "failure")] /\
    lg_exc rec = Some e /\ exc_class e = AttributeError /\
    lg_exc_info rec = false /\
    files (logged w rec) = files w /\
    get_report_by_id self id (logged w rec) = (Return (Some (report_dict r)), logged w rec).
Proof.
  intros Hopen Htable Hfind Hs Hshape.
  pose proof (update_report_metadata_found self w tb id r upd Hopen Htable Hfind) as Hup.
  rewrite Hs in Hup.
  set (rec := mk_log ERROR "update_report_metadata"
                [("operation", "update_report_metadata");
                 ("db_operation_status", "failure")]
                (Some (mk_exn AttributeError "object has no attribute 'update'")) false)
    in *.
  exists rec, (mk_exn AttributeError "object has no attribute 'update'").
  split.
  { destruct j; try exact Hup. now elim (Hshape members). }
  repeat (split; [reflexivity |]).
  rewrite (get_report_by_id_reads self (logged w rec) tb);
    [now rewrite Hfind | now rewrite connectable_logged | now rewrite disk_logged].
Qed.

(** A report whose metadata column holds the text of a list. *)
Lemma metadata_of_another_shape_witness :
  let r := mk_report 1 "a.docx" (Some "text") (Some "/in/a.docx") 100 (Some "new")
                     (Some "[1, 2]") None in
  let w := write_disk Scenario.stocked "data/reports.sqlite"
             (Sql.put_reports (disk Scenario.stocked "data/reports.sqlite")
                (mk_table [r] 1)) in
  result_of (update_report_metadata Scenario.dal 1 [("k", JInt 1)] w) = Return false /\
  result_of (get_report_by_id Scenario.dal 1
               (world_of (update_report_metadata Scenario.dal 1 [("k", JInt 1)] w)))
  = Return (Some (report_dict r)).
Proof.
  intros r w.
  destruct (metadata_of_another_shape Scenario.dal w (mk_table [r] 1) 1 r
              [("k", JInt 1)] (JArr [JInt 1; JInt 2]))
    as [rec [e [Hup [_ [_ [_ [_ [_ [_ [_ Hget]]]]]]]]]].
  - vm_compute. reflexivity.
  - vm_compute. reflexivity.
  - reflexivity.
  - vm_compute. reflexivity.
  - discriminate.
  - rewrite Hup. split; [reflexivity |]. cbn [world_of snd]. now rewrite Hget.
Defined.

(** ** Sessions of calls *)

(** A read by key finds a row of the table, or returns [None] and leaves
    the files alone. *)
Lemma get_report_by_id_cases self id w :
  (exists tb r,
     connectable w (reports_db_path self) = true /\
     reports (disk w (reports_db_path self)) = Some tb /\
     find_report id tb = Some r) \/
  (exists w1, get_report_by_id self id w = (Return None, w1) /\ files w1 = files w).
Proof.
  pose proof (get_report_by_id_files self id w) as Hf.
  destruct (connectable w (reports_db_path self)) eqn:Hc.
  - destruct (reports (disk w (reports_db_path self))) as [tb |] eqn:Ht.
    + destruct (find_report id tb) as [r |] eqn:Hfind.
      * left. now exists tb, r.
      * right. exists w. split; [| reflexivity].
        rewrite (get_report_by_id_reads self w tb Hc Ht). now rewrite Hfind.
    + right. eexists. split; [| exact Hf].
      unfold get_report_by_id, async_with_connect in *.
      unfold try_except, bind in *.
      rewrite (connect_connectable _ _ Hc) in *.
      rewrite (execute_known _ _ _ _ _ (decode_select_report id)) in *.
      cbn [Sql.run] in *. unfold Sql.on_reports in *. rewrite Ht in *.
      reflexivity.
  - right. pose proof (get_report_by_id_refused self id w Hc) as Hr.
    destruct (get_report_by_id self id w) as [r w1]. cbn in Hr, Hf. subst r.
    now exists w1.
Qed.

Section OneWrite.

Variable P : Sql.stmt -> Prop.

Lemma one_write_files w w1 w2 :
  one_write P w w1 -> files w2 = files w1 -> one_write P w w2.
Proof.
  intros [H | [path [st [t [s' [last [cur [HP [Hr H]]]]]]]]] E.
  - left. congruence.
  - right. exists path, st, t, s', last, cur. repeat split; [exact HP | exact Hr | congruence].
Qed.

Lemma executor_one_write self path q params st fo fa c w :
  Sql.decode q params = Sql.Known st -> P st ->
  one_write P w (world_of (_execute_query self path q params fo fa c w)).
Proof.
  intros Hd HP.
  destruct (executor_effect self path q params st fo fa c w Hd)
    as [H | [s' [last [cur [v [Hr [H _]]]]]]].
  - now left.
  - right. now exists path, st, (now w), s', last, cur.
Qed.

(** The files after a guarded call are those the call left. *)
Lemma guarded_files {A B} (call : M B) (k : B -> M A) (h : exn -> M A) w :
  (forall b w1, files (world_of (k b w1)) = files w1) ->
  (forall e w1, files (world_of (h e w1)) = files w1) ->
  files (world_of (try_except (bind call k) h w)) = files (world_of (call w)).
Proof.
  intros Hk Hh. unfold try_except, bind.
  destruct (call w) as [[b | e] w1]; cbn [world_of snd].
  - specialize (Hk b w1). destruct (k b w1) as [[a | e] w2]; cbn [world_of snd] in *.
    + exact Hk.
    + now rewrite Hh.
  - apply Hh.
Qed.

Lemma insert_report_data_one_write self fn ct sp md st w :
  P (Sql.InsertReport (Some fn) ct (Some sp) (metadata_text md) (Some st)) ->
  one_write P w (world_of (insert_report_data self fn ct sp md st w)).
Proof.
  intros HP. eapply one_write_files;
    [eapply executor_one_write;
     [apply (decode_insert_report fn ct sp (metadata_text md) st) | exact HP] |].
  unfold insert_report_data. now apply guarded_files.
Qed.

Lemma update_report_status_one_write self id st pc w :
  P (match pc with
     | Some c => Sql.UpdateStatusContent (Some st) (Some c) id
     | None => Sql.UpdateStatus (Some st) id
     end) ->
  one_write P w (world_of (update_report_status self id st pc w)).
Proof.
  intros HP. eapply one_write_files;
    [eapply executor_one_write; [apply (decode_status id st pc) | exact HP] |].
  unfold update_report_status. now apply guarded_files.
Qed.

Lemma update_report_analysis_one_write self id an st w :
  P (Sql.UpdateAnalysis (Some an) (Some st) id) ->
  one_write P w (world_of (update_report_analysis self id an st w)).
Proof.
  intros HP. eapply one_write_files;
    [eapply executor_one_write; [apply (decode_update_analysis an st id) | exact HP] |].
  unfold update_report_analysis. now apply guarded_files.
Qed.

Lemma insert_prompt_template_one_write self nm tx cat w :
  P (Sql.InsertPrompt (Some nm) (Some tx) cat) ->
  one_write P w (world_of (insert_prompt_template self nm tx cat w)).
Proof.
  intros HP. eapply one_write_files;
    [eapply executor_one_write; [apply (decode_insert_prompt nm tx cat) | exact HP] |].
  unfold insert_prompt_template. now apply guarded_files.
Qed.

(** [update_report_metadata] writes, if it writes, the merge of the map
    that the metadata of a stored report decodes to. *)
Lemma update_report_metadata_one_write self id upd w :
  (forall tb r current,
     reports (disk w (reports_db_path self)) = Some tb -> In r (rows tb) ->
     stored_metadata (r_metadata r) = Return (JObj current) ->
     P (Sql.UpdateMetadata (Some (Json.dumps (JObj (Dict.update current upd)))) id)) ->
  one_write P w (world_of (update_report_metadata self id upd w)).
Proof.
  intros HP.
  destruct (get_report_by_id_cases self id w)
    as [[tb [r [Hopen [Htable Hfind]]]] | [w1 [Hget Hf]]].
  - rewrite (update_report_metadata_found self w tb id r upd Hopen Htable Hfind).
    destruct (stored_metadata (r_metadata r)) as [j | e] eqn:Es; [| now left].
    destruct j; try (now left).
    right.
    exists (reports_db_path self),
      (Sql.UpdateMetadata (Some (Json.dumps (JObj (Dict.update members upd)))) id),
      (now w).
    eexists _, 0, no_rows. split; [| split].
    + apply (HP tb r members Htable); [| exact Es].
      unfold find_report in Hfind. now apply find_some in Hfind.
    + cbn [Sql.run]. unfold Sql.on_reports. rewrite Htable. reflexivity.
    + reflexivity.
  - left. unfold update_report_metadata.
    rewrite (bind_return _ _ _ _ _ Hget). exact Hf.
Qed.

Lemma create_reports_table_one_write self w :
  P Sql.CreateReports -> one_write P w (world_of (_create_reports_table self w)).
Proof.
  intros HP. unfold _create_reports_table, bind.
  pose proof (executor_one_write self (reports_db_path self) Sql.create_reports []
                _ false false true w decode_create_reports HP) as He.
  destruct (_execute_query _ _ _ _ _ _ _ w) as [[b | e] w1]; exact He.
Qed.

Lemma create_prompts_table_one_write self w :
  P Sql.CreatePrompts -> one_write P w (world_of (_create_prompts_table self w)).
Proof.
  intros HP. unfold _create_prompts_table, bind.
  pose proof (executor_one_write self (prompts_db_path self) Sql.create_prompts []
                _ false false true w decode_create_prompts HP) as He.
  destruct (_execute_query _ _ _ _ _ _ _ w) as [[b | e] w1]; exact He.
Qed.

Variable R : Store -> Store -> Prop.
Hypothesis R_refl : forall s, R s s.
Hypothesis R_trans : forall a b c, R a b -> R b c -> R a c.
Hypothesis R_run :
  forall st t s last s' l c,
    P st -> Sql.run st t s last = Return (Some s', l, c) -> R s s'.

Lemma carried_files w w' : files w' = files w -> carried R w w'.
Proof. intros E p. unfold disk. rewrite E. apply R_refl. Qed.

Lemma carried_trans w1 w2 w3 : carried R w1 w2 -> carried R w2 w3 -> carried R w1 w3.
Proof. intros H1 H2 p. eapply R_trans; [apply H1 | apply H2]. Qed.

Lemma carried_one_write w w' : one_write P w w' -> carried R w w'.
Proof.
  intros [H | [path [st [t [s' [last [cur [HP [Hr H]]]]]]]]]; [now apply carried_files |].
  intros p. unfold disk at 2. rewrite H.
  destruct (String.eqb_spec p path) as [-> | Hne].
  - rewrite get_set_same. eapply R_run; [exact HP | exact Hr].
  - rewrite get_set_other by exact Hne. apply R_refl.
Qed.

Lemma initialize_databases_carried self w :
  P Sql.CreateReports -> P Sql.CreatePrompts ->
  carried R w (world_of (initialize_databases self w)).
Proof.
  intros HP1 HP2.
  unfold initialize_databases. unfold bind at 1.
  pose proof (carried_one_write _ _ (create_reports_table_one_write self w HP1)) as H1.
  destruct (_create_reports_table self w) as [[[] | e] w1]; cbn [world_of snd] in *;
    [| exact H1].
  unfold bind at 1.
  pose proof (carried_one_write _ _ (create_prompts_table_one_write self w1 HP2)) as H2.
  destruct (_create_prompts_table self w1) as [[[] | e] w2]; cbn [world_of snd] in *;
    eapply carried_trans; try exact H1; exact H2.
Qed.

End OneWrite.

Lemma get_prompt_template_by_name_files self nm w :
  files (world_of (get_prompt_template_by_name self nm w)) = files w.
Proof.
  unfold get_prompt_template_by_name.
  apply (direct_read_files _ _ _ (Sql.SelectPrompt (Some nm))
           (fun x => let '(db, cursor) := x in
                     let row := fetchone_row cursor in
                     cursor_close cursor ;; ret row));
    [reflexivity | apply select_prompt_reads_only | now intros [db c] w1
    | intros [[| kv d] |] w1; reflexivity | reflexivity].
Qed.

Lemma get_all_prompt_templates_files self limit offset w :
  files (world_of (get_all_prompt_templates self limit offset w)) = files w.
Proof.
  unfold get_all_prompt_templates.
  apply (direct_read_files _ _ _ (Sql.ListPrompts limit offset)
           (fun x => let '(db, cursor) := x in
                     let rows := fetchall_rows cursor in
                     cursor_close cursor ;; ret rows));
    [reflexivity | apply list_prompts_reads_only | now intros [db c] w1
    | intros [| r l] w1; reflexivity | reflexivity].
Qed.

Lemma check_report_exists_files self sp w :
  files (world_of (check_report_exists_by_source_path self sp w)) = files w.
Proof.
  unfold check_report_exists_by_source_path.
  rewrite guarded_files by reflexivity.
  destruct (executor_effect self (reports_db_path self) Sql.exists_source [PyStr sp] _
              true false false w (decode_exists_source sp))
    as [H | [s' [last [cur [v [Hr _]]]]]]; [exact H |].
  exfalso. cbn [Sql.run] in Hr. unfold Sql.on_reports in Hr.
  destruct (reports (disk w (reports_db_path self))); discriminate.
Qed.

(** A relation that every statement of the module keeps is kept by every
    call, and so by every session. *)
Section Carried.

Variable R : Store -> Store -> Prop.
Hypothesis R_refl : forall s, R s s.
Hypothesis R_trans : forall a b c, R a b -> R b c -> R a c.
Hypothesis R_run :
  forall st t s last s' l c, Sql.run st t s last = Return (Some s', l, c) -> R s s'.

Lemma perform_carried self c w : carried R w (Client.perform self c w).
Proof.
  assert (Hrun : forall st t s last s' l c,
             True -> Sql.run st t s last = Return (Some s', l, c) -> R s s')
    by (intros; eapply R_run; eassumption).
  pose proof (carried_one_write (fun _ => True) R R_refl Hrun) as Hone.
  destruct c; cbn [Client.perform].
  - now apply (initialize_databases_carried (fun _ => True)).
  - now apply Hone, insert_report_data_one_write.
  - apply carried_files, get_report_by_id_files. exact R_refl.
  - now apply Hone, update_report_status_one_write.
  - now apply Hone, update_report_analysis_one_write.
  - now apply Hone, update_report_metadata_one_write.
  - apply carried_files, check_report_exists_files. exact R_refl.
  - now apply Hone, insert_prompt_template_one_write.
  - apply carried_files, get_prompt_template_by_name_files. exact R_refl.
  - apply carried_files, get_all_prompt_templates_files. exact R_refl.
  - now apply carried_files.
Qed.

Lemma session_carried self calls w : carried R w (Client.session self calls w).
Proof.
  unfold Client.session. revert w.
  induction calls as [| c calls IH]; intros w; cbn [fold_left].
  - now apply carried_files.
  - eapply carried_trans; [exact R_trans | apply perform_carried | apply IH].
Qed.

End Carried.

(** ** Rows are never lost *)

Lemma reports_kept_refl tb : reports_kept tb tb.
Proof.
  exists (fun r => r), []. split; [apply keeps_identity_id |].
  now rewrite map_id, app_nil_r.
Qed.

Lemma prompts_kept_refl tb : prompts_kept tb tb.
Proof. exists []. now rewrite app_nil_r. Qed.

Lemma keeps_identity_compose f g :
  keeps_identity f -> keeps_identity g -> keeps_identity (fun r => g (f r)).
Proof.
  intros Hf Hg r. destruct (Hf r) as [F1 [F2 F3]]. destruct (Hg (f r)) as [G1 [G2 G3]].
  repeat split; congruence.
Qed.

Lemma reports_kept_trans a b c : reports_kept a b -> reports_kept b c -> reports_kept a c.
Proof.
  intros [f [n1 [Hf E1]]] [g [n2 [Hg E2]]].
  exists (fun r => g (f r)), (map g n1 ++ n2). split; [now apply keeps_identity_compose |].
  now rewrite E2, E1, map_app, map_map, app_assoc.
Qed.

Lemma prompts_kept_trans a b c : prompts_kept a b -> prompts_kept b c -> prompts_kept a c.
Proof.
  intros [n1 E1] [n2 E2]. exists (n1 ++ n2). now rewrite E2, E1, app_assoc.
Qed.

Lemma store_kept_refl s : store_kept s s.
Proof.
  split; intros tb H; exists tb; split; auto using reports_kept_refl, prompts_kept_refl.
Qed.

Lemma store_kept_trans a b c : store_kept a b -> store_kept b c -> store_kept a c.
Proof.
  intros [R1 P1] [R2 P2]. split; intros tb H.
  - destruct (R1 tb H) as [tb1 [H1 K1]]. destruct (R2 tb1 H1) as [tb2 [H2 K2]].
    exists tb2. split; [exact H2 | eapply reports_kept_trans; eassumption].
  - destruct (P1 tb H) as [tb1 [H1 K1]]. destruct (P2 tb1 H1) as [tb2 [H2 K2]].
    exists tb2. split; [exact H2 | eapply prompts_kept_trans; eassumption].
Qed.

Lemma keeps_identity_where id f :
  keeps_identity f -> keeps_identity (fun r => if r_id r =? id then f r else r).
Proof.
  intros Hf r. destruct (r_id r =? id); [apply Hf | apply keeps_identity_id].
Qed.

Lemma reports_kept_update id f tb :
  keeps_identity f -> reports_kept tb (Sql.update_where_id id f tb).
Proof.
  intros Hf. exists (fun r => if r_id r =? id then f r else r), [].
  split; [now apply keeps_identity_where |].
  cbn. now rewrite app_nil_r.
Qed.

Lemma store_kept_put_reports s tb tb' :
  reports s = Some tb -> reports_kept tb tb' -> store_kept s (Sql.put_reports s tb').
Proof.
  intros H K. split; intros t Ht; cbn.
  - rewrite H in Ht. injection Ht as <-. now exists tb'.
  - exists t. split; [exact Ht | apply prompts_kept_refl].
Qed.

Lemma store_kept_put_prompts s tb tb' :
  prompt_templates s = Some tb -> prompts_kept tb tb' ->
  store_kept s (Sql.put_prompts s tb').
Proof.
  intros H K. split; intros t Ht; cbn.
  - exists t. split; [exact Ht | apply reports_kept_refl].
  - rewrite H in Ht. injection Ht as <-. now exists tb'.
Qed.

(** No statement of the module drops a table, deletes a row, reorders
    rows or changes the key, the file name or the source path of a report,
    or anything of a prompt template. *)
Lemma run_store_kept st t s last s' l c :
  Sql.run st t s last = Return (Some s', l, c) -> store_kept s s'.
Proof.
  destruct st; cbn [Sql.run]; unfold Sql.on_reports, Sql.on_prompts.
  - destruct (reports s) eqn:E; intros [= <- _ _].
    split; intros tb H; cbn; [congruence |].
    exists tb. split; [exact H | apply prompts_kept_refl].
  - destruct (prompt_templates s) eqn:E; intros [= <- _ _].
    split; intros tb H; cbn; [| congruence].
    exists tb. split; [exact H | apply reports_kept_refl].
  - destruct (reports s) as [tb |] eqn:E; [| discriminate].
    destruct filename; [| discriminate]. intros [= <- _ _].
    apply (store_kept_put_reports s tb _ E).
    exists (fun r => r), [mk_report (Sql.next_key r_id tb) s0 content source_path t
                                   status metadata None].
    split; [apply keeps_identity_id | cbn; now rewrite map_id].
  - destruct (reports s); discriminate.
  - destruct (reports s) as [tb |] eqn:E; [| discriminate]. intros [= <- _ _].
    apply (store_kept_put_reports s tb _ E), reports_kept_update, keeps_identity_status.
  - destruct (reports s) as [tb |] eqn:E; [| discriminate]. intros [= <- _ _].
    apply (store_kept_put_reports s tb _ E), reports_kept_update,
      keeps_identity_status_content.
  - destruct (reports s) as [tb |] eqn:E; [| discriminate]. intros [= <- _ _].
    apply (store_kept_put_reports s tb _ E), reports_kept_update, keeps_identity_analysis.
  - destruct (reports s) as [tb |] eqn:E; [| discriminate]. intros [= <- _ _].
    apply (store_kept_put_reports s tb _ E), reports_kept_update, keeps_identity_metadata.
  - destruct (reports s); discriminate.
  - destruct (prompt_templates s) as [tb |] eqn:E; [| discriminate].
    destruct name; [| discriminate]. destruct template_text; [| discriminate].
    destruct (existsb _ _); [discriminate |]. intros [= <- _ _].
    apply (store_kept_put_prompts s tb _ E). eexists. reflexivity.
  - destruct (prompt_templates s); discriminate.
  - destruct (prompt_templates s); discriminate.
  - discriminate.
Qed.

(** ** Keys stay unique *)

Lemma map_key_update id f tb :
  keeps_identity f -> map r_id (rows (Sql.update_where_id id f tb)) = map r_id (rows tb).
Proof.
  intros Hf. cbn. rewrite map_map. apply map_ext. intros r.
  destruct (r_id r =? id); [apply Hf | reflexivity].
Qed.

Lemma positive_update id f tb :
  keeps_identity f -> Forall (fun r => 0 < r_id r) (rows tb) ->
  Forall (fun r => 0 < r_id r) (rows (Sql.update_where_id id f tb)).
Proof.
  intros Hf H. cbn. apply Forall_map. eapply Forall_impl; [| exact H].
  intros r Hr. cbn. destruct (r_id r =? id); [| exact Hr].
  destruct (Hf r) as [-> _]. exact Hr.
Qed.

Lemma nodup_next_key {A} (key : A -> Z) (tb : table A) r :
  key r = Sql.next_key key tb ->
  NoDup (map key (rows tb)) -> NoDup (map key (rows tb ++ [r])).
Proof.
  intros Hk Hnd. rewrite map_app. cbn.
  apply NoDup_app; [exact Hnd | repeat constructor; auto |].
  intros k Hin [<- | []].
  apply in_map_iff in Hin as [x [Hx Hin]].
  apply (next_key_fresh key tb x Hin). congruence.
Qed.

Lemma well_keyed_put_reports s tb :
  well_keyed s ->
  NoDup (map r_id (rows tb)) -> Forall (fun r => 0 < r_id r) (rows tb) ->
  well_keyed (Sql.put_reports s tb).
Proof.
  intros [_ Hp] H1 H2. split; cbn; [| exact Hp].
  intros t [= <-]. now split.
Qed.

Lemma well_keyed_update s tb id f :
  keeps_identity f -> reports s = Some tb -> well_keyed s ->
  well_keyed (Sql.put_reports s (Sql.update_where_id id f tb)).
Proof.
  intros Hf E Hw. destruct (proj1 Hw tb E) as [H1 H2].
  apply well_keyed_put_reports; [exact Hw | | now apply positive_update].
  now rewrite map_key_update.
Qed.

Lemma run_well_keyed st t s last s' l c :
  Sql.run st t s last = Return (Some s', l, c) -> well_keyed s -> well_keyed s'.
Proof.
  destruct st; cbn [Sql.run]; unfold Sql.on_reports, Sql.on_prompts.
  - destruct (reports s) eqn:E; intros [= <- _ _] Hw.
    apply well_keyed_put_reports; [exact Hw | constructor | constructor].
  - destruct (prompt_templates s) eqn:E; intros [= <- _ _] [Hr _].
    split; cbn; [exact Hr |]. intros tb [= <-]. repeat split; constructor.
  - destruct (reports s) as [tb |] eqn:E; [| discriminate].
    destruct filename; [| discriminate]. intros [= <- _ _] Hw.
    destruct (proj1 Hw tb E) as [H1 H2].
    apply well_keyed_put_reports; [exact Hw | now apply nodup_next_key |].
    cbn. apply Forall_app. split; [exact H2 |].
    constructor; [apply next_key_positive | constructor].
  - destruct (reports s); discriminate.
  - destruct (reports s) as [tb |] eqn:E; [| discriminate]. intros [= <- _ _].
    apply well_keyed_update; [apply keeps_identity_status | exact E].
  - destruct (reports s) as [tb |] eqn:E; [| discriminate]. intros [= <- _ _].
    apply well_keyed_update; [apply keeps_identity_status_content | exact E].
  - destruct (reports s) as [tb |] eqn:E; [| discriminate]. intros [= <- _ _].
    apply well_keyed_update; [apply keeps_identity_analysis | exact E].
  - destruct (reports s) as [tb |] eqn:E; [| discriminate]. intros [= <- _ _].
    apply well_keyed_update; [apply keeps_identity_metadata | exact E].
  - destruct (reports s); discriminate.
  - destruct (prompt_templates s) as [tb |] eqn:E; [| discriminate].
    destruct name as [nm |]; [| discriminate].
    destruct template_text as [tx |]; [| discriminate].
    destruct (existsb _ _) eqn:Ex; [discriminate |]. intros [= <- _ _] [Hr Hp].
    destruct (Hp tb E) as [H1 [H2 H3]].
    split; cbn; [exact Hr |]. intros t' [= <-]. cbn. split; [| split].
    + now apply nodup_next_key.
    + apply Forall_app. split; [exact H2 |].
      constructor; [apply next_key_positive | constructor].
    + rewrite map_app. cbn.
      apply NoDup_app; [exact H3 | repeat constructor; auto |].
      intros k Hin [<- | []].
      apply in_map_iff in Hin as [x [Hx Hin]].
      assert (existsb (fun p => String.eqb (p_name p) nm) (rows tb) = true) as Ht.
      { apply existsb_exists. exists x. split; [exact Hin |]. now apply String.eqb_eq. }
      congruence.
  - destruct (prompt_templates s); discriminate.
  - destruct (prompt_templates s); discriminate.
  - discriminate.
Qed.

(** X16.  No sequence of calls of the layer's methods loses anything: in
    every store file, a table that was there is still there, with every
    row it had, in the same order; a report keeps its key, file name and
    source path (only content, status, time stamp, metadata and analysis
    can change), and a prompt template stays exactly as it was inserted. *)
Theorem no_call_loses_a_row self calls w p :
  store_kept (disk w p) (disk (Client.session self calls w) p).
Proof.
  apply (session_carried store_kept store_kept_refl store_kept_trans run_store_kept).
Qed.

(** X17.  Keys stay unique through every sequence of calls: if in a store
    file the keys are positive and distinct and the names of the prompt
    templates are distinct, that is so after the calls; hence it is so in
    every store file of an installation that started without files. *)
Theorem keys_stay_unique self calls w p :
  (well_keyed (disk w p) -> well_keyed (disk (Client.session self calls w) p)) /\
  (files w = [] -> well_keyed (disk (Client.session self calls w) p)).
Proof.
  assert (H : well_keyed (disk w p) -> well_keyed (disk (Client.session self calls w) p)).
  { apply (session_carried (fun s s' => well_keyed s -> well_keyed s')); auto.
    intros st t s last s' l c. apply run_well_keyed. }
  split; [exact H |].
  intros E. apply H. unfold disk. rewrite E. cbn.
  split; intros tb; discriminate.
Qed.

(** On the installation with five templates, after one more session. *)
Lemma keys_stay_unique_witness :
  let calls := [Client.InsertPrompt "p3" "again" None; Client.Wait 200;
                Client.InsertPrompt "p6" "text" (Some "c"); Client.GetPrompt "p6"] in
  well_keyed (disk (Client.session Scenario.dal calls Scenario.five) "data/prompts.sqlite") /\
  well_keyed (disk (Client.session Scenario.dal (Client.Initialize :: calls) Scenario.blank)
                   "data/prompts.sqlite").
Proof.
  intros calls. split.
  - apply (proj1 (keys_stay_unique Scenario.dal calls Scenario.five
                      "data/prompts.sqlite")).
    vm_compute. split; intros tb H; [discriminate H |].
    injection H as <-. cbn.
    repeat split; repeat constructor; cbn; try lia; intuition discriminate.
  - apply (proj2 (keys_stay_unique Scenario.dal (Client.Initialize :: calls)
                      Scenario.blank "data/prompts.sqlite")).
    reflexivity.
Defined.

(** ** The codec of the metadata column *)

Module CodecFacts.
Import Codec.

Lemma append_assoc (a b c : string) : ((a ++ b) ++ c = a ++ (b ++ c))%string.
Proof. induction a as [| x a IH]; cbn; [reflexivity | now rewrite IH]. Qed.

Lemma append_nil_r (a : string) : (a ++ EmptyString = a)%string.
Proof. induction a as [| x a IH]; cbn; [reflexivity | now rewrite IH]. Qed.

Lemma length_append (a b : string) :
  String.length (a ++ b) = (String.length a + String.length b)%nat.
Proof. induction a as [| x a IH]; cbn; [reflexivity | now rewrite IH]. Qed.

(** *** The text of a document *)

Lemma dumps_arr xs :
  Json.dumps (JArr xs) = ("[" ++ PyStr.join ", " (map Json.dumps xs) ++ "]")%string.
Proof.
  reflexivity.
Qed.

Lemma dumps_obj ms :
  Json.dumps (JObj ms) = ("{" ++ PyStr.join ", " (map member_text ms) ++ "}")%string.
Proof.
  cbn [Json.dumps]. do 3 f_equal.
  induction ms as [| [k v] ms IH]; [reflexivity |].
  cbn [map]. rewrite <- IH. reflexivity.
Qed.

Lemma size_arr xs : size (JArr xs) = S (items_size xs).
Proof.
  reflexivity.
Qed.

Lemma size_obj ms : size (JObj ms) = S (members_size ms).
Proof.
  cbn [size]. f_equal.
  induction ms as [| [k v] ms IH]; [reflexivity |].
  cbn [members_size fold_right snd]. fold (members_size ms). rewrite <- IH. reflexivity.
Qed.

Lemma plain_arr xs : plain (JArr xs) = forallb plain xs.
Proof.
  cbn [plain].
  induction xs as [| x xs IH]; [reflexivity |].
  cbn [forallb]. rewrite <- IH. reflexivity.
Qed.

Lemma plain_obj ms :
  plain (JObj ms) = distinct (Dict.keys ms) && forallb (fun kv => plain (snd kv)) ms.
Proof.
  cbn [plain]. f_equal.
  induction ms as [| [k v] ms IH]; [reflexivity |].
  cbn [forallb snd]. rewrite <- IH. reflexivity.
Qed.

Lemma join_cons sep x y r :
  PyStr.join sep (x :: y :: r) = (x ++ sep ++ PyStr.join sep (y :: r))%string.
Proof. reflexivity. Qed.

Lemma join_one sep x : PyStr.join sep [x] = x.
Proof. reflexivity. Qed.



(** *** Strings *)

(** The decoder reads back what the encoder writes for one character. *)
Lemma scan_escape_char c r acc :
  Json.scan_string (Json.escape_char c ++ r) acc = Json.scan_string r (c :: acc).
Proof.
  destruct c as [[] [] [] [] [] [] [] []]; reflexivity.
Qed.

Lemma scan_escape s rest acc :
  Json.scan_string (Json.escape s ++ String Json.dq rest) acc =
  Some (string_of_list_ascii (List.rev acc ++ list_ascii_of_string s), rest).
Proof.
  revert acc. induction s as [| c s IH]; intros acc.
  - cbn. now rewrite List.app_nil_r.
  - cbn [Json.escape list_ascii_of_string].
    rewrite append_assoc, scan_escape_char, IH. cbn [List.rev].
    now rewrite <- List.app_assoc.
Qed.

Lemma scan_quote s rest :
  Json.scan_string (Json.escape s ++ Json.str1 Json.dq ++ rest) [] = Some (s, rest).
Proof.
  change (Json.str1 Json.dq ++ rest)%string with (String Json.dq rest).
  rewrite scan_escape. cbn. now rewrite string_of_list_ascii_of_string.
Qed.



(** *** Integers *)

Lemma digits_value_fold d :
  Json.digits_value d = fold_left digit_next (list_ascii_of_string d) 0.
Proof. reflexivity. Qed.

Lemma digits_acc d acc :
  fold_left digit_next (list_ascii_of_string (NilEmpty.string_of_uint d)) (Z.pos acc)
  = Z.pos (Pos.of_uint_acc d acc).
Proof.
  revert acc. induction d; intros acc; cbn [NilEmpty.string_of_uint list_ascii_of_string
                                             fold_left Pos.of_uint_acc];
    [reflexivity | ..];
    match goal with
    | |- fold_left _ _ (digit_next _ ?c) = Z.pos (Pos.of_uint_acc _ ?q) =>
        replace (digit_next (Z.pos acc) c) with (Z.pos q)
          by (unfold digit_next;
              match goal with
              | |- context [Z.of_nat ?n] =>
                  let v := eval vm_compute in (Z.of_nat n) in
                  change (Z.of_nat n) with v
              end; lia)
    end; apply IHd.
Qed.

Lemma digits_of_uint d :
  fold_left digit_next (list_ascii_of_string (NilEmpty.string_of_uint d)) 0
  = Z.of_N (Pos.of_uint d).
Proof.
  induction d; cbn [NilEmpty.string_of_uint list_ascii_of_string fold_left Pos.of_uint];
    [reflexivity | exact IHd | ..];
    match goal with
    | |- fold_left _ _ (digit_next 0 ?c) = Z.of_N (N.pos (Pos.of_uint_acc _ ?q)) =>
        change (digit_next 0 c) with (Z.pos q)
    end; apply digits_acc.
Qed.

Lemma take_digits_uint d rest :
  no_digit rest = true ->
  Json.take_digits (NilEmpty.string_of_uint d ++ rest) = (NilEmpty.string_of_uint d, rest).
Proof.
  intros Hr.
  induction d; cbn [NilEmpty.string_of_uint append Json.take_digits];
    try (change (Json.is_digit _) with true; cbv iota; now rewrite IHd).
  destruct rest as [| c r]; [reflexivity |].
  cbn in Hr. cbn [Json.take_digits]. now destruct (Json.is_digit c).
Qed.

(** The decimal digits of a positive number: the first is not a zero. *)
Lemma to_uint_head p :
  exists c r, NilEmpty.string_of_uint (Pos.to_uint p) = String c r /\
              Json.is_digit c = true /\ Ascii.eqb c "0" = false /\
              Ascii.eqb c "-" = false.
Proof.
  assert (Hn : Decimal.unorm (Pos.to_uint p) = Pos.to_uint p).
  { rewrite <- (DecimalN.Unsigned.to_of (Pos.to_uint p)).
    change (N.of_uint (Pos.to_uint p)) with (Pos.of_uint (Pos.to_uint p)).
    now rewrite DecimalPos.Unsigned.of_to. }
  pose proof (DecimalPos.Unsigned.to_uint_nonzero p) as Hz.
  pose proof (DecimalPos.Unsigned.to_uint_nonnil p) as Hnil.
  destruct (Pos.to_uint p) as [| u | u | u | u | u | u | u | u | u | u] eqn:E;
    [now elim Hnil | | cbn; eauto 10 ..].
  exfalso. unfold Decimal.unorm in Hn.
  pose proof (DecimalFacts.nzhead_nonzero (Decimal.D0 u)) as Hh.
  destruct (Decimal.nzhead (Decimal.D0 u)) eqn:En; try discriminate.
  - injection Hn as <-. now elim Hz.
  - now elim (Hh u0).
Qed.

Lemma ends_token_cases rest :
  ends_token rest = true ->
  rest = EmptyString \/
  exists r, rest = String "," r \/ rest = String "]" r \/ rest = String "}" r.
Proof.
  destruct rest as [| c r]; [now left |]. cbn. intros H. right. exists r.
  apply orb_true_iff in H as [H | H]; [apply orb_true_iff in H as [H | H] |];
    apply Ascii.eqb_eq in H; subst c; auto.
Qed.

Lemma ends_token_no_digit rest : ends_token rest = true -> no_digit rest = true.
Proof.
  intros H. destruct (ends_token_cases rest H) as [-> | [r [-> | [-> | ->]]]];
    reflexivity.
Qed.

(** The digits of an integer, with or without a minus before them, and
    then a text that goes on as [ends_token] says: an integer is read,
    there is no fraction and no exponent. *)
Lemma scan_number_digits (negative : bool) ds rest c r :
  ds = String c r -> Json.is_digit c = true -> Ascii.eqb c "0" = false ->
  Ascii.eqb c "-" = false ->
  Json.take_digits (ds ++ rest) = (ds, rest) ->
  ends_token rest = true ->
  Json.scan_number ((if negative then "-" else EmptyString) ++ ds ++ rest) =
  Some (JInt (if negative then - Json.digits_value ds else Json.digits_value ds), rest).
Proof.
  intros -> Hd H0 Hm Ht He.
  unfold Json.scan_number.
  destruct negative; cbn [append]; [cbn [Ascii.eqb Bool.eqb]; cbv iota | rewrite Hm];
    rewrite H0, Hd; cbn [append] in Ht; rewrite Ht; cbn [PyStr.is_empty];
    destruct (ends_token_cases rest He) as [-> | [r0 [-> | [-> | ->]]]];
    reflexivity.
Qed.

Lemma string_of_positive p :
  NilZero.string_of_uint (Pos.to_uint p) = NilEmpty.string_of_uint (Pos.to_uint p).
Proof.
  pose proof (DecimalPos.Unsigned.to_uint_nonnil p). now destruct (Pos.to_uint p).
Qed.

Lemma digits_value_positive p :
  Json.digits_value (NilEmpty.string_of_uint (Pos.to_uint p)) = Z.pos p.
Proof.
  rewrite digits_value_fold, digits_of_uint, DecimalPos.Unsigned.of_to. reflexivity.
Qed.

Lemma scan_int n rest :
  ends_token rest = true ->
  Json.scan_number (Json.int_repr n ++ rest) = Some (JInt n, rest).
Proof.
  intros He. unfold Json.int_repr.
  destruct n as [| p | p]; cbn [Z.to_int NilZero.string_of_int].
  - cbn [NilZero.string_of_uint NilEmpty.string_of_uint append].
    unfold Json.scan_number. cbn [Ascii.eqb Bool.eqb]. cbv iota.
    destruct (ends_token_cases rest He) as [-> | [r0 [-> | [-> | ->]]]];
      reflexivity.
  - destruct (to_uint_head p) as [c [r [E [Hd [H0 Hm]]]]].
    rewrite string_of_positive.
    pose proof (scan_number_digits false _ rest c r E Hd H0 Hm
                  (take_digits_uint _ rest (ends_token_no_digit _ He)) He) as H.
    cbn [append] in H. rewrite H. now rewrite digits_value_positive.
  - destruct (to_uint_head p) as [c [r [E [Hd [H0 Hm]]]]].
    rewrite string_of_positive.
    pose proof (scan_number_digits true _ rest c r E Hd H0 Hm
                  (take_digits_uint _ rest (ends_token_no_digit _ He)) He) as H.
    cbn [append] in H. cbn [append]. rewrite H. now rewrite digits_value_positive.
Qed.


(** *** Values *)

Lemma substring_all s : String.substring 0 (String.length s) s = s.
Proof. induction s as [| c s IH]; cbn; [reflexivity | now rewrite IH]. Qed.

Lemma drop_app a rest : Json.drop (String.length a) (a ++ rest) = rest.
Proof.
  unfold Json.drop. rewrite length_append.
  replace (String.length a + String.length rest - String.length a)%nat
    with (String.length rest) by lia.
  induction a as [| c a IH]; cbn; [apply substring_all | exact IH].
Qed.

(** A text that starts with a digit or a minus is read as a number. *)
Lemma scan_value_number f c r x :
  (Json.is_digit c || Ascii.eqb c "-")%char = true ->
  Json.scan_number (String c r) = Some x ->
  Json.scan_value (S f) (String c r) = Some x.
Proof.
  intros Hc Hn. cbn [Json.scan_value].
  destruct (Ascii.eqb_spec c Json.dq) as [-> | _]; [discriminate |].
  destruct (Ascii.eqb_spec c "{") as [-> | _]; [discriminate |].
  destruct (Ascii.eqb_spec c "[") as [-> | _]; [discriminate |].
  unfold Json.scan_constant.
  destruct (String.prefix "null" (String c r)) eqn:E1;
    [apply prefix_cons in E1 as [<- _]; discriminate |].
  destruct (String.prefix "true" (String c r)) eqn:E2;
    [apply prefix_cons in E2 as [<- _]; discriminate |].
  destruct (String.prefix "false" (String c r)) eqn:E3;
    [apply prefix_cons in E3 as [<- _]; discriminate |].
  now rewrite Hn.
Qed.

Lemma int_repr_head n :
  exists c r, Json.int_repr n = String c r /\
              (Json.is_digit c || Ascii.eqb c "-")%char = true.
Proof.
  unfold Json.int_repr. destruct n as [| p | p]; cbn [Z.to_int NilZero.string_of_int].
  - now exists "0"%char, EmptyString.
  - destruct (to_uint_head p) as [c [r [E [Hd _]]]].
    rewrite string_of_positive, E. exists c, r. now rewrite Hd.
  - now exists "-"%char, (NilZero.string_of_uint (Pos.to_uint p)).
Qed.

(** The text of a plain document does not start with white space. *)
Lemma dumps_head j :
  plain j = true ->
  exists c r, Json.dumps j = String c r /\ Json.is_ws c = false /\
              Ascii.eqb c "]" = false.
Proof.
  destruct j as [| [] | n | t | s | xs | ms]; intros Hp.
  1, 2, 3: now eexists _, _.
  2: discriminate Hp.
  2: now exists Json.dq, (Json.escape s ++ Json.str1 Json.dq)%string.
  2: rewrite dumps_arr; now eexists _, _.
  2: rewrite dumps_obj; now eexists _, _.
  destruct (int_repr_head n) as [c [r [E Hc]]].
  cbn [Json.dumps]. rewrite E. exists c, r. split; [reflexivity |].
  destruct (Ascii.eqb_spec c "]") as [-> | _]; [discriminate |].
  split; [| reflexivity].
  unfold Json.is_ws.
  destruct (Ascii.eqb_spec c " ") as [-> | _]; [discriminate |].
  destruct (Ascii.eqb_spec c "009") as [-> | _]; [discriminate |].
  destruct (Ascii.eqb_spec c "010") as [-> | _]; [discriminate |].
  destruct (Ascii.eqb_spec c "013") as [-> | _]; [discriminate | reflexivity].
Qed.

Lemma skip_ws_head c r : Json.is_ws c = false -> Json.skip_ws (String c r) = String c r.
Proof. intros H. cbn. now rewrite H. Qed.

Lemma skip_ws_dumps j rest :
  plain j = true -> Json.skip_ws (Json.dumps j ++ rest) = (Json.dumps j ++ rest)%string.
Proof.
  intros Hp. destruct (dumps_head j Hp) as [c [r [-> [Hc _]]]]. now apply skip_ws_head.
Qed.

Lemma skip_ws_ends rest : ends_token rest = true -> Json.skip_ws rest = rest.
Proof.
  intros H. destruct (ends_token_cases rest H) as [-> | [r [-> | [-> | ->]]]];
    reflexivity.
Qed.

(** In a map without a repeated key, building the [dict] from the pairs
    gives the pairs back. *)
Lemma set_fresh {V} k (v : V) d :
  mem k (Dict.keys d) = false -> Dict.set k v d = d ++ [(k, v)].
Proof.
  induction d as [| [k' v'] d IH]; cbn; [reflexivity |].
  intros H. apply orb_false_iff in H as [H1 H2]. rewrite H1. now rewrite IH.
Qed.

Lemma distinct_middle a k l :
  distinct (a ++ k :: l) = true -> mem k a = false.
Proof.
  induction a as [| x a IH]; cbn; [reflexivity |].
  intros H. apply andb_true_iff in H as [H1 H2].
  apply negb_true_iff in H1. unfold mem in H1. rewrite existsb_app in H1.
  apply orb_false_iff in H1 as [_ H1]. cbn in H1.
  apply orb_false_iff in H1 as [H1 _].
  rewrite String.eqb_sym, H1. now apply IH.
Qed.

Lemma update_distinct {V} (d l : pydict V) :
  distinct (Dict.keys (d ++ l)) = true -> Dict.update d l = d ++ l.
Proof.
  revert d. induction l as [| [k v] l IH]; intros d H.
  - cbn. now rewrite List.app_nil_r.
  - unfold Dict.update. cbn [fold_left fst snd].
    assert (Hk : mem k (Dict.keys d) = false).
    { unfold Dict.keys in H. rewrite map_app in H. cbn [map fst] in H.
      now apply distinct_middle in H. }
    rewrite (set_fresh k v d Hk).
    change (fold_left (fun acc kv => Dict.set (fst kv) (snd kv) acc) l (d ++ [(k, v)]))
      with (Dict.update (d ++ [(k, v)]) l).
    rewrite IH; now rewrite <- List.app_assoc.
Qed.

Lemma of_pairs_distinct {V} (l : pydict V) :
  distinct (Dict.keys l) = true -> Dict.of_pairs l = l.
Proof. intros H. unfold Dict.of_pairs. now rewrite (update_distinct [] l H). Qed.


(** *** The round trip *)

Lemma items_text_one x R :
  (PyStr.join ", " (map Json.dumps [x]) ++ R = Json.dumps x ++ R)%string.
Proof. reflexivity. Qed.

Lemma items_text_cons x y ys R :
  (PyStr.join ", " (map Json.dumps (x :: y :: ys)) ++ R =
   Json.dumps x ++
   String "," (String " " (PyStr.join ", " (map Json.dumps (y :: ys)) ++ R)))%string.
Proof. cbn [map]. rewrite join_cons. now rewrite !append_assoc. Qed.

Lemma members_text_one k v R :
  (PyStr.join ", " (map member_text [(k, v)]) ++ R =
   String Json.dq (Json.escape k ++ Json.str1 Json.dq ++
                   String ":" (String " " (Json.dumps v ++ R))))%string.
Proof.
  cbn [map]. rewrite join_one. unfold member_text, Json.quote. cbn [fst snd append].
  now rewrite !append_assoc.
Qed.

Lemma members_text_cons k v m ms R :
  (PyStr.join ", " (map member_text ((k, v) :: m :: ms)) ++ R =
   String Json.dq
     (Json.escape k ++ Json.str1 Json.dq ++
      String ":" (String " "
        (Json.dumps v ++
         String "," (String " " (PyStr.join ", " (map member_text (m :: ms)) ++ R))))))%string.
Proof.
  cbn [map]. rewrite join_cons. unfold member_text at 1, Json.quote at 1.
  cbn [fst snd append]. now rewrite !append_assoc.
Qed.

Lemma skip_ws_items x xs R :
  plain x = true ->
  exists c r, (PyStr.join ", " (map Json.dumps (x :: xs)) ++ R)%string = String c r /\
              Json.is_ws c = false /\ Ascii.eqb c "]" = false.
Proof.
  intros Hp. destruct (dumps_head x Hp) as [c [r [E H]]].
  destruct xs as [| y ys].
  - rewrite items_text_one, E. now eexists _, _.
  - rewrite items_text_cons, E. now eexists _, _.
Qed.

Lemma skip_ws_members kv ms R :
  exists r, (PyStr.join ", " (map member_text (kv :: ms)) ++ R)%string = String Json.dq r.
Proof.
  destruct kv as [k v]. destruct ms as [| m ms].
  - rewrite members_text_one. now eexists.
  - rewrite members_text_cons. now eexists.
Qed.

Lemma size_positive j : (1 <= size j)%nat.
Proof. destruct j; cbn; lia. Qed.

Lemma prefix_append a rest : String.prefix a (a ++ rest) = true.
Proof.
  induction a as [| c a IH]; [now destruct rest |].
  change (String.prefix (String c a) (String c a ++ rest))
    with (if ascii_dec c c then String.prefix a (a ++ rest) else false).
  now destruct (ascii_dec c c).
Qed.

(** One of the three words, and then anything. *)
Lemma scan_word f (word : string) c r v rest :
  word = String c r ->
  (Ascii.eqb c Json.dq || Ascii.eqb c "{" || Ascii.eqb c "[")%char = false ->
  (forall s, Json.scan_constant (word ++ s) = Some (v, Json.drop (String.length word) (word ++ s))) ->
  Json.scan_value (S f) (word ++ rest) = Some (v, rest).
Proof.
  intros -> Hc Hw. specialize (Hw rest). rewrite drop_app in Hw.
  cbn [append Json.scan_value] in *.
  apply orb_false_iff in Hc as [Hc H3]. apply orb_false_iff in Hc as [H1 H2].
  now rewrite H1, H2, H3.
Qed.

Lemma scan_null f rest : Json.scan_value (S f) ("null" ++ rest) = Some (JNull, rest).
Proof.
  eapply scan_word; [reflexivity | reflexivity |].
  intros s. unfold Json.scan_constant. now rewrite (prefix_append "null" s).
Qed.

Lemma prefix_other a b p s : a <> b -> String.prefix (String a p) (String b s) = false.
Proof.
  intros H.
  change (String.prefix (String a p) (String b s))
    with (if ascii_dec a b then String.prefix p s else false).
  now destruct (ascii_dec a b).
Qed.

Lemma scan_true f rest :
  Json.scan_value (S f) ("true" ++ rest) = Some (JBool true, rest).
Proof.
  eapply scan_word; [reflexivity | reflexivity |].
  intros s. unfold Json.scan_constant.
  rewrite (prefix_append "true" s).
  cbn [append]. now rewrite prefix_other by discriminate.
Qed.

Lemma scan_false f rest :
  Json.scan_value (S f) ("false" ++ rest) = Some (JBool false, rest).
Proof.
  eapply scan_word; [reflexivity | reflexivity |].
  intros s. unfold Json.scan_constant.
  rewrite (prefix_append "false" s).
  cbn [append]. now rewrite !prefix_other by discriminate.
Qed.

Lemma skip_ws_comma r : Json.skip_ws (String "," r) = String "," r.
Proof. reflexivity. Qed.

Lemma skip_ws_colon r : Json.skip_ws (String ":" r) = String ":" r.
Proof. reflexivity. Qed.

Lemma skip_ws_blank r : Json.skip_ws (String " " r) = Json.skip_ws r.
Proof. reflexivity. Qed.

Lemma scan_round_trip fuel :
  (forall j rest,
     plain j = true -> (size j <= fuel)%nat -> ends_token rest = true ->
     Json.scan_value fuel (Json.dumps j ++ rest) = Some (j, rest)) /\
  (forall x xs acc rest,
     forallb plain (x :: xs) = true -> (items_size (x :: xs) <= fuel)%nat ->
     Json.scan_items fuel (PyStr.join ", " (map Json.dumps (x :: xs)) ++ String "]" rest) acc
     = Some (JArr (List.rev acc ++ x :: xs), rest)) /\
  (forall kv ms acc rest,
     forallb (fun kv => plain (snd kv)) (kv :: ms) = true ->
     (members_size (kv :: ms) <= fuel)%nat ->
     Json.scan_members fuel
       (PyStr.join ", " (map member_text (kv :: ms)) ++ String "}" rest) acc
     = Some (JObj (Dict.of_pairs (List.rev acc ++ kv :: ms)), rest)).
Proof.
  induction fuel as [| fuel [IHV [IHI IHM]]].
  { split; [| split].
    - intros j rest _ Hs. pose proof (size_positive j). lia.
    - intros x xs acc rest _ Hs. cbn in Hs. lia.
    - intros kv ms acc rest _ Hs. cbn in Hs. lia. }
  split; [| split].
  - intros j rest Hp Hs He.
    destruct j as [| [] | n | t | s | xs | ms].
    + apply scan_null.
    + apply scan_true.
    + apply scan_false.
    + destruct (int_repr_head n) as [c [r [E Hc]]].
      cbn [Json.dumps]. pose proof (scan_int n rest He) as Hn.
      rewrite E in *. cbn [append] in *. now apply scan_value_number.
    + discriminate Hp.
    + cbn [Json.dumps]. unfold Json.quote. cbn [append Json.scan_value].
      change (Ascii.eqb Json.dq Json.dq) with true. cbv iota.
      now rewrite append_assoc, scan_quote.
    + rewrite dumps_arr. rewrite plain_arr in Hp. rewrite size_arr in Hs.
      destruct xs as [| x xs]; [reflexivity |].
      cbn [append]. rewrite append_assoc. cbn [append Json.scan_value].
      change (Ascii.eqb "[" Json.dq) with false.
      change (Ascii.eqb "[" "{") with false.
      change (Ascii.eqb "[" "[") with true. cbv iota.
      assert (Hx : plain x = true) by (cbn in Hp; now apply andb_true_iff in Hp).
      destruct (skip_ws_items x xs (String "]" rest) Hx) as [c [r [E [Hw Hb]]]].
      rewrite E, (skip_ws_head c r Hw), Hb, <- E.
      rewrite IHI; [reflexivity | exact Hp | lia].
    + rewrite dumps_obj. rewrite plain_obj in Hp. rewrite size_obj in Hs.
      apply andb_true_iff in Hp as [Hd Hp].
      destruct ms as [| kv ms]; [reflexivity |].
      cbn [append]. rewrite append_assoc. cbn [append Json.scan_value].
      change (Ascii.eqb "{" Json.dq) with false.
      change (Ascii.eqb "{" "{") with true. cbv iota.
      destruct (skip_ws_members kv ms (String "}" rest)) as [r E].
      rewrite E. change (Json.skip_ws (String Json.dq r)) with (String Json.dq r).
      change (Ascii.eqb Json.dq "}") with false. cbv iota. rewrite <- E.
      rewrite IHM; [| exact Hp | lia].
      cbn [List.rev app]. now rewrite (of_pairs_distinct _ Hd).
  - intros x xs acc rest Hp Hs.
    cbn [forallb] in Hp. apply andb_true_iff in Hp as [Hx Hp].
    cbn [items_size fold_right] in Hs. fold (items_size xs) in Hs.
    cbn [Json.scan_items].
    destruct xs as [| y ys].
    + rewrite items_text_one, IHV; [| exact Hx | lia | reflexivity].
      reflexivity.
    + rewrite items_text_cons, IHV; [| exact Hx | lia | reflexivity].
      rewrite skip_ws_comma. cbv iota. cbn [Ascii.eqb Bool.eqb andb].
      rewrite skip_ws_blank.
      assert (Hy : plain y = true) by (cbn in Hp; now apply andb_true_iff in Hp).
      destruct (skip_ws_items y ys (String "]" rest) Hy) as [c [r [E [Hw _]]]].
      rewrite E, (skip_ws_head c r Hw), <- E.
      rewrite IHI; [| exact Hp | lia].
      cbn [List.rev]. now rewrite <- List.app_assoc.
  - intros [k v] ms acc rest Hp Hs.
    cbn [forallb snd] in Hp. apply andb_true_iff in Hp as [Hv Hp].
    cbn [members_size fold_right snd] in Hs. fold (members_size ms) in Hs.
    destruct ms as [| m ms].
    + rewrite members_text_one. cbn [Json.scan_members].
      change (Ascii.eqb Json.dq Json.dq) with true. cbv iota.
      rewrite scan_quote, skip_ws_colon. cbv iota. cbn [Ascii.eqb Bool.eqb andb].
      rewrite skip_ws_blank.
      rewrite (skip_ws_dumps v _ Hv), IHV; [| exact Hv | lia | reflexivity].
      reflexivity.
    + rewrite members_text_cons. cbn [Json.scan_members].
      change (Ascii.eqb Json.dq Json.dq) with true. cbv iota.
      rewrite scan_quote, skip_ws_colon. cbv iota. cbn [Ascii.eqb Bool.eqb andb].
      rewrite skip_ws_blank.
      rewrite (skip_ws_dumps v _ Hv), IHV; [| exact Hv | lia | reflexivity].
      rewrite skip_ws_comma. cbv iota. cbn [Ascii.eqb Bool.eqb andb].
      rewrite skip_ws_blank.
      destruct (skip_ws_members m ms (String "}" rest)) as [r E].
      rewrite E. change (Json.skip_ws (String Json.dq r)) with (String Json.dq r).
      rewrite <- E.
      rewrite IHM; [| exact Hp | lia].
      cbn [List.rev]. now rewrite <- List.app_assoc.
Qed.


(** *** Enough fuel *)

Lemma length_join_cons sep x y r :
  String.length (PyStr.join sep (x :: y :: r)) =
  (String.length x + String.length sep + String.length (PyStr.join sep (y :: r)))%nat.
Proof. rewrite join_cons, !length_append. lia. Qed.

Lemma items_size_bound xs :
  Forall (fun x => (size x <= String.length (Json.dumps x))%nat) xs ->
  (items_size xs <= String.length (PyStr.join ", " (map Json.dumps xs)) + 1)%nat.
Proof.
  induction 1 as [| x xs Hx Hxs IH]; [cbn; lia |].
  cbn [items_size fold_right]. fold (items_size xs).
  destruct xs as [| y ys]; [cbn in *; lia |].
  cbn [map] in *. rewrite length_join_cons. cbn [String.length]. lia.
Qed.

Lemma length_member_text k v :
  (4 + String.length (Json.dumps v) <= String.length (member_text (k, v)))%nat.
Proof.
  unfold member_text, Json.quote. cbn [fst snd String.length append].
  rewrite !length_append. cbn [String.length Json.str1]. lia.
Qed.

Lemma members_size_bound ms :
  Forall (fun kv => (size (snd kv) <= String.length (Json.dumps (snd kv)))%nat) ms ->
  (members_size ms <= String.length (PyStr.join ", " (map member_text ms)) + 1)%nat.
Proof.
  induction 1 as [| [k v] ms Hx Hxs IH]; [cbn; lia |].
  cbn [members_size fold_right snd] in *. fold (members_size ms).
  pose proof (length_member_text k v).
  destruct ms as [| m ms]; [cbn [map] in *; rewrite join_one; cbn in *; lia |].
  cbn [map] in *. rewrite length_join_cons. cbn [String.length]. lia.
Qed.

Lemma size_items_le x xs : In x xs -> (size x < S (items_size xs))%nat.
Proof.
  induction xs as [| y ys IH]; [contradiction |].
  cbn [items_size fold_right]. fold (items_size ys).
  intros [-> | H]; [lia | specialize (IH H); lia].
Qed.

Lemma size_members_le kv ms : In kv ms -> (size (snd kv) < S (members_size ms))%nat.
Proof.
  induction ms as [| y ys IH]; [contradiction |].
  cbn [members_size fold_right]. fold (members_size ys).
  intros [-> | H]; [lia | specialize (IH H); lia].
Qed.

(** The text of a plain document has at least one character for each
    unit of its size. *)
Lemma size_bound n j :
  (size j <= n)%nat -> plain j = true -> (size j <= String.length (Json.dumps j))%nat.
Proof.
  revert j. induction n as [| n IH]; intros j Hs Hp.
  { pose proof (size_positive j). lia. }
  destruct j as [| [] | z | t | s | xs | ms]; try (cbn; lia).
  - destruct (int_repr_head z) as [c [r [E _]]]. cbn [Json.dumps size]. rewrite E.
    cbn. lia.
  - discriminate Hp.
  - rewrite size_arr in *. rewrite dumps_arr. rewrite plain_arr in Hp.
    cbn [String.length append]. rewrite length_append. cbn [String.length].
    assert (H : Forall (fun x => (size x <= String.length (Json.dumps x))%nat) xs).
    { apply Forall_forall. intros x Hin. apply IH.
      - pose proof (size_items_le x xs Hin). lia.
      - rewrite forallb_forall in Hp. now apply Hp. }
    pose proof (items_size_bound xs H). lia.
  - rewrite size_obj in *. rewrite dumps_obj. rewrite plain_obj in Hp.
    apply andb_true_iff in Hp as [_ Hp].
    cbn [String.length append]. rewrite length_append. cbn [String.length].
    assert (H : Forall (fun kv => (size (snd kv) <= String.length (Json.dumps (snd kv)))%nat)
                       ms).
    { apply Forall_forall. intros kv Hin. apply IH.
      - pose proof (size_members_le kv ms Hin). lia.
      - rewrite forallb_forall in Hp. now apply Hp. }
    pose proof (members_size_bound ms H). lia.
Qed.

(** [json.loads] reads back what [json.dumps] writes for a plain
    document. *)
Lemma loads_dumps j : plain j = true -> Json.loads (Json.dumps j) = Return j.
Proof.
  intros Hp. unfold Json.loads.
  pose proof (skip_ws_dumps j EmptyString Hp) as Hw. rewrite append_nil_r in Hw.
  rewrite Hw.
  pose proof (proj1 (scan_round_trip (2 * String.length (Json.dumps j) + 2)) j
                EmptyString Hp) as H.
  rewrite append_nil_r in H. rewrite H; [reflexivity | | reflexivity].
  pose proof (size_bound (size j) j (le_n _) Hp). lia.
Qed.

End CodecFacts.

(** ** Metadata written by the layer *)

Import Codec CodecFacts.

Lemma distinct_app_one l k :
  distinct (l ++ [k]) = distinct l && negb (mem k l).
Proof.
  induction l as [| a l IH]; cbn; [reflexivity |].
  rewrite IH. unfold mem. rewrite existsb_app. cbn.
  rewrite (String.eqb_sym k a).
  destruct (existsb (String.eqb a) l), (a =? k)%string, (distinct l),
    (existsb (String.eqb k) l); reflexivity.
Qed.

Lemma distinct_set {V} k (v : V) d :
  distinct (Dict.keys d) = true -> distinct (Dict.keys (Dict.set k v d)) = true.
Proof.
  intros H. rewrite keys_set.
  destruct (mem k (Dict.keys d)) eqn:E; [exact H |].
  now rewrite distinct_app_one, H, E.
Qed.

Lemma forallb_set {V} (p : string * V -> bool) k v d :
  (forall k', p (k', v) = p (k, v)) ->
  p (k, v) = true -> forallb p d = true -> forallb p (Dict.set k v d) = true.
Proof.
  intros Hk Hv. induction d as [| [k' v'] d IH]; cbn; [now rewrite Hv |].
  intros H. apply andb_true_iff in H as [H1 H2].
  destruct (String.eqb k k'); cbn; [now rewrite Hk, Hv, H2 | now rewrite H1, IH].
Qed.

(** Merging a plain map into a plain map gives a plain map. *)
Lemma plain_update m u :
  plain (JObj m) = true -> plain (JObj u) = true ->
  plain (JObj (Dict.update m u)) = true.
Proof.
  rewrite !plain_obj. intros Hm Hu.
  apply andb_true_iff in Hu as [_ Hu].
  unfold Dict.update. revert m Hm.
  induction u as [| [k v] u IH]; intros m Hm; [exact Hm |].
  cbn [fold_left fst snd]. cbn [forallb snd] in Hu.
  apply andb_true_iff in Hu as [Hv Hu].
  apply andb_true_iff in Hm as [Hd Hm].
  apply (IH Hu). apply andb_true_iff. split.
  - now apply distinct_set.
  - now apply forallb_set.
Qed.

Lemma dumps_obj_nonempty m : PyStr.is_empty (Json.dumps (JObj m)) = false.
Proof. now rewrite dumps_obj. Qed.

(** What the layer wrote, it decodes, to the map it wrote. *)
Lemma stored_written md :
  written_metadata md ->
  exists m, plain (JObj m) = true /\ stored_metadata md = Return (JObj m).
Proof.
  intros [-> | [m [Hp ->]]].
  - now exists [].
  - exists m. split; [exact Hp |]. unfold stored_metadata.
    now rewrite dumps_obj_nonempty, loads_dumps.
Qed.

Lemma metadata_text_written md :
  (forall m, md = Some m -> plain (JObj m) = true) ->
  written_metadata (metadata_text md).
Proof.
  intros H. destruct md as [[| kv m] |]; [now left | | now left].
  right. exists (kv :: m). split; [now apply H | reflexivity].
Qed.

Lemma stored_metadata_text md :
  (forall m, md = Some m -> plain (JObj m) = true) ->
  stored_metadata (metadata_text md) =
  Return (JObj (match md with Some m => m | None => [] end)).
Proof.
  intros H. destruct md as [[| kv m] |]; try reflexivity.
  cbn [metadata_text]. unfold stored_metadata.
  rewrite dumps_obj_nonempty, loads_dumps; [reflexivity | now apply H].
Qed.

Lemma decodable_put_prompts s tb : decodable s -> decodable (Sql.put_prompts s tb).
Proof. intros H t r Ht. now apply (H t r). Qed.

Lemma decodable_update s tb id f :
  (forall r, r_metadata (f r) = r_metadata r \/ written_metadata (r_metadata (f r))) ->
  reports s = Some tb -> decodable s ->
  decodable (Sql.put_reports s (Sql.update_where_id id f tb)).
Proof.
  intros Hf E H t r [= <-] Hin. cbn in Hin.
  apply in_map_iff in Hin as [x [<- Hin]].
  destruct (r_id x =? id); [| now apply (H tb x)].
  destruct (Hf x) as [-> | Hw]; [now apply (H tb x) | exact Hw].
Qed.

Lemma run_decodable st t s last s' l c :
  writes_decodable st ->
  Sql.run st t s last = Return (Some s', l, c) -> decodable s -> decodable s'.
Proof.
  destruct st; cbn [Sql.run writes_decodable]; unfold Sql.on_reports, Sql.on_prompts;
    intros Hg.
  - destruct (reports s) eqn:E; intros [= <- _ _] H.
    intros tb r [= <-] [].
  - destruct (prompt_templates s) eqn:E; intros [= <- _ _] H.
    now apply decodable_put_prompts.
  - destruct (reports s) as [tb |] eqn:E; [| discriminate].
    destruct filename; [| discriminate]. intros [= <- _ _] H.
    intros tb' r [= <-] Hin. cbn in Hin. apply in_app_iff in Hin as [Hin | [<- | []]].
    + now apply (H tb r).
    + exact Hg.
  - destruct (reports s); discriminate.
  - destruct (reports s) as [tb |] eqn:E; [| discriminate]. intros [= <- _ _].
    apply decodable_update; [now left | exact E].
  - destruct (reports s) as [tb |] eqn:E; [| discriminate]. intros [= <- _ _].
    apply decodable_update; [now left | exact E].
  - destruct (reports s) as [tb |] eqn:E; [| discriminate]. intros [= <- _ _].
    apply decodable_update; [now left | exact E].
  - destruct (reports s) as [tb |] eqn:E; [| discriminate]. intros [= <- _ _].
    apply decodable_update; [now right | exact E].
  - destruct (reports s); discriminate.
  - destruct (prompt_templates s) as [tb |] eqn:E; [| discriminate].
    destruct name; [| discriminate]. destruct template_text; [| discriminate].
    destruct (existsb _ _); [discriminate |]. intros [= <- _ _].
    apply decodable_put_prompts.
  - destruct (prompt_templates s); discriminate.
  - destruct (prompt_templates s); discriminate.
  - discriminate.
Qed.

Lemma perform_decodable self c w :
  plain_call c = true ->
  (forall p, decodable (disk w p)) ->
  forall p, decodable (disk (Client.perform self c w) p).
Proof.
  intros Hc Hw p.
  set (R := fun s s' : Store => decodable s -> decodable s').
  assert (Hone : forall w', one_write writes_decodable w w' -> carried R w w').
  { apply carried_one_write; [now intros s | ].
    intros st t s last s' l c0 Hg Hr. exact (run_decodable st t s last s' l c0 Hg Hr). }
  assert (Hfiles : forall w', files w' = files w -> carried R w w').
  { intros w' E. now apply carried_files. }
  assert (H : carried R w (Client.perform self c w)); [| now apply H].
  destruct c; cbn [Client.perform].
  - apply (initialize_databases_carried writes_decodable); try exact I.
    + now intros s.
    + unfold R. auto.
    + intros st t s last s' l c0 Hg Hr. exact (run_decodable st t s last s' l c0 Hg Hr).
  - apply Hone, insert_report_data_one_write. cbn [writes_decodable].
    apply metadata_text_written. intros m ->. exact Hc.
  - apply Hfiles, get_report_by_id_files.
  - apply Hone, update_report_status_one_write. now destruct processed_content.
  - now apply Hone, update_report_analysis_one_write.
  - apply Hone, update_report_metadata_one_write.
    intros tb r current Htb Hin Hs. cbn [writes_decodable]. right.
    exists (Dict.update current metadata_update). split; [| reflexivity].
    apply plain_update; [| exact Hc].
    destruct (stored_written _ (Hw (reports_db_path self) tb r Htb Hin)) as [m [Hp Hm]].
    rewrite Hs in Hm. now injection Hm as ->.
  - apply Hfiles, check_report_exists_files.
  - now apply Hone, insert_prompt_template_one_write.
  - apply Hfiles, get_prompt_template_by_name_files.
  - apply Hfiles, get_all_prompt_templates_files.
  - now apply Hfiles.
Qed.

Lemma session_decodable self calls w :
  forallb plain_call calls = true ->
  (forall p, decodable (disk w p)) ->
  forall p, decodable (disk (Client.session self calls w) p).
Proof.
  unfold Client.session. revert w.
  induction calls as [| c calls IH]; intros w Hc Hw; cbn [fold_left]; [exact Hw |].
  cbn [forallb] in Hc. apply andb_true_iff in Hc as [Hc Hcs].
  apply (IH _ Hcs). now apply perform_decodable.
Qed.

(** What [update_report_metadata] does on a report whose metadata column
    holds what the layer writes. *)
Lemma update_written_metadata self w tb id r m upd :
  connectable w (reports_db_path self) = true ->
  reports (disk w (reports_db_path self)) = Some tb ->
  find_report id tb = Some r ->
  stored_metadata (r_metadata r) = Return (JObj m) ->
  let text := Json.dumps (JObj (Dict.update m upd)) in
  let tb' := Sql.update_where_id id (Sql.set_metadata (Some text) (now w)) tb in
  exists w',
    update_report_metadata self id upd w = (Return true, w') /\
    connectable w' (reports_db_path self) = true /\
    reports (disk w' (reports_db_path self)) = Some tb' /\
    find_report id tb' = Some (Sql.set_metadata (Some text) (now w) r) /\
    (forall t, connectable (with_now w' t) (reports_db_path self) = true /\
               reports (disk (with_now w' t) (reports_db_path self)) = Some tb').
Proof.
  intros Hopen Htable Hfind Hs text tb'.
  pose proof (update_report_metadata_found self w tb id r upd Hopen Htable Hfind) as Hup.
  rewrite Hs in Hup. eexists. split; [exact Hup |].
  split; [exact Hopen |].
  assert (Ht : forall rec,
             reports (disk (logged (write_disk w (reports_db_path self)
                                      (Sql.put_reports (disk w (reports_db_path self)) tb'))
                                   rec) (reports_db_path self)) = Some tb')
    by (intros; now rewrite disk_logged_written).
  split; [apply Ht |].
  split; [| intros t; split; [exact Hopen | apply Ht]].
  unfold tb'. rewrite find_report_updated by reflexivity. now rewrite Hfind.
Qed.







(** ** What has been inserted shows up in the queries *)

(** A row that is newer than every other comes first in the order of the
    listing, and the others follow as they were. *)
Lemma order_by_newest l x :
  (forall p, In p l -> p_updated_at p < p_updated_at x) ->
  Sql.order_by_updated_desc (l ++ [x]) = x :: Sql.order_by_updated_desc l.
Proof.
  unfold Sql.order_by_updated_desc. rewrite fold_right_app. cbn [fold_right].
  induction l as [| y l IH]; intros H; [reflexivity |].
  cbn [fold_right]. rewrite IH by (intros p Hp; apply H; now right).
  cbn [Sql.insert_desc].
  pose proof (H y (or_introl eq_refl)).
  destruct (Z.leb_spec (p_updated_at x) (p_updated_at y)); [lia | reflexivity].
Qed.

Lemma limit_offset_head {A} limit (x : A) l :
  0 <= limit ->
  Sql.limit_offset (limit + 1) 0 (x :: l) = x :: Sql.limit_offset limit 0 l.
Proof.
  intros H. unfold Sql.limit_offset. cbn [Z.to_nat skipn].
  destruct (Z.ltb_spec (limit + 1) 0); [lia |].
  destruct (Z.ltb_spec limit 0); [lia |].
  replace (Z.to_nat (limit + 1)) with (S (Z.to_nat limit)) by lia. reflexivity.
Qed.

Lemma listing_world_reads self w s rec tb' limit offset :
  connectable w (prompts_db_path self) = true ->
  prompt_templates s = Some tb' ->
  let w' := logged (write_disk w (prompts_db_path self) s) rec in
  get_all_prompt_templates self limit offset w' =
  (Return (map listing_dict
               (Sql.limit_offset limit offset (Sql.order_by_updated_desc (rows tb')))), w').
Proof.
  intros Hopen Hs w'. apply get_all_prompt_templates_reads; [exact Hopen |].
  unfold w'. now rewrite disk_logged_written.
Qed.




